(** * traefik-adguard-sync: a shallow embedding of [sync.py]

    The script copies a TLS certificate and its private key from Traefik's
    [acme.json] into [AdGuardHome.yaml].  This file embeds the script as
    Rocq functions over

    - Python objects as [json.load] builds them ([pyobj]), and the
      objects [yaml.load] builds as a heap of mappings and sequences with
      identity ([document]): the script changes one of them in place,
    - a file system with modes and owners, on which every system call can
      be refused by the operating system ([world], [faults]),
    - a state-and-exception monad [M] that threads the file system, the
      trace of system calls and the log through the script,

    and proves the properties of the certificate extractor, the change
    detector, the backup manager and the configuration writer. *)

From Stdlib Require Import ZArith NArith Lia String Ascii List.
From stdpp Require Import base option list gmap strings pretty.

Set Warnings "-register-all".
Set Default Proof Using "Type".

(* ===================================================================== *)
(** ** Python strings *)
(* ===================================================================== *)

(** A Python [str] is a [string]; one [ascii] stands for one character
    with a code point below 256. *)

Definition LF : ascii := ascii_of_nat 10.
Definition SEP : ascii := "/"%char.
Definition EXTSEP : ascii := "."%char.

(** [str.isspace] on one character: the code points below 256 that
    Python classifies as whitespace. *)
Definition char_isspace (c : ascii) : bool :=
  let n := N_of_ascii c in
  ((9 <=? n) && (n <=? 13) || (28 <=? n) && (n <=? 32)
   || (n =? 133) || (n =? 160))%N.

Fixpoint all_chars (p : ascii -> bool) (s : string) : bool :=
  match s with
  | EmptyString => true
  | String c r => p c && all_chars p r
  end.

(** [s.isspace()]: at least one character, and all of them whitespace. *)
Definition isspace (s : string) : bool :=
  match s with
  | EmptyString => false
  | _ => all_chars char_isspace s
  end.

(** [s.split(sep)] for a one-character separator. *)
Fixpoint str_split (sep : ascii) (s : string) : list string :=
  match s with
  | EmptyString => [EmptyString]
  | String c r =>
      if Ascii.eqb c sep then EmptyString :: str_split sep r
      else match str_split sep r with
           | [] => [String c EmptyString]
           | x :: xs => String c x :: xs
           end
  end.

(** [sep.join(l)]. *)
Fixpoint str_join (sep : string) (l : list string) : string :=
  match l with
  | [] => EmptyString
  | [x] => x
  | x :: r => x +:+ sep +:+ str_join sep r
  end.

(** [s[:n]]. *)
Fixpoint str_take (n : nat) (s : string) : string :=
  match n, s with
  | S k, String c r => String c (str_take k r)
  | _, _ => EmptyString
  end.

(* ===================================================================== *)
(** ** [os.path] on POSIX *)
(* ===================================================================== *)

Module posixpath.

(** [l.rfind(c)]: the index of the last [c], or -1. *)
Fixpoint rfind (c : ascii) (l : list ascii) : Z :=
  match l with
  | [] => (-1)%Z
  | x :: r =>
      let j := rfind c r in
      if (0 <=? j)%Z then (j + 1)%Z
      else if Ascii.eqb x c then 0%Z else (-1)%Z
  end.

(** [l.rstrip(c)]. *)
Fixpoint rstrip (c : ascii) (l : list ascii) : list ascii :=
  match l with
  | [] => []
  | x :: r =>
      match rstrip c r with
      | [] => if Ascii.eqb x c then [] else [x]
      | r' => x :: r'
      end
  end.

Definition all_sep (l : list ascii) : bool :=
  forallb (fun x => Ascii.eqb x SEP) l.

(** [posixpath.split]:
    [i = p.rfind('/') + 1; head, tail = p[:i], p[i:]];
    [if head and head != '/'*len(head): head = head.rstrip('/')]. *)
Definition split_l (p : list ascii) : list ascii * list ascii :=
  let i := Z.to_nat (rfind SEP p + 1) in
  let head := take i p in
  let tail := drop i p in
  let head :=
    match head with
    | [] => head
    | _ => if all_sep head then head else rstrip SEP head
    end in
  (head, tail).

(** [posixpath.splitext] ([genericpath._splitext] with [sep = '/'],
    no [altsep], [extsep = '.']): the extension starts at the last dot
    of the last component, unless only dots precede it there. *)
Definition splitext_l (p : list ascii) : list ascii * list ascii :=
  let sepIndex := rfind SEP p in
  let dotIndex := rfind EXTSEP p in
  if (sepIndex <? dotIndex)%Z then
    let filenameIndex := Z.to_nat (sepIndex + 1) in
    let leading := take (Z.to_nat dotIndex - filenameIndex) (drop filenameIndex p) in
    if existsb (fun x => negb (Ascii.eqb x EXTSEP)) leading
    then (take (Z.to_nat dotIndex) p, drop (Z.to_nat dotIndex) p)
    else (p, [])
  else (p, []).

(** [posixpath.join(a, b)]. *)
Definition join_l (a b : list ascii) : list ascii :=
  match b with
  | c :: _ =>
      if Ascii.eqb c SEP then b
      else match last a with
           | None => a ++ b
           | Some z => if Ascii.eqb z SEP then a ++ b else a ++ SEP :: b
           end
  | [] =>
      match last a with
      | None => a ++ b
      | Some z => if Ascii.eqb z SEP then a ++ b else a ++ SEP :: b
      end
  end.

Definition split (p : string) : string * string :=
  let '(h, t) := split_l (list_ascii_of_string p) in
  (string_of_list_ascii h, string_of_list_ascii t).

Definition splitext (p : string) : string * string :=
  let '(n, e) := splitext_l (list_ascii_of_string p) in
  (string_of_list_ascii n, string_of_list_ascii e).

Definition join (a b : string) : string :=
  string_of_list_ascii (join_l (list_ascii_of_string a) (list_ascii_of_string b)).

End posixpath.

(* ===================================================================== *)
(** ** Python objects, exceptions and results *)
(* ===================================================================== *)

(** The objects [json.load] returns: scalars, lists and string-keyed
    dictionaries.  A dictionary is a finite map: the order of its keys
    is not part of the data.  Floats are left out: the script only
    subscripts the document and decodes two of its strings. *)
Inductive pyobj : Type :=
| PNone
| PBool (b : bool)
| PInt (z : Z)
| PStr (s : string)
| PList (l : list pyobj)
| PDict (m : gmap string pyobj).

Inductive exn : Type :=
| SystemExit (msg : string)       (* sys.exit(msg) *)
| IndexError
| KeyError (k : pyobj)
| TypeError
| AttributeError
| BinasciiError                   (* binascii.Error, from b64decode *)
| UnicodeDecodeError
| JSONDecodeError
| YAMLError
| FileNotFoundError
| PermissionError
| SameFileError
| OSError (errno : nat).

Inductive result (A : Type) : Type :=
| Ok (a : A)
| Raise (e : exn).
Arguments Ok {A} a.
Arguments Raise {A} e.

Definition error_of {A} (r : result A) : option exn :=
  match r with
  | Ok _ => None
  | Raise e => Some e
  end.

(** The exit status of the process: 0 when [main] returns, 1 when an
    exception (including [sys.exit] with a message) ends it. *)
Definition exit_code {A} (r : result A) : nat :=
  match r with
  | Ok _ => 0
  | Raise _ => 1
  end.

(** Truth value of an object ([not x] is its negation). *)
Definition truthy (o : pyobj) : bool :=
  match o with
  | PNone => false
  | PBool b => b
  | PInt z => negb (z =? 0)%Z
  | PStr s => negb (String.eqb s EmptyString)
  | PList l => match l with [] => false | _ => true end
  | PDict m => negb (Nat.eqb (size m) 0)
  end.

(** [o[k]] for a string key. *)
Definition getitem (o : pyobj) (k : string) : result pyobj :=
  match o with
  | PDict m =>
      match m !! k with
      | Some v => Ok v
      | None => Raise (KeyError (PStr k))
      end
  | _ => Raise TypeError
  end.

(** [o[0]]. *)
Definition getitem0 (o : pyobj) : result pyobj :=
  match o with
  | PList l =>
      match l with
      | x :: _ => Ok x
      | [] => Raise IndexError
      end
  | PStr s =>
      match s with
      | String c _ => Ok (PStr (String c EmptyString))
      | EmptyString => Raise IndexError
      end
  | PDict _ => Raise (KeyError (PInt 0))
  | _ => Raise TypeError
  end.

(** [o == s] for a [str] [s]: exact, character by character. *)
Definition eq_str (o : pyobj) (s : string) : bool :=
  match o with
  | PStr t => String.eqb t s
  | _ => false
  end.

(** The elements a [for] loop over [o] visits. *)
Definition iterate (o : pyobj) : result (list pyobj) :=
  match o with
  | PList l => Ok l
  | PDict m => Ok (PStr <$> (map_to_list m).*1)
  | PStr s => Ok ((fun c => PStr (String c EmptyString)) <$> list_ascii_of_string s)
  | _ => Raise TypeError
  end.

(* ===================================================================== *)
(** ** Objects with identity *)
(* ===================================================================== *)

(** The script changes the document that [yaml.load] returns in place,
    and a YAML document can name one mapping twice (an anchor and its
    aliases): the loader then builds one [dict] and refers to it from
    both places.  So the mappings and sequences of that document are
    objects of a heap, and a value ([val]) is a scalar or a reference to
    one of them.  Floats and the other objects PyYAML can construct are
    left out: the script only subscripts the document and compares two
    of its values with strings.  The document of [json.load] is only
    read, and JSON has no aliases: there a tree ([pyobj]) says
    everything. *)
Definition loc : Type := nat.

Inductive val : Type :=
| VNone
| VBool (b : bool)
| VInt (z : Z)
| VStr (s : string)
| VRef (l : loc).

Inductive object : Type :=
| ODict (m : gmap string val)
| OList (l : list val).

(** What [yaml.load] returns: the object it built, in the heap of the
    objects it built. *)
Record document : Type := Document {
  heap : gmap loc object;
  root : val }.

(** [v[k]] for a string key. *)
Definition subscript (h : gmap loc object) (v : val) (k : string) : result val :=
  match v with
  | VRef l =>
      match h !! l with
      | Some (ODict m) =>
          match m !! k with
          | Some x => Ok x
          | None => Raise (KeyError (PStr k))
          end
      | Some (OList _) => Raise TypeError   (* list indices must be integers *)
      | None => Raise TypeError             (* no object: not in a loaded document *)
      end
  | _ => Raise TypeError                    (* a scalar has no string keys *)
  end.

(** [v[k] = x]: the mapping that [v] refers to is changed where it is,
    for everything that refers to it. *)
Definition setitem (h : gmap loc object) (v : val) (k : string) (x : val)
    : result (gmap loc object) :=
  match v with
  | VRef l =>
      match h !! l with
      | Some (ODict m) => Ok (<[l := ODict (<[k := x]> m)]> h)
      | Some (OList _) => Raise TypeError
      | None => Raise TypeError
      end
  | _ => Raise TypeError
  end.

(** [v[k1][k2]...]: the field of [v] at a path of keys. *)
Fixpoint field_of (h : gmap loc object) (v : val) (path : list string) : result val :=
  match path with
  | [] => Ok v
  | k :: rest =>
      match subscript h v k with
      | Ok x => field_of h x rest
      | Raise e => Raise e
      end
  end.

Definition field (d : document) (path : list string) : result val :=
  field_of (heap d) (root d) path.

(** The objects that are subscripted on the way along a path. *)
Fixpoint visited (h : gmap loc object) (v : val) (path : list string) : list loc :=
  match path with
  | [] => []
  | k :: rest =>
      match v with
      | VRef l =>
          l :: match subscript h v k with
               | Ok x => visited h x rest
               | Raise _ => []
               end
      | _ => []
      end
  end.

(** [o != s] for a [str] [s]: exact, character by character; an object
    that is no [str] differs from every [str]. *)
Definition ne_str (o : val) (s : string) : bool :=
  match o with
  | VStr t => negb (String.eqb t s)
  | _ => true
  end.

(* ===================================================================== *)
(** ** The file system, the operating system and the process *)
(* ===================================================================== *)

(** A regular file: its content, permission bits and owner.  Paths are
    strings; two different strings name two different files (no links). *)
Record file : Type := File {
  content : string;
  mode : N;
  uid : N;
  gid : N }.

Definition with_content (f : file) (s : string) : file :=
  {| content := s; mode := mode f; uid := uid f; gid := gid f |}.
Definition with_mode (f : file) (m : N) : file :=
  {| content := content f; mode := m; uid := uid f; gid := gid f |}.
Definition with_owner (f : file) (u g : N) : file :=
  {| content := content f; mode := mode f; uid := u; gid := g |}.

(** 0o644 and 0o666. *)
Definition mode_0o644 : N := 6 * 64 + 4 * 8 + 4.
Definition mode_0o666 : N := 6 * 64 + 6 * 8 + 6.

(** The mode of a file that [open(p, 'w')] creates. *)
Definition creation_mode (um : N) : N := N.ldiff mode_0o666 um.

(** The system calls the script makes, directly or through [open],
    [shutil.copy2], [yaml.dump], [os.chmod] and [os.chown]. *)
Inductive syscall : Type :=
| SysRead (p : string)               (* open(p, 'r') and read to the end *)
| SysCreate (p : string)             (* open(p, 'w'): create or truncate *)
| SysWrite (p data : string)         (* write data and close *)
| SysCopystat (src dst : string)     (* shutil.copystat *)
| SysChmod (p : string) (m : N)
| SysChown (p : string) (u g : N).

(** One entry of the trace: the call, the error it raised if any, and the
    file system it left behind. *)
Record step : Type := Step {
  call : syscall;
  failure : option exn;
  after : gmap string file }.

(** What the operating system does to a call it refuses: the error, and
    for a write the number of characters that reached the disk before. *)
Record fault : Type := Fault {
  err : exn;
  written : nat }.

(** [faults n] decides the fate of the [n]-th system call of the process
    (permission denied, disk full, ...): the script has no say in it. *)
Record world : Type := World {
  files : gmap string file;
  faults : nat -> option fault;
  euid : N;
  egid : N;
  umask : N;
  hist : list step;
  log : list string }.

(** A process started on a file system. *)
Definition boot (fs : gmap string file) (fl : nat -> option fault)
    (u g um : N) : world :=
  {| files := fs; faults := fl; euid := u; egid := g; umask := um;
     hist := []; log := [] |}.

(** The file systems a run passes through, the initial one first. *)
Definition moments (fs : gmap string file) (w' : world) : list (gmap string file) :=
  fs :: (after <$> hist w').

Definition content_at (fs : gmap string file) (p : string) : option string :=
  content <$> fs !! p.

(* --------------------------------------------------------------------- *)
(** *** The monad of the script *)

Definition M (A : Type) : Type := world -> result A * world.

Definition ret {A} (a : A) : M A := fun w => (Ok a, w).

Definition raise {A} (e : exn) : M A := fun w => (Raise e, w).

Definition bind {A B} (m : M A) (k : A -> M B) : M B :=
  fun w =>
    match m w with
    | (Ok a, w') => k a w'
    | (Raise e, w') => (Raise e, w')
    end.

Definition lift {A} (r : result A) : M A := fun w => (r, w).

Declare Scope py_scope.
Delimit Scope py_scope with py.
Bind Scope py_scope with M.

Notation "x <- m ;; k" := (bind m (fun x => k))
  (at level 100, m at next level, k at level 200, right associativity) : py_scope.
Notation "m ;; k" := (bind m (fun _ => k))
  (at level 100, k at level 200, right associativity) : py_scope.
Notation "x <~ r ;; k" := (bind (lift r) (fun x => k))
  (at level 100, r at next level, k at level 200, right associativity) : py_scope.

Open Scope py_scope.

(** [logger.info(msg)]. *)
Definition info (msg : string) : M unit :=
  fun w =>
    (Ok tt,
     {| files := files w; faults := faults w; euid := euid w; egid := egid w;
        umask := umask w; hist := hist w; log := log w ++ [msg] |}).

(* --------------------------------------------------------------------- *)
(** *** System calls *)

Definition next_fault (w : world) : option fault :=
  faults w (length (hist w)).

Definition record_step (c : syscall) (e : option exn)
    (fs : gmap string file) (w : world) : world :=
  {| files := fs; faults := faults w; euid := euid w; egid := egid w;
     umask := umask w; hist := hist w ++ [Step c e fs]; log := log w |}.

Definition refused {A} (c : syscall) (e : exn) : M A :=
  fun w => (Raise e, record_step c (Some e) (files w) w).

Definition done_with {A} (c : syscall) (a : A) (fs : gmap string file) : M A :=
  fun w => (Ok a, record_step c None fs w).

Definition sys_read (p : string) : M string :=
  fun w =>
    match next_fault w with
    | Some f => refused (SysRead p) (err f) w
    | None =>
        match files w !! p with
        | None => refused (SysRead p) FileNotFoundError w
        | Some f => done_with (SysRead p) (content f) (files w) w
        end
    end.

(** [open(p, 'w')]: an existing file is truncated and keeps its mode and
    owner; a new one is created with the process's identity and umask. *)
Definition sys_create (p : string) : M unit :=
  fun w =>
    match next_fault w with
    | Some f => refused (SysCreate p) (err f) w
    | None =>
        let f' :=
          match files w !! p with
          | Some f => with_content f EmptyString
          | None => File EmptyString (creation_mode (umask w)) (euid w) (egid w)
          end in
        done_with (SysCreate p) tt (<[p := f']> (files w)) w
    end.

(** Writing [data] to the open, truncated file [p].  A refused write
    leaves the characters that were written before the error. *)
Definition sys_write (p data : string) : M unit :=
  fun w =>
    match files w !! p with
    | None => refused (SysWrite p data) FileNotFoundError w
    | Some g =>
        match next_fault w with
        | Some f =>
            (Raise (err f),
             record_step (SysWrite p data) (Some (err f))
               (<[p := with_content g (str_take (written f) data)]> (files w)) w)
        | None =>
            done_with (SysWrite p data) tt (<[p := with_content g data]> (files w)) w
        end
    end.

Definition sys_copystat (src dst : string) : M unit :=
  fun w =>
    match next_fault w with
    | Some f => refused (SysCopystat src dst) (err f) w
    | None =>
        match files w !! src, files w !! dst with
        | Some s, Some d =>
            done_with (SysCopystat src dst) tt (<[dst := with_mode d (mode s)]> (files w)) w
        | _, _ => refused (SysCopystat src dst) FileNotFoundError w
        end
    end.

Definition sys_chmod (p : string) (m : N) : M unit :=
  fun w =>
    match next_fault w with
    | Some f => refused (SysChmod p m) (err f) w
    | None =>
        match files w !! p with
        | None => refused (SysChmod p m) FileNotFoundError w
        | Some f => done_with (SysChmod p m) tt (<[p := with_mode f m]> (files w)) w
        end
    end.

Definition sys_chown (p : string) (u g : N) : M unit :=
  fun w =>
    match next_fault w with
    | Some f => refused (SysChown p u g) (err f) w
    | None =>
        match files w !! p with
        | None => refused (SysChown p u g) FileNotFoundError w
        | Some f => done_with (SysChown p u g) tt (<[p := with_owner f u g]> (files w)) w
        end
    end.

(** [shutil.copy2(src, dst)]: [copyfile] (refuse the same file, open the
    source, create or truncate the destination, copy the data), then
    [copystat]. *)
Definition copy2 (src dst : string) : M unit :=
  if String.eqb src dst then raise SameFileError
  else
    data <- sys_read src ;;
    sys_create dst ;;
    sys_write dst data ;;
    sys_copystat src dst.

(* ===================================================================== *)
(** ** The libraries the script calls *)
(* ===================================================================== *)

(** The parsers, the serializer and the decoders are collaborators of the
    script: [None] is the library's exception. [yaml_dumps] is PyYAML's
    dumper with the representer that [configure_yaml] registers. *)
Class Libraries : Type := {
  json_loads : string -> option pyobj;
  yaml_loads : string -> option document;
  yaml_dumps : document -> string;
  b64decode : string -> option string;
  utf8_decode : string -> option string }.

(* ===================================================================== *)
(** ** The script *)
(* ===================================================================== *)

Section script.
Context `{Libraries}.

(** [configure_yaml] registers the string representer with PyYAML; it
    touches neither the file system nor the log.  [yaml_dumps] is the
    dumper after this registration. *)
Definition configure_yaml : M unit := ret tt.

(** [with open(path, 'r') as f: json.load(f)]. *)
Definition json_load (path : string) : M pyobj :=
  text <- sys_read path ;;
  match json_loads text with
  | Some o => ret o
  | None => raise JSONDecodeError
  end.

(** [with open(path, 'r') as f: yaml.load(f, Loader=yaml.Loader)]. *)
Definition yaml_load (path : string) : M document :=
  text <- sys_read path ;;
  match yaml_loads text with
  | Some o => ret o
  | None => raise YAMLError
  end.

(** [with open(path, 'w') as f: yaml.dump(data, f)]: the file is opened,
    and thereby truncated, before the dumper runs. *)
Definition yaml_dump (data : document) (path : string) : M unit :=
  sys_create path ;;
  sys_write path (yaml_dumps data).

(** [base64.b64decode(o).decode('utf-8')]. *)
Definition b64decode_utf8 (o : pyobj) : result string :=
  match o with
  | PStr s =>
      match b64decode s with
      | Some bytes =>
          match utf8_decode bytes with
          | Some text => Ok text
          | None => Raise UnicodeDecodeError
          end
      | None => Raise BinasciiError
      end
  | _ => Raise TypeError
  end.

(** [next((d for d in certs if d['domain']['main'] == domain_name), None)]:
    the generator stops at the first match, and an exception raised
    while testing an earlier element escapes. *)
Fixpoint next_certificate (certs : list pyobj) (domain_name : string)
    : result (option pyobj) :=
  match certs with
  | [] => Ok None
  | d :: rest =>
      match getitem d "domain" with
      | Raise e => Raise e
      | Ok dom =>
          match getitem dom "main" with
          | Raise e => Raise e
          | Ok main =>
              if eq_str main domain_name then Ok (Some d)
              else next_certificate rest domain_name
          end
      end
  end.

(** [not domain_name or domain_name.isspace()]. *)
Definition blank (domain_name : string) : bool :=
  negb (truthy (PStr domain_name)) || isspace domain_name.

Definition read_traefik (traefik_path domain_name : string) : M (string * string) :=
  info ("Reading Traefik configuration: " +:+ traefik_path) ;;
  acme_config <- json_load traefik_path ;;
  certificate_obj <-
    (if blank domain_name then
       letsencrypt <~ getitem acme_config "letsencrypt" ;;
       certificates <~ getitem letsencrypt "Certificates" ;;
       certificate_obj <~ getitem0 certificates ;;
       letsencrypt <~ getitem acme_config "letsencrypt" ;;
       certificates <~ getitem letsencrypt "Certificates" ;;
       first <~ getitem0 certificates ;;
       if negb (truthy first)
       then raise (SystemExit "Could not find any certificate in acme.json")
       else ret certificate_obj
     else
       letsencrypt <~ getitem acme_config "letsencrypt" ;;
       certificates <~ getitem letsencrypt "Certificates" ;;
       elements <~ iterate certificates ;;
       found <~ next_certificate elements domain_name ;;
       match found with
       | Some certificate_obj =>
           if negb (truthy certificate_obj)
           then raise (SystemExit ("Could not find any certificate for domain " +:+ domain_name))
           else ret certificate_obj
       | None =>
           raise (SystemExit ("Could not find any certificate for domain " +:+ domain_name))
       end) ;;
  encoded_cert <~ getitem certificate_obj "certificate" ;;
  cert <~ b64decode_utf8 encoded_cert ;;
  encoded_key <~ getitem certificate_obj "key" ;;
  private_key <~ b64decode_utf8 encoded_key ;;
  ret (cert, private_key).

(** [get_first_lines(s, n)]: ['\n'.join(s.split('\n')[1:n + 1])]; a
    value that is not a [str] has no [split]. *)
Definition get_first_lines (s : val) (n : nat) : result string :=
  match s with
  | VStr s => Ok (str_join (String LF EmptyString) (take n (drop 1 (str_split LF s))))
  | _ => Raise AttributeError
  end.

(** [has_changed] returns [True], or falls off its end and returns
    [None]. *)
Definition has_changed (old : val) (new item : string) : M pyobj :=
  info ("Checking " +:+ item) ;;
  if ne_str old new then
    info (item +:+ " has changed") ;;
    old_lines <~ get_first_lines old 1 ;;
    info ("Old: " +:+ old_lines +:+ "...") ;;
    new_lines <~ get_first_lines (VStr new) 1 ;;
    info ("New: " +:+ new_lines +:+ "...") ;;
    ret (PBool true)
  else
    info (item +:+ " has not changed") ;;
    ret PNone.

(** [config['tls'][field] = x]: the subscript yields the mapping the
    document has under [tls], and the assignment changes that mapping
    where it is.  The result is the heap after the assignment. *)
Definition set_tls (objects : gmap loc object) (config : val)
    (field : string) (x : val) : result (gmap loc object) :=
  match subscript objects config "tls" with
  | Ok tls => setitem objects tls field x
  | Raise e => Raise e
  end.

Definition fix_permissions (adguardhome_path : string) : M unit :=
  info "Fixing AdGuardHome permissions" ;;
  sys_chmod adguardhome_path mode_0o644 ;;
  sys_chown adguardhome_path 0 0.

Definition backup_path (adguardhome_path : string) : string :=
  let '(dirname, filename) := posixpath.split adguardhome_path in
  let '(name, ext) := posixpath.splitext filename in
  posixpath.join dirname (name +:+ "-backup" +:+ ext).

Definition create_backup (adguardhome_path : string) : M unit :=
  info ("Backing up AdGuardHome configuration: " +:+ adguardhome_path) ;;
  copy2 adguardhome_path (backup_path adguardhome_path) ;;
  info ("AdGuardHome configuration backed up to : " +:+ backup_path adguardhome_path).

(** [adguardhome_config] is the object the loader returned and
    [objects] the heap it lives in, which the two assignments change. *)
Definition write_adguardhome (adguardhome_path cert key : string) : M unit :=
  info ("Reading AdGuardHome configuration: " +:+ adguardhome_path) ;;
  loaded <- yaml_load adguardhome_path ;;
  let adguardhome_config := root loaded in
  let objects := heap loaded in
  tls <~ subscript objects adguardhome_config "tls" ;;
  old_cert <~ subscript objects tls "certificate_chain" ;;
  tls <~ subscript objects adguardhome_config "tls" ;;
  old_key <~ subscript objects tls "private_key" ;;
  let is_dirty := false in
  cert_changed <- has_changed old_cert cert "Certificate chain" ;;
  state <-
    (if truthy cert_changed then
       objects <~ set_tls objects adguardhome_config "certificate_chain" (VStr cert) ;;
       ret (objects, true)
     else ret (objects, is_dirty)) ;;
  let objects := fst state in
  let is_dirty := snd state in
  key_changed <- has_changed old_key key "Private key" ;;
  state <-
    (if truthy key_changed then
       objects <~ set_tls objects adguardhome_config "private_key" (VStr key) ;;
       ret (objects, true)
     else ret (objects, is_dirty)) ;;
  let objects := fst state in
  let is_dirty := snd state in
  if is_dirty then
    info "Changes detected" ;;
    create_backup adguardhome_path ;;
    info ("Writing AdGuardHome configuration: " +:+ adguardhome_path) ;;
    yaml_dump (Document objects adguardhome_config) adguardhome_path ;;
    fix_permissions adguardhome_path
  else
    info "No changes detected".

Definition run (traefik_path adguardhome_path domain_name : string) : M unit :=
  info "Initializing..." ;;
  configure_yaml ;;
  credential <- read_traefik traefik_path domain_name ;;
  write_adguardhome adguardhome_path (fst credential) (snd credential) ;;
  info "Done".

End script.

(* ===================================================================== *)
(** ** The data model of the certificate store *)
(* ===================================================================== *)

(** One certificate record of [acme.json]: the main domain, and the
    certificate and the key in base64. *)
Record CertificateRecord : Type := {
  domain : string;
  certificate : string;
  key : string }.

(** The record a parsed element of [Certificates] stands for. *)
Definition record_view (d : pyobj) : option CertificateRecord :=
  match d with
  | PDict m =>
      match m !! "domain", m !! "certificate", m !! "key" with
      | Some (PDict dm), Some (PStr c), Some (PStr k) =>
          match dm !! "main" with
          | Some (PStr n) => Some {| domain := n; certificate := c; key := k |}
          | _ => None
          end
      | _, _, _ => None
      end
  | _ => None
  end.

(** The store a parsed [acme.json] stands for: the records of
    [letsencrypt.Certificates], in stored order. *)
Definition store_view (acme_config : pyobj) : option (list CertificateRecord) :=
  match acme_config with
  | PDict top =>
      match top !! "letsencrypt" with
      | Some (PDict le) =>
          match le !! "Certificates" with
          | Some (PList ds) => mapM record_view ds
          | _ => None
          end
      | _ => None
      end
  | _ => None
  end.

(** [sys.exit] with one of the two messages of [read_traefik] is the
    diagnosed failure to find a certificate. *)
Definition NotFoundError (e : exn) : bool :=
  match e with
  | SystemExit _ => true
  | _ => false
  end.

Section vocabulary.
Context `{Libraries}.

(** The decoded credential of a record: the certificate is decoded
    first, then the key. *)
Definition credential_of (r : CertificateRecord) : result (string * string) :=
  match b64decode_utf8 (PStr (certificate r)) with
  | Ok cert =>
      match b64decode_utf8 (PStr (key r)) with
      | Ok private_key => Ok (cert, private_key)
      | Raise e => Raise e
      end
  | Raise e => Raise e
  end.

(** The tail of [write_adguardhome] once [is_dirty] holds. *)
Definition commit (adguardhome_path : string) (adguardhome_config : document) : M unit :=
  create_backup adguardhome_path ;;
  info ("Writing AdGuardHome configuration: " +:+ adguardhome_path) ;;
  yaml_dump adguardhome_config adguardhome_path ;;
  fix_permissions adguardhome_path.

End vocabulary.

(** [tls[field] = value] when the change detector said so. *)
Definition assign (changed : bool) (field value : string)
    (tls : gmap string val) : gmap string val :=
  if changed then <[field := VStr value]> tls else tls.

(** The world after some more system calls and log lines. *)
Definition advance (w : world) (steps : list step) (fs : gmap string file)
    (lines : list string) : world :=
  {| files := fs; faults := faults w; euid := euid w; egid := egid w;
     umask := umask w; hist := hist w ++ steps; log := log w ++ lines |}.

(** The claim C8, as stated, on one run: at every moment the target
    holds the whole old document or the whole new one. *)
Definition whole_old_or_new (fs : gmap string file) (w' : world)
    (path old new : string) : Prop :=
  forall s, s ∈ moments fs w' ->
    content_at s path = Some old \/ content_at s path = Some new.

(** The claim C7, as stated, on the document loaded and the document
    written: every field other than the two of the [tls] section has the
    value it had. *)
Definition other_fields_preserved (loaded written : document) : Prop :=
  forall path,
    path <> ["tls"; "certificate_chain"] ->
    path <> ["tls"; "private_key"] ->
    field written path = field loaded path.


(* ===================================================================== *)
(** ** A concrete installation, for the examples *)
(* ===================================================================== *)

Module fixture.

(** Base64 as in RFC 4648, with padding. *)
Definition b64_value (c : ascii) : option N :=
  let n := N_of_ascii c in
  if ((65 <=? n) && (n <=? 90))%N then Some (n - 65)%N
  else if ((97 <=? n) && (n <=? 122))%N then Some (n - 71)%N
  else if ((48 <=? n) && (n <=? 57))%N then Some (n + 4)%N
  else if (n =? 43)%N then Some 62%N
  else if (n =? 47)%N then Some 63%N
  else None.

Definition is_pad (c : ascii) : bool := Ascii.eqb c "="%char.

Definition byte (n : N) : ascii := ascii_of_N (n mod 256).

Fixpoint b64_quads (l : list ascii) : option (list ascii) :=
  match l with
  | [] => Some []
  | a :: b :: c :: d :: rest =>
      match b64_value a, b64_value b with
      | Some x, Some y =>
          if is_pad c then
            if is_pad d && bool_decide (rest = []) then Some [byte (x * 4 + y / 16)]
            else None
          else
            match b64_value c with
            | Some z =>
                if is_pad d then
                  if bool_decide (rest = [])
                  then Some [byte (x * 4 + y / 16); byte (y * 16 + z / 4)]
                  else None
                else
                  match b64_value d, b64_quads rest with
                  | Some t, Some more =>
                      Some (byte (x * 4 + y / 16) :: byte (y * 16 + z / 4)
                              :: byte (z * 64 + t) :: more)
                  | _, _ => None
                  end
            | None => None
            end
      | _, _ => None
      end
  | _ => None
  end.

Definition b64 (s : string) : option string :=
  string_of_list_ascii <$> b64_quads (list_ascii_of_string s).

(** Only seven-bit text. *)
Definition utf8 (s : string) : option string :=
  if all_chars (fun c => (N_of_ascii c <? 128)%N) s then Some s else None.

(** A dumper in flow style. *)
(** A serializer in flow style, for the examples: a mapping that the
    document refers to twice is written out at both places; [fuel]
    bounds the depth. *)
Fixpoint dumps_value (fuel : nat) (h : gmap loc object) (v : val) : string :=
  match v with
  | VNone => "null"
  | VBool b => if b then "true" else "false"
  | VInt z => pretty z
  | VStr s => "'" +:+ s +:+ "'"
  | VRef l =>
      match fuel with
      | 0 => "..."
      | S n =>
          match h !! l with
          | Some (ODict m) =>
              "{" +:+ str_join ", "
                        ((fun kv => kv.1 +:+ ": " +:+ dumps_value n h kv.2)
                           <$> map_to_list m)
                  +:+ "}"
          | Some (OList xs) => "[" +:+ str_join ", " (dumps_value n h <$> xs) +:+ "]"
          | None => "null"
          end
      end
  end.

Definition dumps (d : document) : string :=
  dumps_value (size (heap d)) (heap d) (root d).

Definition a_record : CertificateRecord :=
  {| domain := "a.example"; certificate := "Q0VSVEE="; key := "S0VZQQ==" |}.

Definition b_record : CertificateRecord :=
  {| domain := "b.example"; certificate := "Q0VSVEI="; key := "S0VZQg==" |}.

(** A record as Traefik stores it. *)
Definition stored (r : CertificateRecord) : pyobj :=
  PDict {[ "domain" := PDict {[ "main" := PStr (domain r) ]};
           "certificate" := PStr (certificate r);
           "key" := PStr (key r);
           "Store" := PStr "default" ]}.

Definition acme (records : list CertificateRecord) : pyobj :=
  PDict {[ "letsencrypt" :=
             PDict {[ "Account" := PDict {[ "Email" := PStr "ops@a.example" ]};
                      "Certificates" := PList (stored <$> records) ]} ]}.

Definition adguardhome_tls (cert private_key : string) : gmap string val :=
  {[ "enabled" := VBool true;
     "certificate_chain" := VStr cert;
     "private_key" := VStr private_key ]}.

Definition adguardhome_top : gmap string val :=
  {[ "bind_port" := VInt 3000; "dns" := VRef 1; "tls" := VRef 3 ]}.

(** [AdGuardHome.yaml]: the top mapping is object 0 and its [tls]
    section object 3. *)
Definition adguardhome_objects (cert private_key : string) : gmap loc object :=
  {[ 0 := ODict adguardhome_top;
     1 := ODict {[ "upstream_dns" := VRef 2 ]};
     2 := OList [VStr "9.9.9.9"];
     3 := ODict (adguardhome_tls cert private_key) ]}.

Definition adguardhome (cert private_key : string) : document :=
  {| heap := adguardhome_objects cert private_key; root := VRef 0 |}.

(** The same with [mirror: *tls] beside [tls: &tls ...]: the loader
    builds one mapping, object 3, for both keys. *)
Definition mirrored_top : gmap string val :=
  {[ "bind_port" := VInt 3000; "mirror" := VRef 3; "tls" := VRef 3 ]}.

Definition mirrored (cert private_key : string) : document :=
  {| heap := {[ 0 := ODict mirrored_top;
                3 := ODict (adguardhome_tls cert private_key) ]};
     root := VRef 0 |}.

(** The parsers know the documents of the examples by their text. *)
Fixpoint documents {A} (table : list (string * A)) (text : string) : option A :=
  match table with
  | [] => None
  | (t, o) :: rest => if String.eqb t text then Some o else documents rest text
  end.

Definition acme_one : string := "acme.json with a.example".
Definition acme_two : string := "acme.json with a.example and b.example".
Definition acme_none : string := "acme.json without certificates".

Definition old_yaml : string := dumps (adguardhome "OLD" "OLDKEY").
Definition new_yaml : string := dumps (adguardhome "CERTA" "KEYA").
Definition old_mirrored_yaml : string := dumps (mirrored "OLD" "OLDKEY").

#[export] Instance libraries : Libraries := {|
  json_loads :=
    documents [(acme_one, acme [a_record]);
               (acme_two, acme [a_record; b_record]);
               (acme_none, acme [])];
  yaml_loads :=
    documents [(old_yaml, adguardhome "OLD" "OLDKEY");
               (new_yaml, adguardhome "CERTA" "KEYA");
               (old_mirrored_yaml, mirrored "OLD" "OLDKEY")];
  yaml_dumps := dumps;
  b64decode := b64;
  utf8_decode := utf8 |}.

Definition tp : string := "/acme.json".
Definition ap : string := "/AdGuardHome.yaml".

Definition source_file (text : string) : file :=
  {| content := text; mode := 6 * 64; uid := 0; gid := 0 |}.

Definition target_file (text : string) : file :=
  {| content := text; mode := 6 * 64; uid := 1000; gid := 1000 |}.

Definition disk (source target : string) : gmap string file :=
  {[ tp := source_file source; ap := target_file target ]}.

Definition no_faults : nat -> option fault := fun _ => None.

(** The operating system refuses the [n]-th system call, after [k]
    characters if it is a write. *)
Definition refuse (n : nat) (e : exn) (k : nat) : nat -> option fault :=
  fun i => if Nat.eqb i n then Some (Fault e k) else None.

(** The script run as root with umask 022. *)
Definition scenario (source target domain_name : string)
    (fl : nat -> option fault) : result unit * world :=
  run tp ap domain_name (boot (disk source target) fl 0 0 18).

Definition step_at (w : world) (i : nat) : step :=
  default (Step (SysRead EmptyString) None ∅) (hist w !! i).

Definition moment_at (fs : gmap string file) (w : world) (i : nat) : gmap string file :=
  default ∅ (moments fs w !! i).

End fixture.


(* ===================================================================== *)
(** ** The string representer of [configure_yaml] *)
(* ===================================================================== *)

(** No character of [s] satisfies [p]. *)
Definition no_char (p : ascii -> bool) (s : string) : bool :=
  all_chars (fun c => negb (p c)) s.

(** The characters [str.splitlines] breaks lines at, among the code
    points below 256: LF, CR, VT, FF, FS, GS, RS and NEL. *)
Definition is_linebreak (c : ascii) : bool :=
  let n := N_of_ascii c in
  ((n =? 10) || (n =? 13) || (n =? 11) || (n =? 12)
   || (n =? 28) || (n =? 29) || (n =? 30) || (n =? 133))%N.

Definition CR : ascii := ascii_of_nat 13.

(** [s.splitlines()], with the line read so far: CR LF is one break, and
    a break at the very end opens no further line. *)
Fixpoint splitlines_from (line : string) (s : string) : list string :=
  match s with
  | EmptyString =>
      match line with
      | EmptyString => []
      | _ => [line]
      end
  | String c r =>
      if is_linebreak c then
        match r with
        | String c' r' =>
            if Ascii.eqb c CR && Ascii.eqb c' LF
            then line :: splitlines_from EmptyString r'
            else line :: splitlines_from EmptyString r
        | EmptyString => line :: splitlines_from EmptyString r
        end
      else splitlines_from (line +:+ String c EmptyString) r
  end.

Definition splitlines (s : string) : list string :=
  splitlines_from EmptyString s.

(** The node [dumper.represent_scalar(tag, value, style)] builds. *)
Record ScalarNode : Type := {
  tag : string;
  value : string;
  style : option string }.

(** [str_presenter(dumper, data)], the representer that [configure_yaml]
    registers for [str]: literal style for a string of several lines. *)
Definition str_presenter (data : string) : ScalarNode :=
  if 1 <? length (splitlines data) then
    {| tag := "tag:yaml.org,2002:str"; value := data; style := Some "|" |}
  else
    {| tag := "tag:yaml.org,2002:str"; value := data; style := None |}.

(* ===================================================================== *)
(** ** What a computation does to the trace and to the files *)
(* ===================================================================== *)

Definition is_str (o : val) : bool :=
  match o with
  | VStr _ => true
  | _ => false
  end.

(** [m] stops at the first system call that fails: a failed call is the
    last call [m] makes, and its error is what [m] raises. *)
Definition stops_at_failure {A} (m : M A) : Prop :=
  forall w, exists T,
    hist (snd (m w)) = hist w ++ T
    /\ forall i st e,
         T !! i = Some st -> failure st = Some e ->
         fst (m w) = Raise e /\ S i = length T.

(** [m] changes no file but those whose path satisfies [P]: at every step
    and at the end, every other path holds what it held before. *)
Definition touches_only {A} (P : string -> Prop) (m : M A) : Prop :=
  forall w p, ~ P p ->
    exists T,
      hist (snd (m w)) = hist w ++ T
      /\ files (snd (m w)) !! p = files w !! p
      /\ forall st, st ∈ T -> after st !! p = files w !! p.

(** [m] logs lines, none of which is [s]. *)
Definition never_logs {A} (s : string) (m : M A) : Prop :=
  forall w, exists L, log (snd (m w)) = log w ++ L /\ s ∉ L.

(* ===================================================================== *)
(** ** Damaged documents, for the examples *)
(* ===================================================================== *)

Module damaged.

Definition acme_of (certificates : pyobj) : pyobj :=
  PDict {[ "letsencrypt" := PDict {[ "Certificates" := certificates ]} ]}.

(** A record without its [domain]. *)
Definition nameless : pyobj :=
  PDict {[ "certificate" := PStr "Q0VSVEE="; "key" := PStr "S0VZQQ==" ]}.

Definition acme_null : string := "acme.json with Certificates: null".
Definition acme_hollow : string := "acme.json with an empty first record".
Definition acme_nameless : string := "acme.json with a record without domain".

Definition yaml_no_tls : string := "AdGuardHome.yaml without tls".
Definition yaml_null_chain : string := "AdGuardHome.yaml with certificate_chain: null".

Definition no_tls : document :=
  {| heap := {[ 0 := ODict {[ "bind_port" := VInt 3000 ]} ]}; root := VRef 0 |}.

Definition null_chain_tls : gmap string val :=
  {[ "certificate_chain" := VNone; "private_key" := VStr "OLDKEY" ]}.

Definition null_chain : document :=
  {| heap := {[ 0 := ODict {[ "tls" := VRef 1 ]}; 1 := ODict null_chain_tls ]};
     root := VRef 0 |}.

#[export] Instance libraries : Libraries := {|
  json_loads :=
    fixture.documents
      [(fixture.acme_one, fixture.acme [fixture.a_record]);
       (fixture.acme_two, fixture.acme [fixture.a_record; fixture.b_record]);
       (acme_null, acme_of PNone);
       (acme_hollow, acme_of (PList [PDict ∅; fixture.stored fixture.a_record]));
       (acme_nameless,
        acme_of (PList [fixture.stored fixture.a_record; nameless;
                        fixture.stored fixture.b_record]))];
  yaml_loads :=
    fixture.documents
      [(fixture.old_yaml, fixture.adguardhome "OLD" "OLDKEY");
       (fixture.new_yaml, fixture.adguardhome "CERTA" "KEYA");
       (yaml_no_tls, no_tls);
       (yaml_null_chain, null_chain)];
  yaml_dumps := fixture.dumps;
  b64decode := fixture.b64;
  utf8_decode := fixture.utf8 |}.

End damaged.

(* ===================================================================== *)
(** ** Paths: the backup is never the target *)
(* ===================================================================== *)

Section paths.
Import posixpath.

Lemma rfind_lower c l : (-1 <= rfind c l)%Z.
Proof.
  induction l as [|x r IH]; simpl; [lia|].
  destruct (0 <=? rfind c r)%Z eqn:E; [lia|].
  destruct (Ascii.eqb x c); lia.
Qed.

Lemma rfind_absent c l : rfind c l = (-1)%Z -> Forall (fun x => x <> c) l.
Proof.
  induction l as [|x r IH]; simpl; intros E; [constructor|].
  destruct (0 <=? rfind c r)%Z eqn:E1.
  - apply Z.leb_le in E1. lia.
  - apply Z.leb_gt in E1. pose proof (rfind_lower c r).
    destruct (Ascii.eqb x c) eqn:E2; [discriminate|].
    apply Ascii.eqb_neq in E2. constructor; [done|]. apply IH. lia.
Qed.

Lemma rfind_of_absent c l : Forall (fun x => x <> c) l -> rfind c l = (-1)%Z.
Proof.
  induction 1 as [|x r Hx Hr IH]; simpl; [done|].
  rewrite IH. simpl. apply Ascii.eqb_neq in Hx. by rewrite Hx.
Qed.

(** What follows the last separator contains no separator. *)
Lemma tail_no_sep c l :
  Forall (fun x => x <> c) (drop (Z.to_nat (rfind c l + 1)) l).
Proof.
  induction l as [|x r IH]; simpl; [constructor|].
  destruct (0 <=? rfind c r)%Z eqn:E1.
  - apply Z.leb_le in E1.
    replace (Z.to_nat (rfind c r + 1 + 1)) with (S (Z.to_nat (rfind c r + 1))) by lia.
    done.
  - apply Z.leb_gt in E1. pose proof (rfind_lower c r).
    assert (rfind c r = (-1)%Z) as E by lia.
    destruct (Ascii.eqb x c) eqn:E2; simpl.
    + by apply rfind_absent.
    + apply Ascii.eqb_neq in E2. constructor; [done|]. by apply rfind_absent.
Qed.

(** A prefix that is empty or ends with the separator, followed by a
    component without separator: the last separator closes the prefix. *)
Lemma rfind_after_prefix c a t :
  Forall (fun x => x <> c) t ->
  a = [] \/ last a = Some c ->
  (rfind c (a ++ t) + 1)%Z = Z.of_nat (length a).
Proof.
  intros Ht. induction a as [|x r IH]; intros Ha; simpl.
  - by rewrite rfind_of_absent.
  - destruct Ha as [Ha|Ha]; [discriminate|].
    destruct r as [|y r'].
    + simpl in *. injection Ha as ->. rewrite rfind_of_absent by done. simpl.
      by rewrite Ascii.eqb_refl.
    + assert (last (y :: r') = Some c) as Hl by (by rewrite last_cons_cons in Ha).
      specialize (IH (or_intror Hl)).
      assert (0 <= rfind c ((y :: r') ++ t))%Z as Hpos by (simpl length in IH; lia).
      apply Z.leb_le in Hpos. rewrite Hpos. simpl length in *. lia.
Qed.

Lemma split_l_tail p : (split_l p).2 = drop (Z.to_nat (rfind SEP p + 1)) p.
Proof. done. Qed.

Lemma split_l_of_app a t :
  Forall (fun x => x <> SEP) t ->
  a = [] \/ last a = Some SEP ->
  (split_l (a ++ t)).2 = t.
Proof.
  intros Ht Ha. rewrite split_l_tail, (rfind_after_prefix _ _ _ Ht Ha).
  rewrite Nat2Z.id. by rewrite drop_app_length.
Qed.

Lemma splitext_l_app t : (splitext_l t).1 ++ (splitext_l t).2 = t.
Proof.
  unfold splitext_l. repeat case_match; simpl;
    auto using take_drop, app_nil_r.
Qed.

(** [join] puts the second argument after a prefix that is empty or
    ends with the separator. *)
Lemma join_l_shape a b :
  Forall (fun x => x <> SEP) b ->
  exists pre, join_l a b = pre ++ b /\ (pre = [] \/ last pre = Some SEP).
Proof.
  intros Hb.
  assert (exists pre,
    match last a with
    | None => a ++ b
    | Some z => if Ascii.eqb z SEP then a ++ b else a ++ SEP :: b
    end = pre ++ b /\ (pre = [] \/ last pre = Some SEP)) as Hgen.
  { destruct (last a) as [z|] eqn:El.
    - destruct (Ascii.eqb z SEP) eqn:Ez.
      + apply Ascii.eqb_eq in Ez as ->. exists a. auto.
      + exists (a ++ [SEP]). split; [by rewrite <- app_assoc|].
        right. by rewrite last_snoc.
    - apply last_None in El as ->. exists []. auto. }
  unfold join_l. destruct b as [|c b']; [done|].
  apply Forall_cons in Hb as [Hc _]. apply Ascii.eqb_neq in Hc. by rewrite Hc.
Qed.

Lemma list_ascii_of_append s1 s2 :
  list_ascii_of_string (s1 +:+ s2) = list_ascii_of_string s1 ++ list_ascii_of_string s2.
Proof. induction s1 as [|c s IH]; simpl; [done|]. by rewrite IH. Qed.

(** The backup path differs from the path it is computed from. *)
Lemma backup_path_neq p : backup_path p <> p.
Proof.
  unfold backup_path, split, splitext, join.
  set (l := list_ascii_of_string p).
  destruct (split_l l) as [h t] eqn:Es.
  rewrite !list_ascii_of_string_of_list_ascii.
  destruct (splitext_l t) as [n e] eqn:Ex.
  rewrite !list_ascii_of_append, !list_ascii_of_string_of_list_ascii.
  intros Heq. apply (f_equal list_ascii_of_string) in Heq.
  rewrite list_ascii_of_string_of_list_ascii in Heq. fold l in Heq.
  assert (t = drop (Z.to_nat (rfind SEP l + 1)) l) as Ht.
  { by rewrite <- split_l_tail, Es. }
  assert (Forall (fun x => x <> SEP) t) as Hns by (rewrite Ht; apply tail_no_sep).
  assert (n ++ e = t) as Hne.
  { pose proof (splitext_l_app t) as Ha. by rewrite Ex in Ha. }
  set (b := n ++ list_ascii_of_string "-backup" ++ e) in *.
  assert (Forall (fun x => x <> SEP) b) as Hb.
  { rewrite <- Hne in Hns. apply Forall_app in Hns as [Hn He].
    unfold b. apply Forall_app; split; [done|]. apply Forall_app; split; [|done].
    simpl. repeat constructor; by intros [=]. }
  destruct (join_l_shape h b Hb) as (pre & Hj & Hpre).
  assert ((split_l l).2 = b) as Hb2.
  { rewrite <- Heq, Hj. by apply split_l_of_app. }
  rewrite Es in Hb2. simpl in Hb2.
  apply (f_equal length) in Hb2. unfold b in Hb2. rewrite <- Hne in Hb2.
  rewrite !length_app in Hb2. simpl in Hb2. lia.
Qed.

End paths.

(* ===================================================================== *)
(** ** Running the script symbolically *)
(* ===================================================================== *)

(** Unfolds the monad and the system calls, and reduces the projections
    of worlds that are known. *)
Ltac msimpl :=
  cbv beta iota delta
    [bind ret raise lift info refused done_with json_load yaml_load yaml_dump
     sys_read sys_create sys_write sys_copystat sys_chmod sys_chown copy2
     create_backup fix_permissions configure_yaml next_fault record_step
     advance boot];
  cbn [files faults euid egid umask hist log fst snd length app].

Lemma eqb_backup_path p : String.eqb p (backup_path p) = false.
Proof. apply String.eqb_neq, not_eq_sym, backup_path_neq. Qed.

Ltac backup_neq :=
  solve [ done | apply backup_path_neq | apply not_eq_sym, backup_path_neq ].

Ltac lookups :=
  repeat first [ rewrite lookup_insert_eq | rewrite lookup_insert_ne by backup_neq ].

(** One step: the innermost test the execution is stuck on is replaced by
    its value when a hypothesis gives it, and split in its cases
    otherwise. *)
Ltac exec_step :=
  msimpl; lookups; rewrite ?eqb_backup_path;
  match goal with
  | |- context [match ?x with _ => _ end] =>
      lazymatch x with
      | context [match _ with _ => _ end] => fail
      | _ =>
          first
            [ match goal with H : x = _ |- _ => rewrite H end
            | lazymatch x with
              | ?f (length _) => destruct x
              | _ => destruct x eqn:?
              end ]
      end
  end.


(* ===================================================================== *)
(** ** The change detector *)
(* ===================================================================== *)

Lemma ne_str_spec old new : ne_str (VStr old) new = true <-> old <> new.
Proof.
  unfold ne_str. rewrite negb_true_iff. apply String.eqb_neq.
Qed.

Lemma length_append (a b : string) :
  String.length (a +:+ b) = String.length a + String.length b.
Proof. induction a as [|c a IH]; simpl; [done|]. by rewrite IH. Qed.

Lemma append_newline_neq s : s <> s +:+ String LF EmptyString.
Proof.
  intros E. apply (f_equal String.length) in E.
  rewrite length_append in E. simpl in E. lia.
Qed.

(** C5.  On two strings [has_changed] returns [True] exactly when they
    differ as strings, and [None], which is false, exactly when they are
    equal; nothing is normalized, so one trailing newline more or less is
    a change.  It touches neither the files nor the trace. *)
Theorem has_changed_exact (old new item : string) (w : world) :
  (fst (has_changed (VStr old) new item w) = Ok (PBool true) <-> old <> new)
  /\ (fst (has_changed (VStr old) new item w) = Ok PNone <-> old = new)
  /\ (exists v, fst (has_changed (VStr old) new item w) = Ok v
                /\ (truthy v = true <-> old <> new))
  /\ fst (has_changed (VStr old) (old +:+ String LF EmptyString) item w) = Ok (PBool true)
  /\ fst (has_changed (VStr (old +:+ String LF EmptyString)) old item w) = Ok (PBool true)
  /\ files (snd (has_changed (VStr old) new item w)) = files w
  /\ hist (snd (has_changed (VStr old) new item w)) = hist w.
Proof.
  assert (forall a b, fst (has_changed (VStr a) b item w)
                      = if ne_str (VStr a) b then Ok (PBool true) else Ok PNone) as Hv.
  { intros a b. unfold has_changed, get_first_lines. msimpl.
    destruct (ne_str (VStr a) b); reflexivity. }
  pose proof (ne_str_spec old new) as Hne.
  repeat split.
  - rewrite Hv. destruct (ne_str (VStr old) new); [tauto|]. intros [=].
  - rewrite Hv. intros Hd. apply Hne in Hd. by rewrite Hd.
  - rewrite Hv. destruct (ne_str (VStr old) new) eqn:E; [intros [=]|].
    intros _. destruct (decide (old = new)) as [|Hd]; [done|].
    apply Hne in Hd. congruence.
  - intros ->. rewrite Hv. destruct (ne_str (VStr new) new) eqn:E; [|done].
    apply ne_str_spec in E. done.
  - rewrite Hv. destruct (ne_str (VStr old) new) eqn:E.
    + exists (PBool true). simpl. tauto.
    + exists PNone. simpl. split; [done|]. split; [intros [=]|].
      intros Hd. apply Hne in Hd. congruence.
  - rewrite Hv. pose proof (append_newline_neq old) as Hd.
    apply ne_str_spec in Hd. by rewrite Hd.
  - rewrite Hv.
    assert (old +:+ String LF EmptyString <> old) as Hd
      by (intros E; by apply (append_newline_neq old)).
    apply ne_str_spec in Hd. by rewrite Hd.
  - unfold has_changed, get_first_lines. msimpl.
    destruct (ne_str (VStr old) new); reflexivity.
  - unfold has_changed, get_first_lines. msimpl.
    destruct (ne_str (VStr old) new); reflexivity.
Qed.

(* ===================================================================== *)
(** ** The certificate extractor *)
(* ===================================================================== *)

Section extractor.
Context `{Libraries}.

Lemma record_view_fields d r :
  record_view d = Some r ->
  exists dm,
    getitem d "domain" = Ok (PDict dm)
    /\ getitem (PDict dm) "main" = Ok (PStr (domain r))
    /\ getitem d "certificate" = Ok (PStr (certificate r))
    /\ getitem d "key" = Ok (PStr (key r))
    /\ truthy d = true.
Proof.
  unfold record_view. intros Hv. repeat case_match; simplify_eq.
  match goal with
  | Hd : ?m !! "domain" = Some (PDict ?dm), Hm : ?dm !! "main" = _,
    Hc : ?m !! "certificate" = _, Hk : ?m !! "key" = _ |- _ =>
      exists dm; simpl; rewrite Hd, Hm, Hc, Hk; repeat (split; [done|]);
      apply negb_true_iff, Nat.eqb_neq; intros Hs;
      apply map_size_empty_iff in Hs; rewrite Hs in Hd; by rewrite lookup_empty in Hd
  end.
Qed.

Lemma store_view_fields acme rs :
  store_view acme = Some rs ->
  exists le ds,
    getitem acme "letsencrypt" = Ok le
    /\ getitem le "Certificates" = Ok (PList ds)
    /\ Forall2 (fun d r => record_view d = Some r) ds rs.
Proof.
  unfold store_view. intros Hv. repeat case_match; simplify_eq.
  apply mapM_Some in Hv.
  match goal with
  | Hl : ?top !! "letsencrypt" = Some (PDict ?le), Hc : ?le !! "Certificates" = Some (PList ?ds)
    |- _ => exists (PDict le), ds; simpl; by rewrite Hl, Hc
  end.
Qed.

(** The generator passes over the records of other domains and stops
    at the first record of the domain it looks for. *)
Lemma next_certificate_found ds pre r post dn :
  Forall2 (fun d r => record_view d = Some r) ds (pre ++ r :: post) ->
  Forall (fun x => domain x <> dn) pre ->
  domain r = dn ->
  exists d, next_certificate ds dn = Ok (Some d) /\ record_view d = Some r.
Proof.
  revert ds. induction pre as [|x pre IH]; intros ds Hds Hpre Hr; simpl in Hds.
  - apply Forall2_cons_inv_r in Hds as (d & ds' & Hd & _ & ->).
    exists d. split; [|done].
    destruct (record_view_fields _ _ Hd) as (dm & Hdom & Hm & _).
    cbn [next_certificate]. rewrite Hdom, Hm. cbn [eq_str].
    rewrite Hr. by rewrite String.eqb_refl.
  - apply Forall2_cons_inv_r in Hds as (d & ds' & Hd & Hds & ->).
    apply Forall_cons in Hpre as [Hx Hpre].
    destruct (IH _ Hds Hpre Hr) as (d' & Hn & Hv). exists d'. split; [|done].
    destruct (record_view_fields _ _ Hd) as (dm & Hdom & Hm & _).
    cbn [next_certificate]. rewrite Hdom, Hm. cbn [eq_str].
    apply String.eqb_neq in Hx. by rewrite Hx.
Qed.

Lemma next_certificate_none ds rs dn :
  Forall2 (fun d r => record_view d = Some r) ds rs ->
  Forall (fun x => domain x <> dn) rs ->
  next_certificate ds dn = Ok None.
Proof.
  induction 1 as [|d r ds rs Hd _ IH]; intros Hrs; [done|].
  apply Forall_cons in Hrs as [Hx Hrs].
  destruct (record_view_fields _ _ Hd) as (dm & Hdom & Hm & _).
  cbn [next_certificate]. rewrite Hdom, Hm. cbn [eq_str].
  apply String.eqb_neq in Hx. rewrite Hx. by apply IH.
Qed.

(** Without a selector the first record is taken. *)
Lemma read_traefik_first fs fl u g um tp dn src acme r rest :
  fs !! tp = Some src ->
  fl 0 = None ->
  json_loads (content src) = Some acme ->
  store_view acme = Some (r :: rest) ->
  blank dn = true ->
  fst (read_traefik tp dn (boot fs fl u g um)) = credential_of r.
Proof.
  intros Hsrc Hfl Hjson Hstore Hblank.
  destruct (store_view_fields _ _ Hstore) as (le & ds & Hle & Hds & Hall).
  apply Forall2_cons_inv_r in Hall as (d & ds' & Hd & _ & ->).
  destruct (record_view_fields _ _ Hd) as (dm & _ & _ & Hc & Hk & Ht).
  unfold read_traefik, credential_of. msimpl.
  rewrite Hfl, Hsrc. msimpl. rewrite Hjson, Hblank. msimpl.
  rewrite Hle. msimpl. rewrite Hds. msimpl. cbn [getitem0]. msimpl.
  rewrite Ht. cbn [negb]. msimpl. rewrite Hc.
  destruct (b64decode_utf8 (PStr (certificate r))); [|done].
  rewrite Hk. by destruct (b64decode_utf8 (PStr (key r))).
Qed.

(** With a selector the records are searched in stored order. *)
Lemma read_traefik_search fs fl u g um tp dn src acme rs :
  fs !! tp = Some src ->
  fl 0 = None ->
  json_loads (content src) = Some acme ->
  store_view acme = Some rs ->
  blank dn = false ->
  exists ds,
    Forall2 (fun d r => record_view d = Some r) ds rs
    /\ fst (read_traefik tp dn (boot fs fl u g um)) =
       match next_certificate ds dn with
       | Ok (Some d) =>
           match record_view d with
           | Some r => credential_of r
           | None => Raise TypeError
           end
       | Ok None => Raise (SystemExit ("Could not find any certificate for domain " +:+ dn))
       | Raise e => Raise e
       end.
Proof.
  intros Hsrc Hfl Hjson Hstore Hblank.
  destruct (store_view_fields _ _ Hstore) as (le & ds & Hle & Hds & Hall).
  exists ds. split; [done|].
  unfold read_traefik. msimpl.
  rewrite Hfl, Hsrc. msimpl. rewrite Hjson, Hblank. msimpl.
  rewrite Hle. msimpl. rewrite Hds. msimpl. cbn [iterate]. msimpl.
  destruct (next_certificate ds dn) as [[d|]|e] eqn:Hn; msimpl; [|done|done].
  assert (exists r, record_view d = Some r) as [r Hd].
  { clear -Hall Hn. induction Hall as [|x y ds rs Hx _ IH]; simpl in Hn; [done|].
    repeat case_match; simplify_eq; eauto. }
  rewrite Hd.
  destruct (record_view_fields _ _ Hd) as (dm & _ & _ & Hc & Hk & Ht).
  rewrite Ht. cbn [negb]. msimpl. unfold credential_of. rewrite Hc.
  destruct (b64decode_utf8 (PStr (certificate r))); [|done].
  rewrite Hk. by destruct (b64decode_utf8 (PStr (key r))).
Qed.

End extractor.
(* ===================================================================== *)
(** ** The configuration writer *)
(* ===================================================================== *)

Section writer.
Context `{Libraries}.

Lemma subscript_Ok h v k x :
  subscript h v k = Ok x ->
  exists l m, v = VRef l /\ h !! l = Some (ODict m) /\ m !! k = Some x.
Proof.
  destruct v as [| | | |l]; simpl; try discriminate.
  destruct (h !! l) as [[m|xs]|] eqn:Hl; try discriminate.
  destruct (m !! k) as [y|] eqn:Hk; intros [= <-]. by exists l, m.
Qed.

Lemma subscript_ref h l m k :
  h !! l = Some (ODict m) ->
  subscript h (VRef l) k =
    match m !! k with
    | Some x => Ok x
    | None => Raise (KeyError (PStr k))
    end.
Proof. intros Hl. simpl. by rewrite Hl. Qed.

(** An assignment to one key of a mapping leaves every subscript with
    another key, of this and of every other object, as it was. *)
Lemma subscript_after_setitem h l m k x v k' :
  h !! l = Some (ODict m) ->
  k' <> k ->
  subscript (<[l := ODict (<[k := x]> m)]> h) v k' = subscript h v k'.
Proof.
  intros Hl Hk. destruct v as [| | | |l']; try done. simpl.
  destruct (decide (l' = l)) as [->|Hne].
  - by rewrite lookup_insert_eq, Hl, lookup_insert_ne.
  - by rewrite lookup_insert_ne.
Qed.

Lemma set_tls_ref h config l m k x :
  subscript h config "tls" = Ok (VRef l) ->
  h !! l = Some (ODict m) ->
  set_tls h config k x = Ok (<[l := ODict (<[k := x]> m)]> h).
Proof. intros Ht Hl. unfold set_tls. rewrite Ht. simpl. by rewrite Hl. Qed.

Lemma get_first_lines_Ok o n s :
  get_first_lines o n = Ok s -> exists t, o = VStr t.
Proof. destruct o; simpl; try discriminate. eauto. Qed.

Lemma ne_str_false o s : ne_str o s = false -> o = VStr s.
Proof.
  unfold ne_str. destruct o; simpl; try discriminate.
  rewrite negb_false_iff. by intros ->%String.eqb_eq.
Qed.

(** [write_adguardhome], with its tail named. *)
Lemma write_adguardhome_tail adguardhome_path cert key :
  write_adguardhome adguardhome_path cert key =
    (info ("Reading AdGuardHome configuration: " +:+ adguardhome_path) ;;
     loaded <- yaml_load adguardhome_path ;;
     tls <~ subscript (heap loaded) (root loaded) "tls" ;;
     old_cert <~ subscript (heap loaded) tls "certificate_chain" ;;
     tls <~ subscript (heap loaded) (root loaded) "tls" ;;
     old_key <~ subscript (heap loaded) tls "private_key" ;;
     cert_changed <- has_changed old_cert cert "Certificate chain" ;;
     state <-
       (if truthy cert_changed then
          objects <~ set_tls (heap loaded) (root loaded) "certificate_chain" (VStr cert) ;;
          ret (objects, true)
        else ret (heap loaded, false)) ;;
     key_changed <- has_changed old_key key "Private key" ;;
     state' <-
       (if truthy key_changed then
          objects <~ set_tls (fst state) (root loaded) "private_key" (VStr key) ;;
          ret (objects, true)
        else ret (fst state, snd state)) ;;
     if snd state' then
       info "Changes detected" ;;
       commit adguardhome_path (Document (fst state') (root loaded))
     else
       info "No changes detected").
Proof. reflexivity. Qed.

Ltac quiet_leaf e :=
  intros [= <- <-]; left; exists e; eexists;
  split; [unfold advance; cbn [files faults euid egid umask hist log];
          rewrite <- ?app_assoc; reflexivity | intros [=]].

Ltac dirty_leaf f0 doc l m oc ok Hnc Hnk :=
  rewrite ?insert_insert_eq, <- ?app_assoc; intros Hcommit; right;
  eexists _, f0, doc, l, m, oc, ok;
  repeat (split; [first [done | by (left; apply ne_str_spec)
                              | by (right; apply ne_str_spec)]|]);
  rewrite Hnc, Hnk; unfold assign, advance;
  cbn [files faults euid egid umask hist log]; exact Hcommit.

Lemma write_adguardhome_cases ap cert key w r w' :
  write_adguardhome ap cert key w = (r, w') ->
  (exists e lines,
      w' = advance w [Step (SysRead ap) e (files w)] (files w) lines
      /\ (r = Ok tt ->
          e = None
          /\ exists f0 doc l m,
              files w !! ap = Some f0
              /\ yaml_loads (content f0) = Some doc
              /\ subscript (heap doc) (root doc) "tls" = Ok (VRef l)
              /\ heap doc !! l = Some (ODict m)
              /\ m !! "certificate_chain" = Some (VStr cert)
              /\ m !! "private_key" = Some (VStr key)))
  \/ (exists lines f0 doc l m oc ok,
      files w !! ap = Some f0
      /\ yaml_loads (content f0) = Some doc
      /\ subscript (heap doc) (root doc) "tls" = Ok (VRef l)
      /\ heap doc !! l = Some (ODict m)
      /\ m !! "certificate_chain" = Some (VStr oc)
      /\ m !! "private_key" = Some (VStr ok)
      /\ (oc <> cert \/ ok <> key)
      /\ commit ap
           (Document
              (<[l := ODict (assign (ne_str (VStr ok) key) "private_key" key
                               (assign (ne_str (VStr oc) cert) "certificate_chain" cert m))]>
                 (heap doc))
              (root doc))
           (advance w [Step (SysRead ap) None (files w)] (files w) lines) = (r, w')).
Proof.
  destruct w as [fs fl u g um h lg]. rewrite write_adguardhome_tail. msimpl.
  destruct (fl (length h)) as [ft|] eqn:Hfl; [quiet_leaf (Some (err ft))|].
  destruct (fs !! ap) as [f0|] eqn:Hf0; msimpl; [|quiet_leaf (Some FileNotFoundError)].
  destruct (yaml_loads (content f0)) as [doc|] eqn:Hcfg; msimpl; [|quiet_leaf (@None exn)].
  destruct (subscript (heap doc) (root doc) "tls") as [t|e] eqn:Htls; msimpl;
    [|quiet_leaf (@None exn)].
  destruct (subscript (heap doc) t "certificate_chain") as [oc|e] eqn:Hoc; msimpl;
    [|quiet_leaf (@None exn)].
  destruct (subscript_Ok _ _ _ _ Hoc) as (l & m & -> & Hl & Hcc).
  rewrite (subscript_ref _ _ _ "private_key" Hl).
  destruct (m !! "private_key") as [ok|] eqn:Hpk; msimpl; [|quiet_leaf (@None exn)].
  unfold has_changed. msimpl.
  destruct (ne_str oc cert) eqn:Hnc; msimpl.
  - destruct (get_first_lines oc 1) as [l1|e] eqn:Hl1; msimpl; [|quiet_leaf (@None exn)].
    destruct (get_first_lines_Ok _ _ _ Hl1) as [soc ->].
    cbn [get_first_lines truthy]. msimpl.
    rewrite (set_tls_ref _ _ _ _ "certificate_chain" (VStr cert) Htls Hl). msimpl.
    destruct (ne_str ok key) eqn:Hnk; msimpl.
    + destruct (get_first_lines ok 1) as [l2|e] eqn:Hl2; msimpl; [|quiet_leaf (@None exn)].
      destruct (get_first_lines_Ok _ _ _ Hl2) as [sok ->].
      cbn [get_first_lines truthy]. msimpl.
      rewrite (set_tls_ref _ _ l (<["certificate_chain" := VStr cert]> m)
                 "private_key" (VStr key));
        [|by rewrite (subscript_after_setitem _ _ _ _ _ _ _ Hl)|by rewrite lookup_insert_eq].
      msimpl. dirty_leaf f0 doc l m soc sok Hnc Hnk.
    + apply ne_str_false in Hnk as Hk. subst ok.
      cbn [truthy]. msimpl. dirty_leaf f0 doc l m soc key Hnc Hnk.
  - apply ne_str_false in Hnc as Hc. subst oc. cbn [truthy]. msimpl.
    destruct (ne_str ok key) eqn:Hnk; msimpl.
    + destruct (get_first_lines ok 1) as [l2|e] eqn:Hl2; msimpl; [|quiet_leaf (@None exn)].
      destruct (get_first_lines_Ok _ _ _ Hl2) as [sok ->].
      cbn [get_first_lines truthy]. msimpl.
      rewrite (set_tls_ref _ _ _ _ "private_key" (VStr key) Htls Hl). msimpl.
      dirty_leaf f0 doc l m cert sok Hnc Hnk.
    + apply ne_str_false in Hnk as Hk. subst ok. cbn [truthy]. msimpl.
      intros [= <- <-]. left. exists None. eexists.
      split; [unfold advance; cbn [files faults euid egid umask hist log];
              rewrite <- ?app_assoc; reflexivity|].
      intros _. split; [done|]. by exists f0, doc, l, m.
Qed.

(** When both stored fields equal the new values and the target can be
    read, [write_adguardhome] only reads. *)
Lemma write_adguardhome_clean ap cert key w f0 doc tls :
  next_fault w = None ->
  files w !! ap = Some f0 ->
  yaml_loads (content f0) = Some doc ->
  subscript (heap doc) (root doc) "tls" = Ok tls ->
  subscript (heap doc) tls "certificate_chain" = Ok (VStr cert) ->
  subscript (heap doc) tls "private_key" = Ok (VStr key) ->
  exists lines,
    write_adguardhome ap cert key w =
      (Ok tt, advance w [Step (SysRead ap) None (files w)] (files w) lines).
Proof.
  destruct w as [fs fl u g um h lg]. unfold next_fault. cbn [files faults hist].
  intros Hfl Hf0 Hcfg Htop Hcc Hpk.
  assert (ne_str (VStr cert) cert = false) as Hnc.
  { unfold ne_str. by rewrite String.eqb_refl. }
  assert (ne_str (VStr key) key = false) as Hnk.
  { unfold ne_str. by rewrite String.eqb_refl. }
  rewrite write_adguardhome_tail. unfold has_changed. msimpl.
  repeat (msimpl; cbn [truthy];
          first [rewrite Hfl | rewrite Hf0 | rewrite Hcfg | rewrite Htop
                | rewrite Hcc | rewrite Hpk | rewrite Hnc | rewrite Hnk]).
  msimpl. cbn [truthy]. msimpl. eexists. rewrite <- !app_assoc. reflexivity.
Qed.

End writer.

(* ===================================================================== *)
(** ** Backup, write, permissions: the trace of a commit *)
(* ===================================================================== *)

Lemma prefix_empty s : String.prefix EmptyString s = true.
Proof. by destruct s. Qed.

Lemma prefix_refl s : String.prefix s s = true.
Proof.
  induction s as [|c s IH]; [done|]. simpl.
  destruct (ascii_dec c c); [done|congruence].
Qed.

Lemma prefix_take n s : String.prefix (str_take n s) s = true.
Proof.
  revert s. induction n as [|n IH]; intros [|c s]; simpl; try done.
  destruct (ascii_dec c c); [apply IH|congruence].
Qed.

Lemma content_at_insert_eq (fs : gmap string file) p f :
  content_at (<[p := f]> fs) p = Some (content f).
Proof. unfold content_at. by rewrite lookup_insert_eq. Qed.

Lemma content_at_insert_ne (fs : gmap string file) p q f :
  p <> q -> content_at (<[p := f]> fs) q = content_at fs q.
Proof. intros Hne. unfold content_at. by rewrite lookup_insert_ne. Qed.

Lemma content_at_Some (fs : gmap string file) p f :
  fs !! p = Some f -> content_at fs p = Some (content f).
Proof. intros Hf. unfold content_at. by rewrite Hf. Qed.

Ltac contents :=
  repeat first [ rewrite content_at_insert_eq
               | rewrite content_at_insert_ne by backup_neq ];
  cbn [content mode uid gid with_content with_mode with_owner].

Section commit.
Context `{Libraries}.

(** Runs [commit] from a world whose target exists, and hands every
    outcome over with its trace written out. *)
Ltac commit_cases Hf :=
  unfold commit; repeat exec_step; msimpl; lookups;
  intros [= <- <-]; cbn [files hist]; rewrite <- ?app_assoc; cbn [app];
  eexists; (split; [reflexivity|]).

Ltac absurd_backup :=
  match goal with
  | E : backup_path ?p = ?p |- _ => by apply backup_path_neq in E
  | E : ?p = backup_path ?p |- _ => by (symmetry in E; apply backup_path_neq in E)
  end.

Ltac at_index i Hi :=
  cbn [lookup list_lookup] in Hi;
  first [ discriminate Hi
        | destruct i as [|i];
          [ cbn [lookup list_lookup] in Hi; simplify_eq; try absurd_backup;
            cbn [after call failure]
          | at_index i Hi ] ].

Ltac files_now :=
  cbn [files]; lookups; contents.

(** Every file system of a commit either still has the target as it
    was, or comes after the completed backup, holds the old content in
    the backup file, and has a prefix of the new document in the
    target. *)
Lemma commit_order ap doc w r w' f0 :
  files w !! ap = Some f0 ->
  commit ap doc w = (r, w') ->
  exists T,
    hist w' = hist w ++ T
    /\ forall i st, T !! i = Some st ->
         after st !! ap = Some f0
         \/ (content_at (after st) (backup_path ap) = Some (content f0)
             /\ (exists c, content_at (after st) ap = Some c
                           /\ String.prefix c (yaml_dumps doc) = true)
             /\ exists j sb,
                  j < i
                  /\ T !! j = Some (Step (SysCopystat ap (backup_path ap)) None sb)
                  /\ sb !! ap = Some f0
                  /\ content_at sb (backup_path ap) = Some (content f0)).
Proof.
  destruct w as [fs fl u g um h lg]. cbn [files hist]. intros Hf. revert r w'.
  intros r w'. commit_cases Hf.
  all: intros i st Hi; at_index i Hi.
  all: try (left; lookups; exact Hf).
  all: right; contents;
    (split; [done|]);
    (split; [eexists; split; [reflexivity|];
             first [apply prefix_empty | apply prefix_refl | apply prefix_take]|]);
    exists 3; eexists; (split; [lia|]); (split; [reflexivity|]);
    lookups; contents; done.
Qed.

(** The target is written after it was opened, and thereby emptied;
    what is written is the serialized document. *)
Lemma commit_truncates ap doc w r w' f0 :
  files w !! ap = Some f0 ->
  commit ap doc w = (r, w') ->
  exists T,
    hist w' = hist w ++ T
    /\ forall i data e s, T !! i = Some (Step (SysWrite ap data) e s) ->
         data = yaml_dumps doc
         /\ exists j sj,
              j < i
              /\ T !! j = Some (Step (SysCreate ap) None sj)
              /\ content_at sj ap = Some EmptyString.
Proof.
  destruct w as [fs fl u g um h lg]. cbn [files hist]. intros Hf.
  commit_cases Hf.
  all: intros i data e s Hi; at_index i Hi.
  all: split; [done|]; exists 4; eexists; split; [lia|]; split; [reflexivity|];
    by contents.
Qed.

(** A completed write of the target wrote the serialized document, and
    is followed either by both permission changes or by the refusal of
    one of them, which ends the run with the new content in place. *)
Lemma commit_write ap doc w r w' f0 :
  files w !! ap = Some f0 ->
  commit ap doc w = (r, w') ->
  exists T,
    hist w' = hist w ++ T
    /\ forall i data s, T !! i = Some (Step (SysWrite ap data) None s) ->
         data = yaml_dumps doc
         /\ ((r = Ok tt
              /\ files w' !! ap =
                   Some {| content := data; mode := mode_0o644; uid := 0; gid := 0 |})
             \/ (exists e c sf,
                   r = Raise e
                   /\ last T = Some (Step c (Some e) sf)
                   /\ (c = SysChmod ap mode_0o644 \/ c = SysChown ap 0 0)
                   /\ content_at (files w') ap = Some data)).
Proof.
  destruct w as [fs fl u g um h lg]. cbn [files hist]. intros Hf.
  commit_cases Hf.
  all: intros i data s Hi; at_index i Hi.
  all: split; [done|].
  all: first
    [ left; split; [done|]; by files_now
    | right; do 3 eexists; split; [done|]; split; [reflexivity|];
      split; [by (left + right)|]; by files_now ].
Qed.

(** A refused [chown] comes after the completed write and the
    successful [chmod]: the run ends with the new content and mode
    0o644, under the old owner and group. *)
Lemma commit_chown ap doc w r w' f0 :
  files w !! ap = Some f0 ->
  commit ap doc w = (r, w') ->
  exists T,
    hist w' = hist w ++ T
    /\ forall i e s, T !! i = Some (Step (SysChown ap 0 0) (Some e) s) ->
         r = Raise e
         /\ files w' !! ap =
              Some {| content := yaml_dumps doc; mode := mode_0o644;
                      uid := uid f0; gid := gid f0 |}
         /\ exists j k s1 s2,
              j < k /\ k < i
              /\ T !! j = Some (Step (SysWrite ap (yaml_dumps doc)) None s1)
              /\ T !! k = Some (Step (SysChmod ap mode_0o644) None s2).
Proof.
  destruct w as [fs fl u g um h lg]. cbn [files hist]. intros Hf.
  commit_cases Hf.
  all: intros i e s Hi; at_index i Hi.
  all: split; [done|]; split; [by files_now|].
  all: exists 5, 6; do 2 eexists; split; [lia|]; split; [lia|]; split; reflexivity.
Qed.

(** A commit that returns has written the target and fixed its
    permissions, and has changed nothing but the target and its
    backup. *)
Lemma commit_Ok ap doc w w' f0 :
  files w !! ap = Some f0 ->
  commit ap doc w = (Ok tt, w') ->
  files w' !! ap =
    Some {| content := yaml_dumps doc; mode := mode_0o644; uid := 0; gid := 0 |}
  /\ (forall p, p <> ap -> p <> backup_path ap -> files w' !! p = files w !! p)
  /\ faults w' = faults w /\ euid w' = euid w /\ egid w' = egid w /\ umask w' = umask w.
Proof.
  destruct w as [fs fl u g um h lg]. cbn [files hist faults euid egid umask]. intros Hf.
  unfold commit. repeat exec_step; msimpl; lookups.
  all: intros [= <-]; cbn [files faults euid egid umask].
  all: split; [by files_now|]; split; [|done].
  all: intros p Hp Hb; by rewrite !lookup_insert_ne.
Qed.

(** As [exec_step], keeping what the operating system decided at each
    call. *)
Ltac exec_step_eq :=
  msimpl; lookups; rewrite ?eqb_backup_path;
  match goal with
  | |- context [match ?x with _ => _ end] =>
      lazymatch x with
      | context [match _ with _ => _ end] => fail
      | _ => first [ match goal with H : x = _ |- _ => rewrite H end
                   | destruct x eqn:? ]
      end
  end.

Ltac commit_cases_eq Hf :=
  unfold commit; repeat exec_step_eq; msimpl; lookups;
  intros [= <- <-]; cbn [files hist faults] in *; rewrite <- ?app_assoc; cbn [app];
  eexists; (split; [reflexivity|]).

Ltac at_index_eq i Hi :=
  cbn [lookup list_lookup] in Hi;
  first [ discriminate Hi
        | destruct i as [|i];
          [ cbn [lookup list_lookup] in Hi; inversion Hi; subst; clear Hi;
            try absurd_backup; cbn [after call failure]
          | at_index_eq i Hi ] ].

(** Once the write of the target has completed, the target holds what
    was written, at that moment, at every later moment and at the end;
    a refused write ends the commit there, with the characters in the
    target that reached it. *)
Lemma commit_written ap doc w r w' f0 :
  files w !! ap = Some f0 ->
  commit ap doc w = (r, w') ->
  exists T,
    hist w' = hist w ++ T
    /\ (forall i data s, T !! i = Some (Step (SysWrite ap data) None s) ->
          content_at s ap = Some data
          /\ content_at (files w') ap = Some data
          /\ forall j st, i <= j -> T !! j = Some st ->
                content_at (after st) ap = Some data)
    /\ (forall i data e s, T !! i = Some (Step (SysWrite ap data) (Some e) s) ->
          r = Raise e
          /\ files w' = s
          /\ S i = length T
          /\ exists f,
               faults w (length (hist w) + i) = Some f
               /\ err f = e
               /\ content_at s ap = Some (str_take (written f) data)).
Proof.
  destruct w as [fs fl u g um h lg]. cbn [files hist faults]. intros Hf.
  commit_cases_eq Hf.
  all: split.
  all: try (intros i data s Hi; at_index_eq i Hi).
  all: try (split; [by contents|]; split; [by files_now|]; intros j st Hj Hst).
  all: try (at_index_eq j Hst).
  all: try lia.
  all: try by contents.
  all: intros i data e s Hi; at_index_eq i Hi.
  all: split; [done|]; split; [done|]; split; [done|].
  all: eexists; split; [|split; [reflexivity|by contents]].
  all: match goal with
       | H : ?fl ?a = Some ?f |- ?fl ?b = Some ?f =>
           replace b with a by (rewrite ?length_app; cbn [length]; lia); exact H
       end.
Qed.

(** Two decisions of the operating system on the same call are the
    same decision. *)
Ltac same_call :=
  match goal with
  | H1 : ?fl ?a = _, H2 : ?fl ?b = _ |- _ =>
      lazymatch H1 with
      | H2 => fail
      | _ =>
          let E := fresh in
          assert (a = b) as E by (rewrite ?length_app; cbn [length]; lia);
          rewrite E in H1; rewrite H1 in H2; clear E;
          first [ discriminate H2 | injection H2 as H2; subst ]
      end
  end.

(** After the completed write, what the operating system decides for
    [chmod] and [chown] decides how the commit ends. *)
Lemma commit_permissions ap doc w r w' f0 :
  files w !! ap = Some f0 ->
  commit ap doc w = (r, w') ->
  exists T,
    hist w' = hist w ++ T
    /\ forall i data s, T !! i = Some (Step (SysWrite ap data) None s) ->
         (faults w (length (hist w) + S i) = None ->
          faults w (length (hist w) + S (S i)) = None ->
          r = Ok tt
          /\ files w' !! ap =
               Some {| content := data; mode := mode_0o644; uid := 0; gid := 0 |})
         /\ (forall f,
               faults w (length (hist w) + S i) = Some f ->
               r = Raise (err f)
               /\ last T = Some (Step (SysChmod ap mode_0o644) (Some (err f)) (files w'))
               /\ files w' !! ap =
                    Some {| content := data; mode := mode f0;
                            uid := uid f0; gid := gid f0 |})
         /\ (forall f,
               faults w (length (hist w) + S i) = None ->
               faults w (length (hist w) + S (S i)) = Some f ->
               r = Raise (err f)
               /\ last T = Some (Step (SysChown ap 0 0) (Some (err f)) (files w'))
               /\ files w' !! ap =
                    Some {| content := data; mode := mode_0o644;
                            uid := uid f0; gid := gid f0 |}).
Proof.
  destruct w as [fs fl u g um h lg]. cbn [files hist faults]. intros Hf.
  commit_cases_eq Hf.
  all: intros i data s Hi; at_index_eq i Hi.
  all: split; [intros Hm Ho|split; [intros ft Hm|intros ft Hm Ho]].
  all: repeat same_call.
  all: split; [done|].
  all: first [by files_now | split; [reflexivity|by files_now]].
Qed.

End commit.

(* ===================================================================== *)
(** ** The run *)
(* ===================================================================== *)

Section run.
Context `{Libraries}.

(** [read_traefik] makes one system call, the read of its file, and
    leaves the file system as it was. *)
Lemma read_traefik_world tp dn w :
  exists e lines,
    snd (read_traefik tp dn w) =
      advance w [Step (SysRead tp) e (files w)] (files w) lines
    /\ (forall c, fst (read_traefik tp dn w) = Ok c -> e = None).
Proof.
  destruct w as [fs fl u g um h lg]. unfold read_traefik. msimpl.
  destruct (fl (length h)) as [ft|]; msimpl.
  { exists (Some (err ft)). eexists. split; [reflexivity|]. intros c [=]. }
  destruct (fs !! tp) as [src|]; msimpl.
  2:{ exists (Some FileNotFoundError). eexists. split; [reflexivity|]. intros c [=]. }
  exists None.
  repeat exec_step; cbn [fst snd]; rewrite <- ?app_assoc;
    (eexists; split; [reflexivity|done]).
Qed.

(** Its result depends on the world only through the fate of that read
    and the content of the file. *)
Lemma read_traefik_result tp dn w1 w2 :
  next_fault w1 = next_fault w2 ->
  files w1 !! tp = files w2 !! tp ->
  fst (read_traefik tp dn w1) = fst (read_traefik tp dn w2).
Proof.
  destruct w1 as [fs1 fl1 u1 g1 um1 h1 lg1], w2 as [fs2 fl2 u2 g2 um2 h2 lg2].
  unfold next_fault. cbn [files faults hist]. intros Hfl Hfs.
  unfold read_traefik. msimpl. rewrite Hfl, Hfs.
  repeat exec_step; reflexivity.
Qed.

(** The two shapes of a run: it only reads, or it reaches the commit
    with the document to write. *)
Lemma run_shape fs fl u g um tp ap dn r w' :
  run tp ap dn (boot fs fl u g um) = (r, w') ->
  (files w' = fs
   /\ (exists e, hist w' = [Step (SysRead tp) e fs]
                 \/ hist w' = [Step (SysRead tp) None fs; Step (SysRead ap) e fs])
   /\ (r = Ok tt ->
       exists cert key f0 doc l m,
         fst (read_traefik tp dn (boot fs fl u g um)) = Ok (cert, key)
         /\ hist w' = [Step (SysRead tp) None fs; Step (SysRead ap) None fs]
         /\ fs !! ap = Some f0
         /\ yaml_loads (content f0) = Some doc
         /\ subscript (heap doc) (root doc) "tls" = Ok (VRef l)
         /\ heap doc !! l = Some (ODict m)
         /\ m !! "certificate_chain" = Some (VStr cert)
         /\ m !! "private_key" = Some (VStr key)))
  \/ (exists cert key f0 doc l m oc ok w1 w'',
         fst (read_traefik tp dn (boot fs fl u g um)) = Ok (cert, key)
         /\ fs !! ap = Some f0
         /\ yaml_loads (content f0) = Some doc
         /\ subscript (heap doc) (root doc) "tls" = Ok (VRef l)
         /\ heap doc !! l = Some (ODict m)
         /\ m !! "certificate_chain" = Some (VStr oc)
         /\ m !! "private_key" = Some (VStr ok)
         /\ (oc <> cert \/ ok <> key)
         /\ files w1 = fs
         /\ hist w1 = [Step (SysRead tp) None fs; Step (SysRead ap) None fs]
         /\ faults w1 = fl /\ euid w1 = u /\ egid w1 = g /\ umask w1 = um
         /\ commit ap
              (Document
                 (<[l := ODict
                          (assign (ne_str (VStr ok) key) "private_key" key
                             (assign (ne_str (VStr oc) cert) "certificate_chain" cert m))]>
                    (heap doc))
                 (root doc))
              w1 = (r, w'')
         /\ files w' = files w'' /\ hist w' = hist w'').
Proof.
  unfold run. msimpl.
  set (w0 := {| files := fs; faults := fl; euid := u; egid := g; umask := um;
                hist := []; log := ["Initializing..."] |}).
  assert (fst (read_traefik tp dn w0) = fst (read_traefik tp dn (boot fs fl u g um))) as Hres
    by (by apply read_traefik_result).
  destruct (read_traefik_world tp dn w0) as (e0 & lines0 & Hw0 & He0).
  destruct (read_traefik tp dn w0) as [r0 wa] eqn:Hrt. cbn [fst snd] in *. subst wa.
  destruct r0 as [[cert key]|e]; cbn [fst snd].
  2:{ intros [= <- <-]. left. split; [done|]. split; [exists e0; by left|]. intros [=]. }
  pose proof (He0 _ eq_refl) as ->. clear He0.
  destruct (write_adguardhome ap cert key _) as [r' w''] eqn:Hw.
  apply write_adguardhome_cases in Hw as
    [(e & lines & -> & Hok)
    |(lines & f0 & doc & l & m & oc & ok & Hf0 & Hcfg & Htop & Hl & Hcc & Hpk & Hne & Hc)].
  - destruct r' as [[]|e']; intros [= <- <-]; left; cbn [files hist advance app].
    + destruct (Hok eq_refl) as (-> & f0 & doc & l & m & Hf0 & Hcfg & Htop & Hl & Hcc & Hpk).
      split; [done|]. split; [exists None; by right|]. intros _.
      by exists cert, key, f0, doc, l, m.
    + split; [done|]. split; [exists e; by right|]. intros [=].
  - cbn [files advance] in Hf0.
    destruct r' as [[]|e']; intros [= <- <-]; right;
      exists cert, key, f0, doc, l, m, oc, ok;
      match type of Hc with commit _ _ ?wa = (_, ?wb) => exists wa, wb end;
      repeat (split; [first [done | exact Hc | reflexivity]|]); done.
Qed.

End run.

(* ===================================================================== *)
(** ** Ordering of backup and write *)
(* ===================================================================== *)

Section claims.
Context `{Libraries}.

(** C1.  In every run, and whatever the operating system refuses: at
    each moment at which the target differs from what it was before the
    run (in content, and just as well in mode or owner), the backup
    file holds the content the target had before the run, and the copy
    that made it ([shutil.copy2], whose last system call is [copystat])
    was completed earlier, at a moment at which the target was still
    untouched. *)
Theorem backup_precedes_write fs fl u g um tp ap dn r w' i st :
  run tp ap dn (boot fs fl u g um) = (r, w') ->
  hist w' !! i = Some st ->
  after st !! ap <> fs !! ap ->
  exists old j sb,
    content_at fs ap = Some old
    /\ content_at (after st) (backup_path ap) = Some old
    /\ j < i
    /\ hist w' !! j = Some (Step (SysCopystat ap (backup_path ap)) None sb)
    /\ sb !! ap = fs !! ap
    /\ content_at sb (backup_path ap) = Some old.
Proof.
  intros Hrun Hi Hdiff.
  apply run_shape in Hrun as
    [(_ & (e & [Hh|Hh]) & _)
    |(cert & key & f0 & doc & l & m & oc & ok & w1 & w'' & _ & Hf0 & _ & _ & _ & _ & _ & _
      & Hfs & Hh1 & _ & _ & _ & _ & Hc & _ & Hh)].
  - rewrite Hh in Hi. destruct i as [|i]; by simplify_eq/=.
  - rewrite Hh in Hi. destruct i as [|[|i]]; by simplify_eq/=.
  - rewrite <- Hfs in Hf0.
    destruct (commit_order _ _ _ _ _ _ Hf0 Hc) as (T & HT & Hord).
    rewrite Hh, HT, Hh1 in Hi |- *. rewrite Hfs in Hf0.
    destruct i as [|[|k]]; simplify_eq/=; try done.
    destruct (Hord _ _ Hi) as [Hsame|(Hb & _ & j & sb & Hj & HTj & Hsb & Hbb)].
    + exfalso. apply Hdiff. by rewrite Hsame, Hf0.
    + exists (content f0), (S (S j)), sb.
      rewrite (content_at_Some _ _ _ Hf0), Hf0. repeat split; try done. lia.
Qed.

Lemma hist_index (a b : step) (T : list step) i st :
  ([a; b] ++ T) !! i = Some st ->
  (i = 0 /\ st = a) \/ (i = 1 /\ st = b) \/ (exists k, i = S (S k) /\ T !! k = Some st).
Proof. destruct i as [|[|k]]; intros Hi; simplify_eq/=; eauto. Qed.

(** C8, as the code has it.  The target is opened for writing, and so
    emptied, before the serialized document is written into it.  At
    every moment of a run the target holds its old content or a prefix
    of the new document: nothing right after the open; all of it from
    the moment the write has completed to the end of the run; and,
    when the write is refused, the characters that reached the file
    before the refusal, with which the run ends.  Whenever the target
    no longer holds the old content, the backup file does. *)
Theorem target_old_or_prefix_of_new fs fl u g um tp ap dn r w' :
  run tp ap dn (boot fs fl u g um) = (r, w') ->
  exists doc,
    (forall s, s ∈ moments fs w' ->
       content_at s ap = content_at fs ap
       \/ (exists c old,
             content_at s ap = Some c
             /\ String.prefix c (yaml_dumps doc) = true
             /\ content_at fs ap = Some old
             /\ content_at s (backup_path ap) = Some old))
    /\ (forall i data e s, hist w' !! i = Some (Step (SysWrite ap data) e s) ->
          data = yaml_dumps doc
          /\ exists j sj,
               j < i
               /\ hist w' !! j = Some (Step (SysCreate ap) None sj)
               /\ content_at sj ap = Some EmptyString)
    /\ (forall i data s, hist w' !! i = Some (Step (SysWrite ap data) None s) ->
          content_at s ap = Some (yaml_dumps doc)
          /\ content_at (files w') ap = Some (yaml_dumps doc)
          /\ forall j st, i <= j -> hist w' !! j = Some st ->
                content_at (after st) ap = Some (yaml_dumps doc))
    /\ (forall i data e s, hist w' !! i = Some (Step (SysWrite ap data) (Some e) s) ->
          r = Raise e
          /\ files w' = s
          /\ S i = length (hist w')
          /\ exists f,
               fl i = Some f
               /\ err f = e
               /\ content_at s ap = Some (str_take (written f) (yaml_dumps doc))).
Proof.
  intros Hrun.
  apply run_shape in Hrun as
    [(_ & (e & [Hh|Hh]) & _)
    |(cert & key & f0 & doc & l & m & oc & ok & w1 & w'' & _ & Hf0 & _ & _ & _ & _ & _ & _
      & Hfs & Hh1 & Hfl1 & _ & _ & _ & Hc & Hfiles & Hh)].
  - exists (Document ∅ VNone). unfold moments. rewrite Hh. split; [|split; [|split]].
    + intros s Hs. left. cbn in Hs.
      by repeat (apply elem_of_cons in Hs as [->|Hs]; [done|]); apply elem_of_nil in Hs.
    + intros [|i] data e' s Hi; simplify_eq/=.
    + intros [|i] data s Hi; simplify_eq/=.
    + intros [|i] data e' s Hi; simplify_eq/=.
  - exists (Document ∅ VNone). unfold moments. rewrite Hh. split; [|split; [|split]].
    + intros s Hs. left. cbn in Hs.
      by repeat (apply elem_of_cons in Hs as [->|Hs]; [done|]); apply elem_of_nil in Hs.
    + intros [|[|i]] data e' s Hi; simplify_eq/=.
    + intros [|[|i]] data s Hi; simplify_eq/=.
    + intros [|[|i]] data e' s Hi; simplify_eq/=.
  - rewrite <- Hfs in Hf0. eexists. split; [|split; [|split]].
    + destruct (commit_order _ _ _ _ _ _ Hf0 Hc) as (T & HT & Hord).
      unfold moments. rewrite Hh, HT, Hh1. rewrite Hfs in Hf0.
      intros s [->|(st & -> & Hst)%list_elem_of_fmap]%elem_of_cons; [by left|].
      apply list_elem_of_lookup in Hst as [i Hi].
      apply hist_index in Hi as [[_ ->]|[[_ ->]|(k & _ & Hk)]]; [by left|by left|].
      destruct (Hord _ _ Hk) as [Hsame|(Hb & (c & Hcn & Hpre) & _)].
      * left. unfold content_at. by rewrite Hsame, Hf0.
      * right. exists c, (content f0). by rewrite (content_at_Some _ _ _ Hf0).
    + destruct (commit_truncates _ _ _ _ _ _ Hf0 Hc) as (T & HT & Htr).
      rewrite Hh, HT, Hh1. intros i data e s Hi.
      apply hist_index in Hi as [[_ [=]]|[[_ [=]]|(k & -> & Hk)]].
      destruct (Htr _ _ _ _ Hk) as (-> & j & sj & Hj & HTj & Hsj).
      split; [done|]. exists (S (S j)), sj. split; [lia|]. by split.
    + destruct (commit_truncates _ _ _ _ _ _ Hf0 Hc) as (T & HT & Htr).
      destruct (commit_written _ _ _ _ _ _ Hf0 Hc) as (T' & HT' & Hwr & _).
      assert (T' = T) as -> by (rewrite HT in HT'; by apply app_inv_head in HT').
      rewrite Hh, HT, Hh1, Hfiles. intros i data s Hi.
      apply hist_index in Hi as [[_ [=]]|[[_ [=]]|(k & -> & Hk)]].
      destruct (Htr _ _ _ _ Hk) as (-> & _).
      destruct (Hwr _ _ _ Hk) as (Hs & Hend & Hlater).
      split; [done|]. split; [done|]. intros j st Hj Hst.
      apply hist_index in Hst as [[-> _]|[[-> _]|(k' & -> & Hk')]]; [lia|lia|].
      apply (Hlater k'); [lia|done].
    + destruct (commit_truncates _ _ _ _ _ _ Hf0 Hc) as (T & HT & Htr).
      destruct (commit_written _ _ _ _ _ _ Hf0 Hc) as (T' & HT' & _ & Hrf).
      assert (T' = T) as -> by (rewrite HT in HT'; by apply app_inv_head in HT').
      rewrite Hh, HT, Hh1, Hfiles. intros i data e s Hi.
      apply hist_index in Hi as [[_ [=]]|[[_ [=]]|(k & -> & Hk)]].
      destruct (Htr _ _ _ _ Hk) as (-> & _).
      destruct (Hrf _ _ _ _ Hk) as (-> & -> & Hlen & f & Hf & <- & Hs).
      rewrite Hh1, Hfl1 in Hf. cbn [length Nat.add] in Hf.
      split; [done|]. split; [done|]. split; [cbn [length app]; lia|].
      by exists f.
Qed.

(** C9.  When the write of the target has completed, the run goes on
    to [chmod] and [chown].  If the operating system refuses neither,
    the run returns with the target at mode 0o644, owned by user 0 and
    group 0, holding what was written.  If it refuses one of them, the
    run ends with that error and a non-zero exit status, the refused
    call being its last; the target keeps the content just written,
    with the mode and owner it had when the [chmod] is refused, and
    with mode 0o644 and the owner it had when the [chown] is. *)
Theorem permissions_after_write fs fl u g um tp ap dn r w' i data s :
  run tp ap dn (boot fs fl u g um) = (r, w') ->
  hist w' !! i = Some (Step (SysWrite ap data) None s) ->
  ((r = Ok tt
    /\ exit_code r = 0
    /\ files w' !! ap =
         Some {| content := data; mode := mode_0o644; uid := 0; gid := 0 |})
   \/ (exists e c sf,
         r = Raise e
         /\ exit_code r = 1
         /\ last (hist w') = Some (Step c (Some e) sf)
         /\ (c = SysChmod ap mode_0o644 \/ c = SysChown ap 0 0)
         /\ content_at (files w') ap = Some data))
  /\ (fl (S i) = None ->
      fl (S (S i)) = None ->
      r = Ok tt
      /\ exit_code r = 0
      /\ files w' !! ap =
           Some {| content := data; mode := mode_0o644; uid := 0; gid := 0 |})
  /\ (forall f,
        fl (S i) = Some f ->
        exists f0,
          fs !! ap = Some f0
          /\ r = Raise (err f)
          /\ exit_code r = 1
          /\ last (hist w') = Some (Step (SysChmod ap mode_0o644) (Some (err f)) (files w'))
          /\ files w' !! ap =
               Some {| content := data; mode := mode f0; uid := uid f0; gid := gid f0 |})
  /\ (forall f,
        fl (S i) = None ->
        fl (S (S i)) = Some f ->
        exists f0,
          fs !! ap = Some f0
          /\ r = Raise (err f)
          /\ exit_code r = 1
          /\ last (hist w') = Some (Step (SysChown ap 0 0) (Some (err f)) (files w'))
          /\ files w' !! ap =
               Some {| content := data; mode := mode_0o644;
                       uid := uid f0; gid := gid f0 |}).
Proof.
  intros Hrun Hi.
  apply run_shape in Hrun as
    [(_ & (e & [Hh|Hh]) & _)
    |(cert & key & f0 & doc & l & m & oc & ok & w1 & w'' & _ & Hf0 & _ & _ & _ & _ & _ & _
      & Hfs & Hh1 & Hfl1 & _ & _ & _ & Hc & Hfiles & Hh)].
  - rewrite Hh in Hi. destruct i as [|i]; by simplify_eq/=.
  - rewrite Hh in Hi. destruct i as [|[|i]]; by simplify_eq/=.
  - assert (files w1 !! ap = Some f0) as Hf1 by (by rewrite Hfs).
    destruct (commit_write _ _ _ _ _ _ Hf1 Hc) as (T & HT & Hwr).
    destruct (commit_permissions _ _ _ _ _ _ Hf1 Hc) as (T' & HT' & Hpm).
    assert (T' = T) as -> by (rewrite HT in HT'; by apply app_inv_head in HT').
    rewrite Hh, HT, Hh1 in Hi |- *. rewrite Hfiles.
    apply hist_index in Hi as [[_ [=]]|[[_ [=]]|(k & -> & Hk)]].
    destruct (Hpm _ _ _ Hk) as (Hboth & Hchmod & Hchown).
    rewrite Hh1, Hfl1 in Hboth, Hchmod, Hchown. cbn [length Nat.add] in *.
    split; [|split; [|split]].
    + destruct (Hwr _ _ _ Hk) as (_ & [(-> & Hfin)|(e & c & sf & -> & Hlast & Hcall & Hfin)]).
      * by left.
      * right. exists e, c, sf. repeat split; try done.
        rewrite last_app, Hlast. done.
    + intros Hm Ho. destruct (Hboth Hm Ho) as (-> & Hfin). done.
    + intros f Hm. destruct (Hchmod f Hm) as (-> & Hlast & Hfin).
      exists f0. repeat split; try done. by rewrite last_app, Hlast.
    + intros f Hm Ho. destruct (Hchown f Hm Ho) as (-> & Hlast & Hfin).
      exists f0. repeat split; try done. by rewrite last_app, Hlast.
Qed.

(** C10.  [chmod] comes before [chown]: when the [chown] is refused,
    the write and the [chmod] have completed before it, the run ends
    with the error of the [chown], and the target is left with the new
    content and mode 0o644 under the owner and group it had. *)
Theorem chown_refused_after_chmod fs fl u g um tp ap dn r w' i e s f0 :
  run tp ap dn (boot fs fl u g um) = (r, w') ->
  fs !! ap = Some f0 ->
  hist w' !! i = Some (Step (SysChown ap 0 0) (Some e) s) ->
  exists data j k s1 s2,
    r = Raise e
    /\ j < k /\ k < i
    /\ hist w' !! j = Some (Step (SysWrite ap data) None s1)
    /\ hist w' !! k = Some (Step (SysChmod ap mode_0o644) None s2)
    /\ files w' !! ap =
         Some {| content := data; mode := mode_0o644; uid := uid f0; gid := gid f0 |}.
Proof.
  intros Hrun Hf Hi.
  apply run_shape in Hrun as
    [(_ & (e' & [Hh|Hh]) & _)
    |(cert & key & f0' & doc & l & m & oc & ok & w1 & w'' & _ & Hf0 & _ & _ & _ & _ & _ & _
      & Hfs & Hh1 & _ & _ & _ & _ & Hc & Hfiles & Hh)].
  - rewrite Hh in Hi. destruct i as [|i]; by simplify_eq/=.
  - rewrite Hh in Hi. destruct i as [|[|i]]; by simplify_eq/=.
  - assert (f0' = f0) as -> by congruence. rewrite <- Hfs in Hf0.
    destruct (commit_chown _ _ _ _ _ _ Hf0 Hc) as (T & HT & Hch).
    rewrite Hh, HT, Hh1 in Hi |- *. rewrite Hfiles.
    apply hist_index in Hi as [[_ [=]]|[[_ [=]]|(k & -> & Hk)]].
    destruct (Hch _ _ _ Hk) as (-> & Hfin & j & k' & s1 & s2 & Hjk & Hki & Hj & Hk').
    eexists _, (S (S j)), (S (S k')), s1, s2.
    repeat split; [lia|lia|exact Hj|exact Hk'|exact Hfin].
Qed.

(* =================================================================== *)
(** ** What is written *)
(* =================================================================== *)

Lemma assign_lookup_ne changed field new tls k :
  k <> field -> assign changed field new tls !! k = tls !! k.
Proof. intros Hk. unfold assign. destruct changed; [|done]. by rewrite lookup_insert_ne. Qed.

Lemma assign_lookup_eq old field new tls :
  tls !! field = Some (VStr old) ->
  assign (ne_str (VStr old) new) field new tls !! field = Some (VStr new).
Proof.
  intros Hf. unfold assign. destruct (ne_str (VStr old) new) eqn:E.
  - by rewrite lookup_insert_eq.
  - apply ne_str_false in E. by simplify_eq.
Qed.

(** The mapping with the fields the detector found changed assigned is
    the mapping with both fields assigned. *)
Lemma assign_both tls oc ok cert key :
  tls !! "certificate_chain" = Some (VStr oc) ->
  tls !! "private_key" = Some (VStr ok) ->
  assign (ne_str (VStr ok) key) "private_key" key
    (assign (ne_str (VStr oc) cert) "certificate_chain" cert tls)
  = <["private_key" := VStr key]> (<["certificate_chain" := VStr cert]> tls).
Proof.
  intros Hcc Hpk. unfold assign.
  destruct (ne_str (VStr oc) cert) eqn:Ec.
  - destruct (ne_str (VStr ok) key) eqn:Ek; [done|].
    apply ne_str_false in Ek. simplify_eq.
    symmetry. apply insert_id. by rewrite lookup_insert_ne.
  - apply ne_str_false in Ec. simplify_eq.
    rewrite (insert_id tls "certificate_chain") by done.
    destruct (ne_str (VStr ok) key) eqn:Ek; [done|].
    apply ne_str_false in Ek. simplify_eq. symmetry. by apply insert_id.
Qed.

(** A mapping that is replaced by one with the same value under [k]
    leaves every subscript with [k] as it was. *)
Lemma subscript_after_update h l m m' v k :
  h !! l = Some (ODict m) ->
  m' !! k = m !! k ->
  subscript (<[l := ODict m']> h) v k = subscript h v k.
Proof.
  intros Hl Hk. destruct v as [| | | |l0]; try done. simpl.
  destruct (decide (l0 = l)) as [->|Hne].
  - by rewrite lookup_insert_eq, Hl, Hk.
  - by rewrite lookup_insert_ne.
Qed.

(** A field whose path does not pass through the object [l] does not
    depend on what [l] holds. *)
Lemma field_of_frame h l o v path :
  l ∉ visited h v path ->
  field_of (<[l := o]> h) v path = field_of h v path.
Proof.
  revert v. induction path as [|k rest IH]; intros v Hv; [done|].
  destruct v as [| | | |l0]; try done.
  cbn [visited] in Hv. apply not_elem_of_cons in Hv as [Hne Hrest].
  cbn [field_of].
  assert (subscript (<[l := o]> h) (VRef l0) k = subscript h (VRef l0) k) as ->.
  { simpl. by rewrite lookup_insert_ne. }
  destruct (subscript h (VRef l0) k) as [x|e]; [by apply IH|done].
Qed.

Lemma field_of_app h v path k :
  field_of h v (path ++ [k]) =
    match field_of h v path with
    | Ok x => subscript h x k
    | Raise e => Raise e
    end.
Proof.
  revert v. induction path as [|k0 rest IH]; intros v; cbn [app field_of].
  - by destruct (subscript h v k).
  - destruct (subscript h v k0); [apply IH|done].
Qed.

(** C7, as the code has it.  What a completed write puts into the
    target, and what the target then holds, is the serialized document
    in which the mapping under [tls] has [certificate_chain] and
    [private_key] assigned where the change detector found a change,
    and only there; both then hold the new values.  Every other key of
    that mapping keeps its value, every other mapping and sequence of
    the document is as it was loaded, and so is every field whose path
    does not pass through that mapping.  The assignment changes the
    mapping itself: under every path that leads to the same mapping (a
    YAML alias of the [tls] section) the two fields hold the new
    values as well. *)
Theorem write_sets_changed_fields fs fl u g um tp ap dn r w' i data s :
  run tp ap dn (boot fs fl u g um) = (r, w') ->
  hist w' !! i = Some (Step (SysWrite ap data) None s) ->
  exists cert key f0 doc l m oc ok m' written,
    fst (read_traefik tp dn (boot fs fl u g um)) = Ok (cert, key)
    /\ fs !! ap = Some f0
    /\ yaml_loads (content f0) = Some doc
    /\ subscript (heap doc) (root doc) "tls" = Ok (VRef l)
    /\ heap doc !! l = Some (ODict m)
    /\ m !! "certificate_chain" = Some (VStr oc)
    /\ m !! "private_key" = Some (VStr ok)
    /\ (oc <> cert \/ ok <> key)
    /\ m' = assign (ne_str (VStr ok) key) "private_key" key
              (assign (ne_str (VStr oc) cert) "certificate_chain" cert m)
    /\ written = Document (<[l := ODict m']> (heap doc)) (root doc)
    /\ data = yaml_dumps written
    /\ content_at s ap = Some data
    /\ content_at (files w') ap = Some data
    /\ field written ["tls"; "certificate_chain"] = Ok (VStr cert)
    /\ field written ["tls"; "private_key"] = Ok (VStr key)
    /\ (forall k, k <> "certificate_chain" -> k <> "private_key" -> m' !! k = m !! k)
    /\ (forall l', l' <> l -> heap written !! l' = heap doc !! l')
    /\ root written = root doc
    /\ (forall path,
          l ∉ visited (heap doc) (root doc) path ->
          field written path = field doc path)
    /\ (forall path,
          l ∉ visited (heap doc) (root doc) path ->
          field doc path = Ok (VRef l) ->
          field written (path ++ ["certificate_chain"]) = Ok (VStr cert)
          /\ field written (path ++ ["private_key"]) = Ok (VStr key)).
Proof.
  intros Hrun Hi.
  apply run_shape in Hrun as
    [(_ & (e & [Hh|Hh]) & _)
    |(cert & key & f0 & doc & l & m & oc & ok & w1 & w'' & Hres & Hf0 & Hcfg & Htop & Hl
      & Hcc & Hpk & Hne & Hfs & Hh1 & _ & _ & _ & _ & Hc & Hfiles & Hh)].
  - rewrite Hh in Hi. destruct i as [|i]; by simplify_eq/=.
  - rewrite Hh in Hi. destruct i as [|[|i]]; by simplify_eq/=.
  - assert (files w1 !! ap = Some f0) as Hf1 by (by rewrite Hfs).
    destruct (commit_write _ _ _ _ _ _ Hf1 Hc) as (T & HT & Hwr).
    destruct (commit_written _ _ _ _ _ _ Hf1 Hc) as (T' & HT' & Hwn & _).
    assert (T' = T) as -> by (rewrite HT in HT'; by apply app_inv_head in HT').
    rewrite Hh, HT, Hh1 in Hi. rewrite Hfiles.
    apply hist_index in Hi as [[_ [=]]|[[_ [=]]|(k & -> & Hk)]].
    destruct (Hwr _ _ _ Hk) as (-> & _).
    destruct (Hwn _ _ _ Hk) as (Hs & Hend & _).
    set (m' := assign (ne_str (VStr ok) key) "private_key" key
                 (assign (ne_str (VStr oc) cert) "certificate_chain" cert m)) in *.
    assert (m' !! "certificate_chain" = Some (VStr cert)) as Hcc'.
    { unfold m'. rewrite assign_lookup_ne by done. by apply assign_lookup_eq. }
    assert (m' !! "private_key" = Some (VStr key)) as Hpk'.
    { unfold m'. apply assign_lookup_eq. by rewrite assign_lookup_ne. }
    assert (subscript (<[l := ODict m']> (heap doc)) (root doc) "tls" = Ok (VRef l)) as Htop'.
    { rewrite (subscript_after_update _ _ m); [done|done|].
      unfold m'. by rewrite !assign_lookup_ne. }
    exists cert, key, f0, doc, l, m, oc, ok, m'. eexists.
    repeat (split; [first [done | reflexivity]|]).
    split; [|split; [|split; [|split; [|split; [|split]]]]].
    + unfold field. cbn [field_of heap root]. rewrite Htop'.
      cbn [subscript]. by rewrite lookup_insert_eq, Hcc'.
    + unfold field. cbn [field_of heap root]. rewrite Htop'.
      cbn [subscript]. by rewrite lookup_insert_eq, Hpk'.
    + intros x Hx1 Hx2. unfold m'. by rewrite !assign_lookup_ne.
    + intros l' Hl'. cbn [heap]. by rewrite lookup_insert_ne.
    + done.
    + intros path Hpath. unfold field. cbn [heap root]. by apply field_of_frame.
    + intros path Hpath Hreach. unfold field in *. cbn [heap root] in *.
      rewrite !field_of_app, (field_of_frame _ _ _ _ _ Hpath), Hreach.
      cbn [subscript]. by rewrite lookup_insert_eq, Hcc', Hpk'.
Qed.

(* =================================================================== *)
(** ** Nothing to do *)
(* =================================================================== *)

Lemma read_traefik_Ok_fault tp dn w c :
  fst (read_traefik tp dn w) = Ok c -> next_fault w = None.
Proof.
  destruct w as [fs fl u g um h lg]. unfold read_traefik, next_fault. msimpl.
  by destruct (fl (length h)).
Qed.

(** When the extracted pair is what the target already stores, the run
    reads the two files and returns. *)
Lemma unchanged_run_only_reads fs fl u g um tp ap dn cert key f0 doc tls :
  fst (read_traefik tp dn (boot fs fl u g um)) = Ok (cert, key) ->
  fl 1 = None ->
  fs !! ap = Some f0 ->
  yaml_loads (content f0) = Some doc ->
  subscript (heap doc) (root doc) "tls" = Ok tls ->
  subscript (heap doc) tls "certificate_chain" = Ok (VStr cert) ->
  subscript (heap doc) tls "private_key" = Ok (VStr key) ->
  exists w',
    run tp ap dn (boot fs fl u g um) = (Ok tt, w')
    /\ files w' = fs
    /\ hist w' = [Step (SysRead tp) None fs; Step (SysRead ap) None fs].
Proof.
  intros Hres Hfl Hf0 Hcfg Htop Hcc Hpk. unfold run. msimpl.
  set (w0 := {| files := fs; faults := fl; euid := u; egid := g; umask := um;
                hist := []; log := ["Initializing..."] |}).
  assert (fst (read_traefik tp dn w0) = Ok (cert, key)) as Hres0.
  { rewrite <- Hres. by apply read_traefik_result. }
  destruct (read_traefik_world tp dn w0) as (e0 & lines0 & Hw0 & He0).
  destruct (read_traefik tp dn w0) as [r0 wa] eqn:Hrt. cbn [fst snd] in *. subst wa r0.
  pose proof (He0 _ eq_refl) as ->. cbn [fst snd].
  edestruct (write_adguardhome_clean ap cert key
               (advance w0 [Step (SysRead tp) None (files w0)] (files w0) lines0))
    as (lines & ->); try done.
  eexists. split; [reflexivity|]. done.
Qed.

(** C6.  A run whose extracted certificate and key equal the stored
    [tls.certificate_chain] and [tls.private_key] makes two reads and
    no other system call, leaves every file as it was (no backup, no
    write) and exits with status 0.  Hence a second run on the file
    system a successful run left behind, with the source unchanged and
    a YAML library that reads back the document it wrote, makes no
    write and exits with status 0. *)
Theorem unchanged_is_noop :
  (forall fs fl u g um tp ap dn cert key f0 doc tls,
      fst (read_traefik tp dn (boot fs fl u g um)) = Ok (cert, key) ->
      fl 1 = None ->
      fs !! ap = Some f0 ->
      yaml_loads (content f0) = Some doc ->
      subscript (heap doc) (root doc) "tls" = Ok tls ->
      subscript (heap doc) tls "certificate_chain" = Ok (VStr cert) ->
      subscript (heap doc) tls "private_key" = Ok (VStr key) ->
      exists w',
        run tp ap dn (boot fs fl u g um) = (Ok tt, w')
        /\ exit_code (fst (run tp ap dn (boot fs fl u g um))) = 0
        /\ files w' = fs
        /\ hist w' = [Step (SysRead tp) None fs; Step (SysRead ap) None fs])
  /\ (forall fs fl fl2 u g um tp ap dn w1 cert key f0 doc l m,
      run tp ap dn (boot fs fl u g um) = (Ok tt, w1) ->
      fst (read_traefik tp dn (boot fs fl u g um)) = Ok (cert, key) ->
      fs !! ap = Some f0 ->
      yaml_loads (content f0) = Some doc ->
      subscript (heap doc) (root doc) "tls" = Ok (VRef l) ->
      heap doc !! l = Some (ODict m) ->
      (let written :=
         Document
           (<[l := ODict (<["private_key" := VStr key]>
                            (<["certificate_chain" := VStr cert]> m))]> (heap doc))
           (root doc) in
       yaml_loads (yaml_dumps written) = Some written) ->
      files w1 !! tp = fs !! tp ->
      fl2 0 = None ->
      fl2 1 = None ->
      exists w2,
        run tp ap dn (boot (files w1) fl2 u g um) = (Ok tt, w2)
        /\ exit_code (fst (run tp ap dn (boot (files w1) fl2 u g um))) = 0
        /\ files w2 = files w1
        /\ hist w2 = [Step (SysRead tp) None (files w1); Step (SysRead ap) None (files w1)]).
Proof.
  split.
  - intros fs fl u g um tp ap dn cert key f0 doc tls Hres Hfl Hf0 Hcfg Htop Hcc Hpk.
    destruct (unchanged_run_only_reads _ _ u g um _ _ _ _ _ _ _ _ Hres Hfl Hf0 Hcfg Htop Hcc Hpk)
      as (w' & Hrun & Hfiles & Hh).
    exists w'. rewrite Hrun. done.
  - intros fs fl fl2 u g um tp ap dn w1 cert key f0 doc l m Hrun Hres Hf0 Hcfg Htop Hl Hrt
      Hsrc Hfl0 Hfl1.
    assert (fst (read_traefik tp dn (boot (files w1) fl2 u g um)) = Ok (cert, key)) as Hres2.
    { rewrite <- Hres. apply read_traefik_result; [|done].
      apply read_traefik_Ok_fault in Hres. unfold next_fault in *. cbn in *. congruence. }
    assert (exists f1 doc1 tls1,
               files w1 !! ap = Some f1
               /\ yaml_loads (content f1) = Some doc1
               /\ subscript (heap doc1) (root doc1) "tls" = Ok tls1
               /\ subscript (heap doc1) tls1 "certificate_chain" = Ok (VStr cert)
               /\ subscript (heap doc1) tls1 "private_key" = Ok (VStr key))
      as (f1 & doc1 & tls1 & Hf1 & Hcfg1 & Htop1 & Hcc1 & Hpk1).
    { apply run_shape in Hrun as
        [(Hfs & _ & Hok)
        |(cert' & key' & f0' & doc' & l' & m' & oc & ok & wa & wb & Hres' & Hf0' & Hcfg'
          & Htop' & Hl' & Hcc & Hpk & Hne & Hfs & Hh1 & _ & _ & _ & _ & Hc & Hfiles & Hh)].
      - destruct (Hok eq_refl) as (cert' & key' & f0' & doc' & l' & m' & Hres' & _ & Hf0'
                                   & Hcfg' & Htop' & Hl' & Hcc & Hpk).
        rewrite Hres in Hres'. injection Hres' as <- <-.
        rewrite Hfs. exists f0', doc', (VRef l').
        repeat (split; [done|]).
        by rewrite !(subscript_ref _ _ _ _ Hl'), Hcc, Hpk.
      - rewrite Hres in Hres'. injection Hres' as <- <-.
        rewrite Hf0 in Hf0'. injection Hf0' as <-.
        rewrite Hcfg in Hcfg'. injection Hcfg' as <-.
        rewrite Htop in Htop'. injection Htop' as <-.
        rewrite Hl in Hl'. injection Hl' as <-.
        assert (files wa !! ap = Some f0) as Hfa by (by rewrite Hfs).
        destruct (commit_Ok _ _ _ _ _ Hfa Hc) as (Hfin & _).
        rewrite (assign_both _ _ _ _ _ Hcc Hpk) in Hfin.
        rewrite Hfiles, Hfin. do 2 eexists. exists (VRef l).
        split; [reflexivity|]. cbn [content].
        split; [exact Hrt|]. cbn [heap root].
        split.
        { rewrite (subscript_after_update _ _ m); [done|done|].
          by rewrite !lookup_insert_ne. }
        cbn [subscript]. rewrite lookup_insert_eq.
        split; [by rewrite lookup_insert_ne, lookup_insert_eq|by rewrite lookup_insert_eq]. }
    destruct (unchanged_run_only_reads _ _ u g um _ _ _ _ _ _ _ _
                Hres2 Hfl1 Hf1 Hcfg1 Htop1 Hcc1 Hpk1) as (w2 & Hrun2 & Hfiles2 & Hh2).
    exists w2. rewrite Hrun2. done.
Qed.

End claims.

(* ===================================================================== *)
(** ** Selecting the certificate *)
(* ===================================================================== *)

Section selection.
Context `{Libraries}.

(** On a store without records and without a selector, the subscript
    [Certificates[0]] raises before the test that would report the
    empty store is reached. *)
Lemma read_traefik_empty_store fs fl u g um tp dn src acme :
  fs !! tp = Some src ->
  fl 0 = None ->
  json_loads (content src) = Some acme ->
  store_view acme = Some [] ->
  blank dn = true ->
  fst (read_traefik tp dn (boot fs fl u g um)) = Raise IndexError.
Proof.
  intros Hsrc Hfl Hjson Hstore Hblank.
  destruct (store_view_fields _ _ Hstore) as (le & ds & Hle & Hds & Hall).
  apply Forall2_nil_inv_r in Hall as ->.
  unfold read_traefik. msimpl.
  rewrite Hfl, Hsrc. msimpl. rewrite Hjson, Hblank. msimpl.
  rewrite Hle. msimpl. rewrite Hds. msimpl. reflexivity.
Qed.

(** C3.  With a selector that is neither empty nor blank, extraction
    takes the first record, in stored order, whose main domain is the
    selector character for character, wherever it stands in the store,
    and returns its decoded credential; when no record has that domain
    it exits with the message that names the selector. *)
Theorem selector_takes_first_exact_match fs fl u g um tp dn src acme rs :
  fs !! tp = Some src ->
  fl 0 = None ->
  json_loads (content src) = Some acme ->
  store_view acme = Some rs ->
  blank dn = false ->
  (forall pre r post,
      rs = pre ++ r :: post ->
      Forall (fun x => domain x <> dn) pre ->
      domain r = dn ->
      fst (read_traefik tp dn (boot fs fl u g um)) = credential_of r)
  /\ (Forall (fun x => domain x <> dn) rs ->
      fst (read_traefik tp dn (boot fs fl u g um)) =
        Raise (SystemExit ("Could not find any certificate for domain " +:+ dn))
      /\ NotFoundError (SystemExit ("Could not find any certificate for domain " +:+ dn))
         = true).
Proof.
  intros Hsrc Hfl Hjson Hstore Hblank.
  destruct (read_traefik_search _ _ u g um _ _ _ _ _ Hsrc Hfl Hjson Hstore Hblank)
    as (ds & Hall & ->).
  split.
  - intros pre r post -> Hpre Hr.
    destruct (next_certificate_found _ _ _ _ _ Hall Hpre Hr) as (d & -> & ->). done.
  - intros Hnone. by rewrite (next_certificate_none _ _ _ Hall Hnone).
Qed.

(** C4.  Without a selector, on a store with at least one record,
    extraction returns the decoded credential of the first record in
    stored order: its certificate and its key, each decoded from
    base64 and then from UTF-8. *)
Theorem no_selector_takes_first_record fs fl u g um tp dn src acme r rest :
  fs !! tp = Some src ->
  fl 0 = None ->
  json_loads (content src) = Some acme ->
  store_view acme = Some (r :: rest) ->
  blank dn = true ->
  fst (read_traefik tp dn (boot fs fl u g um)) = credential_of r
  /\ (forall cert_bytes cert key_bytes private_key,
        b64decode (certificate r) = Some cert_bytes ->
        utf8_decode cert_bytes = Some cert ->
        b64decode (key r) = Some key_bytes ->
        utf8_decode key_bytes = Some private_key ->
        fst (read_traefik tp dn (boot fs fl u g um)) = Ok (cert, private_key)).
Proof.
  intros Hsrc Hfl Hjson Hstore Hblank.
  rewrite (read_traefik_first _ _ u g um _ _ _ _ _ _ Hsrc Hfl Hjson Hstore Hblank).
  split; [done|].
  intros cb c kb k Hcb Hc Hkb Hk. unfold credential_of, b64decode_utf8.
  by rewrite Hcb, Hc, Hkb, Hk.
Qed.

End selection.

(* ===================================================================== *)
(** ** The examples *)
(* ===================================================================== *)

Section examples.
Import fixture.

(** C2 (the code departs from the claim).  On a store without records
    and without a selector, or with a blank one, [read_traefik] does not
    end with the exit that reports that [acme.json] has no certificate:
    the subscript [Certificates[0]] raises [IndexError] first. *)
Theorem empty_store_raises_IndexError :
  store_view (acme []) = Some []
  /\ fst (read_traefik tp "" (boot (disk acme_none old_yaml) no_faults 0 0 18))
     = Raise IndexError
  /\ fst (read_traefik tp " " (boot (disk acme_none old_yaml) no_faults 0 0 18))
     = Raise IndexError
  /\ NotFoundError IndexError = false
  /\ fst (scenario acme_none old_yaml "" no_faults) = Raise IndexError
  /\ files (snd (scenario acme_none old_yaml "" no_faults)) = disk acme_none old_yaml.
Proof.
  assert (forall dn, blank dn = true ->
            fst (read_traefik tp dn (boot (disk acme_none old_yaml) no_faults 0 0 18))
            = Raise IndexError) as Hgen.
  { intros dn Hdn.
    by apply (read_traefik_empty_store _ _ _ _ _ _ _ (source_file acme_none) (acme [])). }
  split; [done|]. split; [by apply Hgen|]. split; [by apply Hgen|]. split; [done|].
  split; vm_compute; reflexivity.
Qed.

(** C8 fails as stated.  On the run that replaces OLD by CERTA with
    nothing refused, the target is empty between the open and the
    write; and when the write is refused after ten characters, the run
    leaves these ten characters in the target. *)
Lemma target_empty_between_open_and_write :
  ~ whole_old_or_new (disk acme_one old_yaml)
      (snd (scenario acme_one old_yaml "" no_faults)) ap old_yaml new_yaml
  /\ ~ whole_old_or_new (disk acme_one old_yaml)
        (snd (scenario acme_one old_yaml "" (refuse 7 (OSError 28) 10))) ap old_yaml new_yaml
  /\ content_at (files (snd (scenario acme_one old_yaml "" (refuse 7 (OSError 28) 10)))) ap
     = Some "{bind_port".
Proof.
  split; [|split].
  - intros Hall.
    specialize (Hall (moment_at (disk acme_one old_yaml)
                        (snd (scenario acme_one old_yaml "" no_faults)) 7)).
    destruct Hall as [Hc|Hc].
    + apply list_elem_of_lookup. exists 7. vm_compute. reflexivity.
    + vm_compute in Hc. discriminate Hc.
    + vm_compute in Hc. discriminate Hc.
  - intros Hall.
    specialize (Hall (files (snd (scenario acme_one old_yaml "" (refuse 7 (OSError 28) 10))))).
    destruct Hall as [Hc|Hc].
    + apply list_elem_of_lookup. exists 8. vm_compute. reflexivity.
    + vm_compute in Hc. discriminate Hc.
    + vm_compute in Hc. discriminate Hc.
  - vm_compute. reflexivity.
Qed.

Lemma run_pair (source target dn : string) (fl : nat -> option fault) :
  run tp ap dn (boot (disk source target) fl 0 0 18)
  = (fst (scenario source target dn fl), snd (scenario source target dn fl)).
Proof. unfold scenario. by destruct (run _ _ _ _). Defined.

Lemma backup_precedes_write_witness :
  let w' := snd (scenario acme_one old_yaml "" no_faults) in
  let st := step_at w' 6 in
  hist w' !! 6 = Some st
  /\ after st !! ap <> disk acme_one old_yaml !! ap
  /\ exists old j sb,
       content_at (disk acme_one old_yaml) ap = Some old
       /\ content_at (after st) (backup_path ap) = Some old
       /\ j < 6
       /\ hist w' !! j = Some (Step (SysCopystat ap (backup_path ap)) None sb)
       /\ sb !! ap = disk acme_one old_yaml !! ap
       /\ content_at sb (backup_path ap) = Some old.
Proof.
  intros w' st.
  assert (hist w' !! 6 = Some st) as Hi by (vm_compute; reflexivity).
  assert (after st !! ap <> disk acme_one old_yaml !! ap) as Hd
    by (vm_compute; discriminate).
  split; [exact Hi|]. split; [exact Hd|].
  exact (backup_precedes_write _ _ _ _ _ _ _ _ _ _ _ _
           (run_pair acme_one old_yaml "" no_faults) Hi Hd).
Defined.

Lemma target_old_or_prefix_of_new_witness :
  let fl := refuse 7 (OSError 28) 10 in
  let r := fst (scenario acme_one old_yaml "" fl) in
  let w' := snd (scenario acme_one old_yaml "" fl) in
  r = Raise (OSError 28)
  /\ content_at (files w') ap = Some "{bind_port"
  /\ exists doc,
       (forall s, s ∈ moments (disk acme_one old_yaml) w' ->
          content_at s ap = content_at (disk acme_one old_yaml) ap
          \/ (exists c old,
                content_at s ap = Some c
                /\ String.prefix c (yaml_dumps doc) = true
                /\ content_at (disk acme_one old_yaml) ap = Some old
                /\ content_at s (backup_path ap) = Some old))
       /\ (forall i data e s, hist w' !! i = Some (Step (SysWrite ap data) e s) ->
             data = yaml_dumps doc
             /\ exists j sj,
                  j < i
                  /\ hist w' !! j = Some (Step (SysCreate ap) None sj)
                  /\ content_at sj ap = Some EmptyString)
       /\ (forall i data s, hist w' !! i = Some (Step (SysWrite ap data) None s) ->
             content_at s ap = Some (yaml_dumps doc)
             /\ content_at (files w') ap = Some (yaml_dumps doc)
             /\ forall j st, i <= j -> hist w' !! j = Some st ->
                   content_at (after st) ap = Some (yaml_dumps doc))
       /\ (forall i data e s,
             hist w' !! i = Some (Step (SysWrite ap data) (Some e) s) ->
             r = Raise e
             /\ files w' = s
             /\ S i = length (hist w')
             /\ exists f,
                  fl i = Some f
                  /\ err f = e
                  /\ content_at s ap = Some (str_take (written f) (yaml_dumps doc))).
Proof.
  intros fl r w'. split; [vm_compute; reflexivity|]. split; [vm_compute; reflexivity|].
  exact (target_old_or_prefix_of_new _ _ _ _ _ _ _ _ _ _
           (run_pair acme_one old_yaml "" (refuse 7 (OSError 28) 10))).
Defined.

Lemma permissions_after_write_witness :
  let w' := snd (scenario acme_one old_yaml "" no_faults) in
  let r := fst (scenario acme_one old_yaml "" no_faults) in
  let w2 := snd (scenario acme_one old_yaml "" (refuse 8 PermissionError 0)) in
  let r2 := fst (scenario acme_one old_yaml "" (refuse 8 PermissionError 0)) in
  hist w' !! 7 = Some (Step (SysWrite ap new_yaml) None (after (step_at w' 7)))
  /\ (r = Ok tt
      /\ exit_code r = 0
      /\ files w' !! ap =
           Some {| content := new_yaml; mode := mode_0o644; uid := 0; gid := 0 |})
  /\ hist w2 !! 7 = Some (Step (SysWrite ap new_yaml) None (after (step_at w2 7)))
  /\ exists f0,
       disk acme_one old_yaml !! ap = Some f0
       /\ r2 = Raise PermissionError
       /\ exit_code r2 = 1
       /\ last (hist w2)
          = Some (Step (SysChmod ap mode_0o644) (Some PermissionError) (files w2))
       /\ files w2 !! ap =
            Some {| content := new_yaml; mode := mode f0; uid := uid f0; gid := gid f0 |}.
Proof.
  intros w' r w2 r2.
  assert (hist w' !! 7 = Some (Step (SysWrite ap new_yaml) None (after (step_at w' 7))))
    as Hi by (vm_compute; reflexivity).
  assert (hist w2 !! 7 = Some (Step (SysWrite ap new_yaml) None (after (step_at w2 7))))
    as Hi2 by (vm_compute; reflexivity).
  split; [exact Hi|]. split.
  - exact (proj1 (proj2 (permissions_after_write _ _ _ _ _ _ _ _ _ _ _ _ _
                           (run_pair acme_one old_yaml "" no_faults) Hi))
             eq_refl eq_refl).
  - split; [exact Hi2|].
    exact (proj1 (proj2 (proj2 (permissions_after_write _ _ _ _ _ _ _ _ _ _ _ _ _
                                  (run_pair acme_one old_yaml ""
                                     (refuse 8 PermissionError 0)) Hi2)))
             (Fault PermissionError 0) eq_refl).
Defined.

Lemma chown_refused_after_chmod_witness :
  let w' := snd (scenario acme_one old_yaml "" (refuse 9 PermissionError 0)) in
  let r := fst (scenario acme_one old_yaml "" (refuse 9 PermissionError 0)) in
  disk acme_one old_yaml !! ap = Some (target_file old_yaml)
  /\ hist w' !! 9 = Some (Step (SysChown ap 0 0) (Some PermissionError) (files w'))
  /\ exists data j k s1 s2,
       r = Raise PermissionError
       /\ j < k /\ k < 9
       /\ hist w' !! j = Some (Step (SysWrite ap data) None s1)
       /\ hist w' !! k = Some (Step (SysChmod ap mode_0o644) None s2)
       /\ files w' !! ap =
            Some {| content := data; mode := mode_0o644;
                    uid := uid (target_file old_yaml); gid := gid (target_file old_yaml) |}.
Proof.
  intros w' r.
  assert (disk acme_one old_yaml !! ap = Some (target_file old_yaml)) as Hf
    by (vm_compute; reflexivity).
  assert (hist w' !! 9 = Some (Step (SysChown ap 0 0) (Some PermissionError) (files w')))
    as Hi by (vm_compute; reflexivity).
  split; [exact Hf|]. split; [exact Hi|].
  exact (chown_refused_after_chmod _ _ _ _ _ _ _ _ _ _ _ _ _ _
           (run_pair acme_one old_yaml "" (refuse 9 PermissionError 0)) Hf Hi).
Defined.

(** C7 fails as stated.  In a document whose [mirror] field is an
    alias of the [tls] section, the loader builds one mapping for both,
    and the assignments to [tls] change it: the document written has
    the new certificate under [mirror] as well, a field other than the
    two of [tls] that has not kept its value. *)
Lemma alias_of_tls_is_rewritten :
  let loaded := mirrored "OLD" "OLDKEY" in
  let written := mirrored "CERTA" "KEYA" in
  let w' := snd (scenario acme_one old_mirrored_yaml "" no_faults) in
  yaml_loads old_mirrored_yaml = Some loaded
  /\ subscript (heap loaded) (root loaded) "tls" = Ok (VRef 3)
  /\ subscript (heap loaded) (root loaded) "mirror" = Ok (VRef 3)
  /\ written =
       Document
         (<[3 := ODict (<["private_key" := VStr "KEYA"]>
                          (<["certificate_chain" := VStr "CERTA"]>
                             (adguardhome_tls "OLD" "OLDKEY")))]> (heap loaded))
         (root loaded)
  /\ fst (scenario acme_one old_mirrored_yaml "" no_faults) = Ok tt
  /\ call <$> hist w' !! 7 = Some (SysWrite ap (yaml_dumps written))
  /\ content_at (files w') ap = Some (yaml_dumps written)
  /\ field loaded ["mirror"; "certificate_chain"] = Ok (VStr "OLD")
  /\ field written ["mirror"; "certificate_chain"] = Ok (VStr "CERTA")
  /\ ~ other_fields_preserved loaded written.
Proof.
  intros loaded written w'.
  repeat (split; [vm_compute; reflexivity|]).
  intros Hkept.
  specialize (Hkept ["mirror"; "certificate_chain"]).
  vm_compute in Hkept. by specialize (Hkept ltac:(discriminate) ltac:(discriminate)).
Qed.

Lemma write_sets_changed_fields_witness :
  let fs := disk acme_one old_mirrored_yaml in
  let r := fst (scenario acme_one old_mirrored_yaml "" no_faults) in
  let w' := snd (scenario acme_one old_mirrored_yaml "" no_faults) in
  let data := yaml_dumps (mirrored "CERTA" "KEYA") in
  let s := after (step_at w' 7) in
  hist w' !! 7 = Some (Step (SysWrite ap data) None s)
  /\ exists cert key f0 doc l m oc ok m' written,
       fst (read_traefik tp "" (boot fs no_faults 0 0 18)) = Ok (cert, key)
       /\ fs !! ap = Some f0
       /\ yaml_loads (content f0) = Some doc
       /\ subscript (heap doc) (root doc) "tls" = Ok (VRef l)
       /\ heap doc !! l = Some (ODict m)
       /\ m !! "certificate_chain" = Some (VStr oc)
       /\ m !! "private_key" = Some (VStr ok)
       /\ (oc <> cert \/ ok <> key)
       /\ m' = assign (ne_str (VStr ok) key) "private_key" key
                 (assign (ne_str (VStr oc) cert) "certificate_chain" cert m)
       /\ written = Document (<[l := ODict m']> (heap doc)) (root doc)
       /\ data = yaml_dumps written
       /\ content_at s ap = Some data
       /\ content_at (files w') ap = Some data
       /\ field written ["tls"; "certificate_chain"] = Ok (VStr cert)
       /\ field written ["tls"; "private_key"] = Ok (VStr key)
       /\ (forall k, k <> "certificate_chain" -> k <> "private_key" -> m' !! k = m !! k)
       /\ (forall l', l' <> l -> heap written !! l' = heap doc !! l')
       /\ root written = root doc
       /\ (forall path,
             l ∉ visited (heap doc) (root doc) path ->
             field written path = field doc path)
       /\ (forall path,
             l ∉ visited (heap doc) (root doc) path ->
             field doc path = Ok (VRef l) ->
             field written (path ++ ["certificate_chain"]) = Ok (VStr cert)
             /\ field written (path ++ ["private_key"]) = Ok (VStr key)).
Proof.
  intros fs r w' data s.
  assert (hist w' !! 7 = Some (Step (SysWrite ap data) None s))
    as Hi by (vm_compute; reflexivity).
  split; [exact Hi|].
  exact (write_sets_changed_fields _ _ _ _ _ _ _ _ _ _ _ _ _
           (run_pair acme_one old_mirrored_yaml "" no_faults) Hi).
Defined.

Lemma selector_takes_first_exact_match_witness :
  let fs := disk acme_two old_yaml in
  fs !! tp = Some (source_file acme_two)
  /\ json_loads (content (source_file acme_two)) = Some (acme [a_record; b_record])
  /\ store_view (acme [a_record; b_record]) = Some [a_record; b_record]
  /\ blank "b.example" = false
  /\ fst (read_traefik tp "b.example" (boot fs no_faults 0 0 18)) = credential_of b_record
  /\ credential_of b_record = Ok ("CERTB", "KEYB")
  /\ fst (read_traefik tp "c.example" (boot fs no_faults 0 0 18))
     = Raise (SystemExit "Could not find any certificate for domain c.example").
Proof.
  intros fs.
  assert (fs !! tp = Some (source_file acme_two)) as H1 by (vm_compute; reflexivity).
  assert (json_loads (content (source_file acme_two)) = Some (acme [a_record; b_record]))
    as H2 by (vm_compute; reflexivity).
  assert (store_view (acme [a_record; b_record]) = Some [a_record; b_record]) as H3
    by (vm_compute; reflexivity).
  assert (blank "b.example" = false) as H4 by reflexivity.
  assert (blank "c.example" = false) as H5 by reflexivity.
  pose proof (selector_takes_first_exact_match fs no_faults 0 0 18 tp "b.example"
                _ _ _ H1 eq_refl H2 H3 H4) as [Hfound _].
  pose proof (selector_takes_first_exact_match fs no_faults 0 0 18 tp "c.example"
                _ _ _ H1 eq_refl H2 H3 H5) as [_ Hnone].
  split; [exact H1|]. split; [exact H2|]. split; [exact H3|]. split; [exact H4|].
  split; [|split].
  - apply (Hfound [a_record] b_record []); [reflexivity| |reflexivity].
    apply Forall_cons; split; [discriminate|apply Forall_nil_2].
  - vm_compute. reflexivity.
  - apply Hnone. repeat (apply Forall_cons; split; [discriminate|]). apply Forall_nil_2.
Defined.

Lemma no_selector_takes_first_record_witness :
  let fs := disk acme_two old_yaml in
  fs !! tp = Some (source_file acme_two)
  /\ json_loads (content (source_file acme_two)) = Some (acme [a_record; b_record])
  /\ store_view (acme [a_record; b_record]) = Some [a_record; b_record]
  /\ blank "" = true
  /\ b64decode (certificate a_record) = Some "CERTA"
  /\ utf8_decode "CERTA" = Some "CERTA"
  /\ b64decode (key a_record) = Some "KEYA"
  /\ utf8_decode "KEYA" = Some "KEYA"
  /\ fst (read_traefik tp "" (boot fs no_faults 0 0 18)) = Ok ("CERTA", "KEYA").
Proof.
  intros fs.
  assert (fs !! tp = Some (source_file acme_two)) as H1 by (vm_compute; reflexivity).
  assert (json_loads (content (source_file acme_two)) = Some (acme [a_record; b_record]))
    as H2 by (vm_compute; reflexivity).
  assert (store_view (acme [a_record; b_record]) = Some [a_record; b_record]) as H3
    by (vm_compute; reflexivity).
  assert (blank "" = true) as H4 by reflexivity.
  assert (b64decode (certificate a_record) = Some "CERTA") as H5 by (vm_compute; reflexivity).
  assert (utf8_decode "CERTA" = Some "CERTA") as H6 by (vm_compute; reflexivity).
  assert (b64decode (key a_record) = Some "KEYA") as H7 by (vm_compute; reflexivity).
  assert (utf8_decode "KEYA" = Some "KEYA") as H8 by (vm_compute; reflexivity).
  repeat (split; [assumption|]).
  exact (proj2 (no_selector_takes_first_record fs no_faults 0 0 18 tp ""
                  _ _ _ _ H1 eq_refl H2 H3 H4) _ _ _ _ H5 H6 H7 H8).
Defined.

Lemma unchanged_is_noop_witness :
  (exists w',
      scenario acme_one new_yaml "" no_faults = (Ok tt, w')
      /\ exit_code (fst (scenario acme_one new_yaml "" no_faults)) = 0
      /\ files w' = disk acme_one new_yaml
      /\ hist w' = [Step (SysRead tp) None (disk acme_one new_yaml);
                    Step (SysRead ap) None (disk acme_one new_yaml)])
  /\ (let w1 := snd (scenario acme_one old_yaml "" no_faults) in
      content_at (files w1) ap = Some new_yaml
      /\ exists w2,
           run tp ap "" (boot (files w1) no_faults 0 0 18) = (Ok tt, w2)
           /\ exit_code (fst (run tp ap "" (boot (files w1) no_faults 0 0 18))) = 0
           /\ files w2 = files w1
           /\ hist w2 = [Step (SysRead tp) None (files w1); Step (SysRead ap) None (files w1)]).
Proof.
  split.
  - apply (proj1 unchanged_is_noop (disk acme_one new_yaml) no_faults 0%N 0%N 18%N tp ap ""
             "CERTA" "KEYA" (target_file new_yaml)
             (adguardhome "CERTA" "KEYA") (VRef 3));
      vm_compute; reflexivity.
  - intros w1. split; [vm_compute; reflexivity|].
    apply (proj2 unchanged_is_noop (disk acme_one old_yaml) no_faults no_faults 0%N 0%N 18%N tp ap ""
             w1 "CERTA" "KEYA" (target_file old_yaml)
             (adguardhome "OLD" "OLDKEY") 3 (adguardhome_tls "OLD" "OLDKEY"));
      vm_compute; reflexivity.
Defined.

End examples.

(* ===================================================================== *)
(** ** More on the backup path *)
(* ===================================================================== *)

Section backup_paths.
Import posixpath.

Lemma rstrip_ends c l :
  rstrip c l = [] \/ exists z, last (rstrip c l) = Some z /\ z <> c.
Proof.
  induction l as [|x r IH]; simpl; [by left|].
  destruct (rstrip c r) as [|y r'] eqn:E.
  - destruct (Ascii.eqb x c) eqn:Ex; [by left|].
    right. exists x. split; [done|]. by apply Ascii.eqb_neq.
  - right. destruct IH as [|IH]; [done|]. by rewrite last_cons_cons.
Qed.

Lemma rstrip_fixed c l z : last l = Some z -> z <> c -> rstrip c l = l.
Proof.
  induction l as [|x r IH]; [done|]. intros Hl Hz.
  destruct r as [|y r'].
  - simpl in *. injection Hl as ->. apply Ascii.eqb_neq in Hz. by rewrite Hz.
  - rewrite last_cons_cons in Hl. specialize (IH Hl Hz).
    change (rstrip c (x :: y :: r')) with
      (match rstrip c (y :: r') with
       | [] => if Ascii.eqb x c then [] else [x]
       | r'' => x :: r''
       end).
    by rewrite IH.
Qed.

Lemma rstrip_snoc c l : rstrip c (l ++ [c]) = rstrip c l.
Proof.
  induction l as [|x r IH]; simpl; [by rewrite Ascii.eqb_refl|]. by rewrite IH.
Qed.

Lemma rstrip_all c l : forallb (fun x => Ascii.eqb x c) l = true -> rstrip c l = [].
Proof.
  induction l as [|x r IH]; simpl; [done|].
  intros [Hx Hr]%andb_true_iff. by rewrite (IH Hr), Hx.
Qed.

Lemma rstrip_not_all c l :
  forallb (fun x => Ascii.eqb x c) l = false -> rstrip c l <> [].
Proof.
  induction l as [|x r IH]; simpl; [done|].
  intros Hf. destruct (rstrip c r) as [|y r'] eqn:E; [|done].
  destruct (Ascii.eqb x c) eqn:Ex; [|done].
  simpl in Hf. exfalso. by apply IH.
Qed.

Lemma all_sep_last l z : all_sep l = true -> last l = Some z -> z = SEP.
Proof.
  unfold all_sep. intros Ha (l' & ->)%last_Some.
  rewrite forallb_app in Ha. apply andb_true_iff in Ha as [_ Ha].
  simpl in Ha. rewrite andb_true_r in Ha. by apply Ascii.eqb_eq.
Qed.

(** The directory part [split] returns is empty, made of separators
    only, or ends with something else than a separator. *)
Lemma split_l_head p :
  (split_l p).1 = []
  \/ ((split_l p).1 <> [] /\ all_sep (split_l p).1 = true)
  \/ exists z, last (split_l p).1 = Some z /\ z <> SEP.
Proof.
  unfold split_l. cbn [fst].
  destruct (take _ p) as [|x h'] eqn:E; [by left|].
  destruct (all_sep (x :: h')) eqn:Ea; [right; by left|].
  right. right. destruct (rstrip_ends SEP (x :: h')) as [Hn|Hz]; [|done].
  by apply rstrip_not_all in Ea.
Qed.

Lemma rfind_app_absent c a b :
  Forall (fun x => x <> c) b -> rfind c (a ++ b) = rfind c a.
Proof.
  intros Hb. induction a as [|x r IH]; simpl; [by apply rfind_of_absent|].
  by rewrite IH.
Qed.

Lemma split_l_join h b :
  Forall (fun x => x <> SEP) b ->
  (h = [] \/ (h <> [] /\ all_sep h = true) \/ exists z, last h = Some z /\ z <> SEP) ->
  split_l (join_l h b) = (h, b).
Proof.
  intros Hb Hh.
  assert (join_l h b =
            match last h with
            | None => h ++ b
            | Some z => if Ascii.eqb z SEP then h ++ b else h ++ SEP :: b
            end) as Hj.
  { unfold join_l. destruct b as [|c b']; [done|].
    apply Forall_cons in Hb as [Hc _]. apply Ascii.eqb_neq in Hc. by rewrite Hc. }
  rewrite Hj. clear Hj. destruct Hh as [->|[[Hne Hall]|(z & Hl & Hz)]].
  - simpl. unfold split_l. rewrite (rfind_of_absent _ _ Hb). done.
  - destruct (last h) as [z|] eqn:Hl; [|by apply last_None in Hl].
    rewrite (all_sep_last _ _ Hall Hl), Ascii.eqb_refl.
    assert (last h = Some SEP) as Hl' by (by rewrite Hl, (all_sep_last _ _ Hall Hl)).
    unfold split_l.
    rewrite (rfind_after_prefix _ _ _ Hb (or_intror Hl')), Nat2Z.id.
    rewrite take_app_length, drop_app_length.
    destruct h; [done|]. by rewrite Hall.
  - rewrite Hl. apply Ascii.eqb_neq in Hz as Hz'. rewrite Hz'.
    replace (h ++ SEP :: b) with ((h ++ [SEP]) ++ b) by (by rewrite <- app_assoc).
    unfold split_l.
    assert (last (h ++ [SEP]) = Some SEP) as Hl' by apply last_snoc.
    rewrite (rfind_after_prefix _ _ _ Hb (or_intror Hl')), Nat2Z.id.
    rewrite take_app_length, drop_app_length.
    destruct (h ++ [SEP]) as [|y r] eqn:E; [by destruct h|]. rewrite <- E.
    assert (all_sep (h ++ [SEP]) = false) as Ha.
    { unfold all_sep. rewrite forallb_app.
      destruct (forallb (λ x : ascii, Ascii.eqb x SEP) h) eqn:Eh; [|done].
      exfalso. apply Hz. by apply (all_sep_last h). }
    rewrite Ha, rstrip_snoc. by rewrite (rstrip_fixed _ _ _ Hl Hz).
Qed.

Lemma backup_name_no_sep t :
  Forall (fun x => x <> SEP) t ->
  Forall (fun x => x <> SEP)
    ((splitext_l t).1 ++ list_ascii_of_string "-backup" ++ (splitext_l t).2).
Proof.
  intros Ht. rewrite <- (splitext_l_app t) in Ht. apply Forall_app in Ht as [Hn He].
  apply Forall_app; split; [done|]. apply Forall_app; split; [|done].
  simpl. repeat constructor; by intros [=].
Qed.

Lemma string_of_list_append l1 l2 :
  string_of_list_ascii (l1 ++ l2) = string_of_list_ascii l1 +:+ string_of_list_ascii l2.
Proof. induction l1 as [|c l IH]; simpl; [done|]. by rewrite IH. Qed.

Lemma split_backup_path (p : string) :
  split (backup_path p) =
    ((split p).1,
     (splitext (split p).2).1 +:+ "-backup" +:+ (splitext (split p).2).2).
Proof.
  unfold backup_path, split, splitext, join.
  set (l := list_ascii_of_string p).
  pose proof (split_l_head l) as Hh.
  pose proof (tail_no_sep SEP l) as Ht. rewrite <- split_l_tail in Ht.
  destruct (split_l l) as [h t] eqn:Es. cbn [fst snd] in *.
  rewrite !list_ascii_of_string_of_list_ascii.
  pose proof (backup_name_no_sep t Ht) as Hb.
  destruct (splitext_l t) as [n e] eqn:Ex. cbn [fst snd] in *.
  rewrite !list_ascii_of_append, !list_ascii_of_string_of_list_ascii.
  rewrite (split_l_join _ _ Hb Hh).
  by rewrite !string_of_list_append, string_of_list_ascii_of_string.
Qed.

(** X1.  The backup path lies in the directory of the target: [split]
    takes it apart into the directory part of the target and the file
    name of the target with [-backup] put before its extension; and it
    is never the path of the target. *)
Theorem backup_is_sibling (p : string) :
  split (backup_path p) =
    ((split p).1,
     (splitext (split p).2).1 +:+ "-backup" +:+ (splitext (split p).2).2)
  /\ backup_path p <> p.
Proof. split; [apply split_backup_path|apply backup_path_neq]. Qed.

Lemma rfind_hit c l :
  (0 <= rfind c l)%Z -> l !! Z.to_nat (rfind c l) = Some c.
Proof.
  induction l as [|x r IH]; simpl; [lia|].
  destruct (0 <=? rfind c r)%Z eqn:E.
  - apply Z.leb_le in E. intros _.
    replace (Z.to_nat (rfind c r + 1)) with (S (Z.to_nat (rfind c r))) by lia.
    by apply IH.
  - destruct (Ascii.eqb x c) eqn:Ex; [|lia].
    intros _. apply Ascii.eqb_eq in Ex. by subst.
Qed.

(** Taking the extension of a file name with [-backup] put before its
    extension gives that extension again. *)
Lemma splitext_l_backup t :
  Forall (fun x => x <> SEP) t ->
  splitext_l ((splitext_l t).1 ++ list_ascii_of_string "-backup" ++ (splitext_l t).2)
  = ((splitext_l t).1 ++ list_ascii_of_string "-backup", (splitext_l t).2).
Proof.
  intros Ht. set (B := list_ascii_of_string "-backup").
  assert (Forall (fun x => x <> SEP) B) as HBs by (repeat constructor; by intros [=]).
  assert (Forall (fun x => x <> EXTSEP) B) as HBd by (repeat constructor; by intros [=]).
  assert (length B = 7) as HBl by done.
  assert (existsb (fun x => negb (Ascii.eqb x EXTSEP)) B = true) as HBe by done.
  pose proof (backup_name_no_sep t Ht) as Hnew. fold B in Hnew.
  pose proof (rfind_of_absent _ _ Ht) as Hsep.
  pose proof (rfind_lower EXTSEP t) as Hlow.
  unfold splitext_l at 1. rewrite (rfind_of_absent _ _ Hnew).
  unfold splitext_l in *. rewrite Hsep in *.
  change (Z.to_nat (-1 + 1)) with 0 in *. rewrite drop_0, Nat.sub_0_r in *.
  set (d := rfind EXTSEP t) in *.
  destruct (-1 <? d)%Z eqn:Ed.
  - apply Z.ltb_lt in Ed.
    destruct (existsb _ (take (Z.to_nat d) t)) eqn:Ex; cbn [fst snd] in *.
    + assert (drop (Z.to_nat d) t = EXTSEP :: drop (S (Z.to_nat d)) t) as He.
      { apply drop_S. apply rfind_hit. fold d. lia. }
      assert (Forall (fun x => x <> EXTSEP) (drop (S (Z.to_nat d)) t)) as He'.
      { pose proof (tail_no_sep EXTSEP t) as Hn. fold d in Hn.
        by replace (Z.to_nat (d + 1)) with (S (Z.to_nat d)) in Hn by lia. }
      rewrite He.
      set (n := take (Z.to_nat d) t) in *. set (e' := drop (S (Z.to_nat d)) t) in *.
      assert (rfind EXTSEP (n ++ B ++ EXTSEP :: e') = Z.of_nat (length (n ++ B))) as Hd.
      { replace (n ++ B ++ EXTSEP :: e') with (((n ++ B) ++ [EXTSEP]) ++ e')
          by (by rewrite <- !app_assoc).
        pose proof (rfind_after_prefix EXTSEP ((n ++ B) ++ [EXTSEP]) e' He'
                      (or_intror (last_snoc _ _))) as Hr.
        rewrite length_app in Hr. simpl in Hr. lia. }
      rewrite Hd, drop_0, Nat.sub_0_r, Nat2Z.id.
      assert ((-1 <? Z.of_nat (length (n ++ B)))%Z = true) as -> by (apply Z.ltb_lt; lia).
      replace (n ++ B ++ EXTSEP :: e') with ((n ++ B) ++ EXTSEP :: e')
        by (by rewrite <- app_assoc).
      rewrite take_app_length, drop_app_length, existsb_app, Ex. done.
    + rewrite app_nil_r, (rfind_app_absent _ _ _ HBd). fold d.
      assert ((-1 <? d)%Z = true) as -> by (by apply Z.ltb_lt).
      rewrite drop_0, Nat.sub_0_r.
      assert (Z.to_nat d <= length t) as Hlen.
      { assert (is_Some (t !! Z.to_nat d)) as Hs
          by (exists EXTSEP; apply rfind_hit; fold d; lia).
        apply lookup_lt_is_Some in Hs. lia. }
      rewrite take_app_le by done. by rewrite Ex.
  - cbn [fst snd]. rewrite app_nil_r, (rfind_app_absent _ _ _ HBd). fold d.
    by rewrite Ed.
Qed.

(** X2.  The backup keeps the extension of the target: [splitext] takes
    the file name of the backup apart into the name of the target
    followed by [-backup], and the extension of the target. *)
Theorem backup_keeps_extension (p : string) :
  splitext (split (backup_path p)).2 =
    ((splitext (split p).2).1 +:+ "-backup", (splitext (split p).2).2).
Proof.
  rewrite split_backup_path. cbn [snd].
  unfold split, splitext.
  set (l := list_ascii_of_string p).
  pose proof (tail_no_sep SEP l) as Ht. rewrite <- split_l_tail in Ht.
  destruct (split_l l) as [h t] eqn:Es. cbn [fst snd] in *.
  rewrite !list_ascii_of_string_of_list_ascii.
  pose proof (splitext_l_backup t Ht) as Hx.
  destruct (splitext_l t) as [n e] eqn:Ex. cbn [fst snd] in *.
  rewrite !list_ascii_of_append, !list_ascii_of_string_of_list_ascii, Hx.
  by rewrite string_of_list_append, string_of_list_ascii_of_string.
Qed.

End backup_paths.

(* ===================================================================== *)
(** ** The preview in the log, and the style of the dump *)
(* ===================================================================== *)

Section lines.

Lemma append_cons x (a b : string) : String x a +:+ b = String x (a +:+ b).
Proof. reflexivity. Qed.

Lemma append_assoc (a b c : string) : (a +:+ b) +:+ c = a +:+ (b +:+ c).
Proof. induction a as [|x a IH]; [done|]. rewrite !append_cons. by f_equal. Qed.

Lemma append_empty_r (a : string) : a +:+ EmptyString = a.
Proof. induction a as [|x a IH]; [done|]. rewrite append_cons. by f_equal. Qed.

Lemma str_split_line a b :
  no_char (fun c => Ascii.eqb c LF) a = true ->
  str_split LF (a +:+ String LF b) = a :: str_split LF b.
Proof.
  unfold no_char. induction a as [|x a IH]; [done|].
  rewrite append_cons. simpl.
  intros [Hx Ha]%andb_true_iff. apply negb_true_iff in Hx. rewrite Hx.
  by rewrite (IH Ha).
Qed.

Lemma str_split_single a :
  no_char (fun c => Ascii.eqb c LF) a = true -> str_split LF a = [a].
Proof.
  unfold no_char. induction a as [|x a IH]; simpl; [done|].
  intros [Hx Ha]%andb_true_iff. apply negb_true_iff in Hx. rewrite Hx.
  by rewrite (IH Ha).
Qed.

Lemma str_split_nonempty s : str_split LF s <> [].
Proof. destruct s as [|c s]; simpl; [done|]. by repeat case_match. Qed.

(** [get_first_lines(s, 1)] is the second line of [s]. *)
Lemma get_first_lines_second first second :
  no_char (fun c => Ascii.eqb c LF) first = true ->
  no_char (fun c => Ascii.eqb c LF) second = true ->
  get_first_lines (VStr first) 1 = Ok EmptyString
  /\ get_first_lines (VStr (first +:+ String LF second)) 1 = Ok second
  /\ forall rest,
       get_first_lines (VStr (first +:+ String LF (second +:+ String LF rest))) 1 = Ok second.
Proof.
  intros Hf Hs. unfold get_first_lines. split; [|split].
  - by rewrite (str_split_single _ Hf).
  - by rewrite (str_split_line _ _ Hf), (str_split_single _ Hs).
  - intros rest. rewrite (str_split_line _ _ Hf), (str_split_line _ _ Hs).
    simpl. by destruct (str_split LF rest).
Qed.

(** X3.  The previews that [has_changed] logs are the second lines of
    the two values: when the old and the new value differ and each has
    a first line followed by a second one, the log receives the four
    lines of the check with the second line of each value between
    [Old: ] or [New: ] and the dots; the first line (the BEGIN line of
    a PEM text) is passed over, and a value of one line has an empty
    preview. *)
Theorem has_changed_logs_second_lines
    (old1 old2 old_rest new1 new2 new_rest item : string) (w : world) :
  no_char (fun c => Ascii.eqb c LF) old1 = true ->
  no_char (fun c => Ascii.eqb c LF) old2 = true ->
  no_char (fun c => Ascii.eqb c LF) new1 = true ->
  no_char (fun c => Ascii.eqb c LF) new2 = true ->
  old1 +:+ String LF (old2 +:+ String LF old_rest)
    <> new1 +:+ String LF (new2 +:+ String LF new_rest) ->
  log (snd (has_changed (VStr (old1 +:+ String LF (old2 +:+ String LF old_rest)))
              (new1 +:+ String LF (new2 +:+ String LF new_rest)) item w))
    = log w ++ ["Checking " +:+ item;
                item +:+ " has changed";
                "Old: " +:+ old2 +:+ "...";
                "New: " +:+ new2 +:+ "..."]
  /\ (old1 <> new1 ->
      log (snd (has_changed (VStr old1) new1 item w))
        = log w ++ ["Checking " +:+ item;
                    item +:+ " has changed";
                    "Old: " +:+ "...";
                    "New: " +:+ "..."]).
Proof.
  intros Ho1 Ho2 Hn1 Hn2 Hne.
  destruct (get_first_lines_second _ _ Ho1 Ho2) as (Ho & _ & Hor).
  destruct (get_first_lines_second _ _ Hn1 Hn2) as (Hn & _ & Hnr).
  split.
  - apply ne_str_spec in Hne. unfold has_changed. msimpl.
    rewrite Hne. msimpl. rewrite (Hor old_rest). msimpl. rewrite (Hnr new_rest).
    cbn [snd log]. by rewrite <- !app_assoc.
  - intros Hne1. apply ne_str_spec in Hne1. unfold has_changed. msimpl.
    rewrite Hne1. msimpl. rewrite Ho. msimpl. rewrite Hn.
    cbn [snd log]. by rewrite <- !app_assoc.
Qed.

Lemma splitlines_from_plain line a s :
  no_char is_linebreak a = true ->
  splitlines_from line (a +:+ s) = splitlines_from (line +:+ a) s.
Proof.
  unfold no_char. revert line. induction a as [|x a IH]; intros line.
  - by rewrite append_empty_r.
  - rewrite append_cons. simpl.
    intros [Hx Ha]%andb_true_iff. apply negb_true_iff in Hx. rewrite Hx.
    rewrite (IH _ Ha). by rewrite append_assoc.
Qed.

Lemma splitlines_from_nonempty line s :
  s <> EmptyString \/ line <> EmptyString -> splitlines_from line s <> [].
Proof.
  revert line. induction s as [|c r IH]; intros line Hne; simpl.
  - destruct Hne as [|Hne]; [done|]. by destruct line.
  - destruct (is_linebreak c); [by repeat case_match|].
    apply IH. right. by destruct line.
Qed.

Lemma splitlines_from_break line c r :
  is_linebreak c = true ->
  exists r',
    (r' = r \/ exists c2, r = String c2 r' /\ c = CR /\ c2 = LF)
    /\ splitlines_from line (String c r) = line :: splitlines_from EmptyString r'.
Proof.
  intros Hc. cbn [splitlines_from]. rewrite Hc. destruct r as [|c2 r2].
  - exists EmptyString. split; [by left|done].
  - destruct (Ascii.eqb c CR && Ascii.eqb c2 LF) eqn:E.
    + exists r2. split; [|done]. right. exists c2. split; [done|].
      apply andb_true_iff in E as [E1 E2]. split; by apply Ascii.eqb_eq.
    + exists (String c2 r2). split; [by left|done].
Qed.

Lemma splitlines_from_two line a b :
  b <> EmptyString ->
  2 <= length (splitlines_from line (a +:+ String LF b)).
Proof.
  intros Hb.
  assert (forall s, s <> EmptyString ->
            1 <= length (splitlines_from EmptyString s)) as Hone.
  { intros s Hs. pose proof (splitlines_from_nonempty EmptyString s (or_introl Hs)).
    destruct (splitlines_from EmptyString s); simpl; [done|lia]. }
  assert (forall a', a' +:+ String LF b <> EmptyString) as Hne by (by intros [|]).
  revert line. induction a as [|x a IH]; intros line.
  - change (EmptyString +:+ String LF b) with (String LF b).
    destruct (splitlines_from_break line LF b eq_refl)
      as (r' & [->|(c2 & _ & [=] & _)] & ->).
    cbn [length]. specialize (Hone b Hb). lia.
  - rewrite append_cons. destruct (is_linebreak x) eqn:Ex.
    + destruct (splitlines_from_break line x (a +:+ String LF b) Ex)
        as (r' & [->|(c2 & Hr & _ & ->)] & ->); cbn [length].
      * specialize (Hone _ (Hne a)). lia.
      * assert (r' <> EmptyString) as Hr'.
        { destruct a as [|y a'].
          - change (EmptyString +:+ String LF b) with (String LF b) in Hr.
            by injection Hr as <-.
          - rewrite append_cons in Hr. injection Hr as _ <-. apply Hne. }
        specialize (Hone _ Hr'). lia.
    + cbn [splitlines_from]. rewrite Ex. apply IH.
Qed.

(** X14.  The representer that [configure_yaml] registers represents
    every string with the tag [tag:yaml.org,2002:str] and with its text
    unaltered, in the default style or in the literal style [|].  It
    chooses the literal style exactly for several lines: a text without
    line break, with or without one closing newline, keeps the default
    style, and a text in which something follows a newline gets the
    style [|]. *)
Theorem str_presenter_style (a b c x : string) :
  no_char is_linebreak a = true ->
  b <> EmptyString ->
  tag (str_presenter x) = "tag:yaml.org,2002:str"
  /\ value (str_presenter x) = x
  /\ (style (str_presenter x) = None \/ style (str_presenter x) = Some "|")
  /\ style (str_presenter a) = None
  /\ style (str_presenter (a +:+ String LF EmptyString)) = None
  /\ style (str_presenter (c +:+ String LF b)) = Some "|".
Proof.
  intros Ha Hb. unfold str_presenter, splitlines.
  split; [by destruct (1 <? _)|]. split; [by destruct (1 <? _)|].
  split; [destruct (1 <? _); by (left + right)|]. repeat split.
  - rewrite <- (append_empty_r a), (splitlines_from_plain _ _ _ Ha).
    simpl. by destruct a.
  - rewrite (splitlines_from_plain _ _ _ Ha). simpl. done.
  - pose proof (splitlines_from_two EmptyString c b Hb) as H2.
    apply Nat.ltb_lt in H2. by rewrite H2.
Qed.

End lines.

(* ===================================================================== *)
(** ** Composing the script: failures and frames *)
(* ===================================================================== *)

Section composition.

Lemma stops_silent {A} (m : M A) :
  (forall w, hist (snd (m w)) = hist w) -> stops_at_failure m.
Proof.
  intros Hm w. exists []. rewrite Hm, app_nil_r. split; [done|].
  intros i st e Hi. by rewrite lookup_nil in Hi.
Qed.

Lemma stops_bind {A B} (m : M A) (k : A -> M B) :
  stops_at_failure m -> (forall a, stops_at_failure (k a)) ->
  stops_at_failure (bind m k).
Proof.
  intros Hm Hk w. unfold bind.
  destruct (Hm w) as (T1 & HT1 & H1). destruct (m w) as [[a|e] w1]; cbn [fst snd] in *.
  - destruct (Hk a w1) as (T2 & HT2 & H2). exists (T1 ++ T2).
    rewrite HT2, HT1, app_assoc. split; [done|].
    intros i st e Hi Hf. destruct (decide (i < length T1)) as [Hlt|Hge].
    + rewrite lookup_app_l in Hi by done. by destruct (H1 _ _ _ Hi Hf).
    + rewrite lookup_app_r in Hi by lia.
      destruct (H2 _ _ _ Hi Hf) as [Hr Hl]. split; [done|].
      rewrite length_app. lia.
  - exists T1. split; [done|]. intros i st e' Hi Hf.
    destruct (H1 _ _ _ Hi Hf) as [[= ->] Hl]. done.
Qed.

(** One system call: one step, whose failure is the error raised. *)
Lemma stops_call {A} (m : M A) :
  (forall w, exists st,
      hist (snd (m w)) = hist w ++ [st]
      /\ forall e, failure st = Some e -> fst (m w) = Raise e) ->
  stops_at_failure m.
Proof.
  intros Hm w. destruct (Hm w) as (st & Hh & He). exists [st]. split; [done|].
  intros [|i] st' e Hi Hf; simplify_eq/=. split; [by apply He|done].
Qed.

Ltac one_call :=
  apply stops_call; intros [fs0 fl0 u0 g0 um0 h0 lg0]; msimpl;
  repeat case_match; eexists; (split; [reflexivity|]); cbn [failure fst];
  intros ? [=]; by subst.

Lemma stops_sys_read p : stops_at_failure (sys_read p).
Proof. one_call. Qed.
Lemma stops_sys_create p : stops_at_failure (sys_create p).
Proof. one_call. Qed.
Lemma stops_sys_write p data : stops_at_failure (sys_write p data).
Proof. one_call. Qed.
Lemma stops_sys_copystat src dst : stops_at_failure (sys_copystat src dst).
Proof. one_call. Qed.
Lemma stops_sys_chmod p m : stops_at_failure (sys_chmod p m).
Proof. one_call. Qed.
Lemma stops_sys_chown p u g : stops_at_failure (sys_chown p u g).
Proof. one_call. Qed.

Lemma touches_silent {A} P (m : M A) :
  (forall w, hist (snd (m w)) = hist w /\ files (snd (m w)) = files w) ->
  touches_only P m.
Proof.
  intros Hm w p _. destruct (Hm w) as [Hh Hf]. exists [].
  rewrite Hh, Hf, app_nil_r. split; [done|]. split; [done|].
  intros st Hst. by apply elem_of_nil in Hst.
Qed.

Lemma touches_bind {A B} P (m : M A) (k : A -> M B) :
  touches_only P m -> (forall a, touches_only P (k a)) ->
  touches_only P (bind m k).
Proof.
  intros Hm Hk w p Hp. unfold bind.
  destruct (Hm w p Hp) as (T1 & HT1 & Hf1 & H1).
  destruct (m w) as [[a|e] w1]; cbn [fst snd] in *.
  - destruct (Hk a w1 p Hp) as (T2 & HT2 & Hf2 & H2). exists (T1 ++ T2).
    rewrite HT2, HT1, app_assoc, Hf2, Hf1. split; [done|]. split; [done|].
    intros st [Hst|Hst]%elem_of_app; [by apply H1|]. rewrite <- Hf1. by apply H2.
  - exists T1. by repeat split.
Qed.

(** One system call on [q]: one step, and files other than [q] are as
    before. *)
Lemma touches_call {A} (P : string -> Prop) q (m : M A) :
  P q ->
  (forall w, exists st,
      hist (snd (m w)) = hist w ++ [st]
      /\ after st = files (snd (m w))
      /\ forall p, p <> q -> files (snd (m w)) !! p = files w !! p) ->
  touches_only P m.
Proof.
  intros Hq Hm w p Hp. destruct (Hm w) as (st & Hh & Ha & Hf). exists [st].
  assert (p <> q) as Hpq by (by intros ->).
  split; [done|]. split; [by apply Hf|].
  intros st' ->%list_elem_of_singleton. rewrite Ha. by apply Hf.
Qed.

Ltac one_touch :=
  intros HP; eapply touches_call; [exact HP|];
  intros [fs0 fl0 u0 g0 um0 h0 lg0]; msimpl;
  repeat case_match; eexists; (split; [reflexivity|]); cbn [after files snd];
  (split; [reflexivity|]); intros ? ?; by rewrite ?lookup_insert_ne.

Lemma touches_sys_read P p : touches_only P (sys_read p).
Proof.
  intros w q _. destruct w as [fs0 fl0 u0 g0 um0 h0 lg0]. msimpl.
  repeat case_match; eexists; (split; [reflexivity|]); cbn [files snd];
    (split; [done|]); by intros st ->%list_elem_of_singleton.
Qed.
Lemma touches_sys_create (P : string -> Prop) p : P p -> touches_only P (sys_create p).
Proof. one_touch. Qed.
Lemma touches_sys_write (P : string -> Prop) p data :
  P p -> touches_only P (sys_write p data).
Proof. one_touch. Qed.
Lemma touches_sys_copystat (P : string -> Prop) src dst :
  P dst -> touches_only P (sys_copystat src dst).
Proof. one_touch. Qed.
Lemma touches_sys_chmod (P : string -> Prop) p m : P p -> touches_only P (sys_chmod p m).
Proof. one_touch. Qed.
Lemma touches_sys_chown (P : string -> Prop) p u g :
  P p -> touches_only P (sys_chown p u g).
Proof. one_touch. Qed.

End composition.

Section whole_run.
Context `{Libraries}.

Ltac open_script :=
  unfold run, read_traefik, write_adguardhome, has_changed, create_backup, copy2,
    yaml_dump, fix_permissions, json_load, yaml_load, configure_yaml;
  cbv beta zeta.

Ltac stops :=
  repeat first
    [ apply stops_bind; [|intros ?; cbv beta zeta]
    | apply stops_sys_read | apply stops_sys_create | apply stops_sys_write
    | apply stops_sys_copystat | apply stops_sys_chmod | apply stops_sys_chown
    | apply stops_silent; intros [fs0 fl0 u0 g0 um0 h0 lg0]; reflexivity
    | match goal with
      | |- stops_at_failure (if ?b then _ else _) => destruct b
      | |- stops_at_failure (match ?x with _ => _ end) => destruct x
      end ].

Lemma run_stops tp ap dn : stops_at_failure (run tp ap dn).
Proof. open_script. stops. Qed.

Ltac touches :=
  repeat first
    [ apply touches_bind; [|intros ?; cbv beta zeta]
    | apply touches_sys_read
    | apply touches_sys_create; by (left + right)
    | apply touches_sys_write; by (left + right)
    | apply touches_sys_copystat; by (left + right)
    | apply touches_sys_chmod; by (left + right)
    | apply touches_sys_chown; by (left + right)
    | apply touches_silent; intros [fs0 fl0 u0 g0 um0 h0 lg0]; split; reflexivity
    | match goal with
      | |- touches_only _ (if ?b then _ else _) => destruct b
      | |- touches_only _ (match ?x with _ => _ end) => destruct x
      end ].

Lemma run_touches tp ap dn :
  touches_only (fun p => p = ap \/ p = backup_path ap) (run tp ap dn).
Proof. open_script. touches. Qed.

(** X13.  A system call that fails ends the run: it is the last call
    of the trace, nothing is tried again or after it, and its error is
    the error the run ends with, with a non-zero exit status. *)
Theorem failed_call_ends_run fs fl u g um tp ap dn r w' i st e :
  run tp ap dn (boot fs fl u g um) = (r, w') ->
  hist w' !! i = Some st ->
  failure st = Some e ->
  r = Raise e /\ exit_code r = 1 /\ S i = length (hist w').
Proof.
  intros Hrun Hi Hf.
  destruct (run_stops tp ap dn (boot fs fl u g um)) as (T & HT & Hstop).
  rewrite Hrun in HT, Hstop. cbn [fst snd boot hist app] in *. rewrite HT in *.
  destruct (Hstop _ _ _ Hi Hf) as [-> Hl]. done.
Qed.

(** X12.  A run changes no file but the target and its backup: every
    other path, the source file among them, holds at every moment of
    the run and at its end what it held before, however the run ends. *)
Theorem run_touches_target_and_backup_only fs fl u g um tp ap dn r w' p :
  run tp ap dn (boot fs fl u g um) = (r, w') ->
  p <> ap ->
  p <> backup_path ap ->
  files w' !! p = fs !! p
  /\ forall s, s ∈ moments fs w' -> s !! p = fs !! p.
Proof.
  intros Hrun Hp Hb.
  destruct (run_touches tp ap dn (boot fs fl u g um) p) as (T & HT & Hfiles & Hsteps).
  { by intros [|]. }
  rewrite Hrun in HT, Hfiles. cbn [fst snd boot hist files app] in *.
  split; [done|]. unfold moments. rewrite HT.
  intros s [->|(st & -> & Hst)%list_elem_of_fmap]%elem_of_cons; [done|].
  by apply Hsteps.
Qed.

End whole_run.

(* ===================================================================== *)
(** ** Runs that end before the commit *)
(* ===================================================================== *)

Section early_ends.
Context `{Libraries}.

(** X6.  [read_traefik] makes one system call, the read of its file,
    whatever the file holds and whatever it returns or raises: it
    changes no file, and a result is returned only when that read
    succeeded. *)
Theorem read_traefik_only_reads (tp dn : string) (w : world) :
  files (snd (read_traefik tp dn w)) = files w
  /\ exists e,
       hist (snd (read_traefik tp dn w)) = hist w ++ [Step (SysRead tp) e (files w)]
       /\ (forall c, fst (read_traefik tp dn w) = Ok c -> e = None).
Proof.
  destruct (read_traefik_world tp dn w) as (e & lines & -> & He).
  split; [done|]. by exists e.
Qed.

(** The run after a successful extraction is [write_adguardhome]. *)
Lemma run_after_extraction fs fl u g um tp ap dn cert key :
  fst (read_traefik tp dn (boot fs fl u g um)) = Ok (cert, key) ->
  exists lines,
    forall r w'',
      write_adguardhome ap cert key
        (advance (boot fs fl u g um) [Step (SysRead tp) None fs] fs lines) = (r, w'') ->
      exists w',
        run tp ap dn (boot fs fl u g um) = (r, w')
        /\ files w' = files w'' /\ hist w' = hist w''.
Proof.
  intros Hres. unfold run. msimpl.
  set (w0 := {| files := fs; faults := fl; euid := u; egid := g; umask := um;
                hist := []; log := ["Initializing..."] |}).
  assert (fst (read_traefik tp dn w0) = Ok (cert, key)) as Hres0.
  { rewrite <- Hres. by apply read_traefik_result. }
  destruct (read_traefik_world tp dn w0) as (e0 & lines0 & Hw0 & He0).
  destruct (read_traefik tp dn w0) as [r0 wa] eqn:Hrt. cbn [fst snd] in *. subst wa r0.
  pose proof (He0 _ eq_refl) as ->. cbn [fst snd].
  exists ("Initializing..." :: lines0). intros r w'' Hw.
  subst w0. unfold advance, boot in *.
  cbn [files faults euid egid umask hist log app] in *.
  rewrite Hw. destruct r as [[]|e]; eexists; (split; [reflexivity|done]).
Qed.

(** X7.  When the extraction fails, whatever the reason (the source is
    missing or does not parse, no certificate for the selector, a field
    does not decode), the run ends with that error and a non-zero exit
    status after the one read of the source: the target is not even
    read, and every file is as it was. *)
Theorem failed_extraction_changes_nothing fs fl u g um tp ap dn e :
  fst (read_traefik tp dn (boot fs fl u g um)) = Raise e ->
  exists w' e0,
    run tp ap dn (boot fs fl u g um) = (Raise e, w')
    /\ exit_code (fst (run tp ap dn (boot fs fl u g um))) = 1
    /\ files w' = fs
    /\ hist w' = [Step (SysRead tp) e0 fs].
Proof.
  intros Hres. unfold run. msimpl.
  set (w0 := {| files := fs; faults := fl; euid := u; egid := g; umask := um;
                hist := []; log := ["Initializing..."] |}).
  assert (fst (read_traefik tp dn w0) = Raise e) as Hres0.
  { rewrite <- Hres. by apply read_traefik_result. }
  destruct (read_traefik_world tp dn w0) as (e0 & lines0 & Hw0 & He0).
  destruct (read_traefik tp dn w0) as [r0 wa] eqn:Hrt. cbn [fst snd] in *. subst wa r0.
  eexists. exists e0. cbn [fst snd]. split; [reflexivity|]. done.
Qed.

Lemma not_str_changed o s : is_str o = false -> ne_str o s = true.
Proof. by destruct o. Qed.

Lemma not_str_no_lines o n : is_str o = false -> get_first_lines o n = Raise AttributeError.
Proof. by destruct o. Qed.

Ltac to_the_end :=
  repeat (msimpl; cbn [truthy get_first_lines];
          match goal with
          | H : ?x = _ |- context [match ?x with _ => _ end] => rewrite H
          end);
  msimpl.

(** X5.  When the target document has no [tls] section, or the section
    lacks one of the two fields or is no mapping, the run ends with the
    error of that subscript ([KeyError] or [TypeError]) after reading
    the target: no backup is made and every file is as it was, also
    when the certificate differs. *)
Theorem target_without_fields_untouched fs fl u g um tp ap dn cert key f0 doc e :
  fst (read_traefik tp dn (boot fs fl u g um)) = Ok (cert, key) ->
  fl 1 = None ->
  fs !! ap = Some f0 ->
  yaml_loads (content f0) = Some doc ->
  (subscript (heap doc) (root doc) "tls" = Raise e
   \/ (exists tls, subscript (heap doc) (root doc) "tls" = Ok tls
                   /\ subscript (heap doc) tls "certificate_chain" = Raise e)
   \/ (exists tls old_cert,
         subscript (heap doc) (root doc) "tls" = Ok tls
         /\ subscript (heap doc) tls "certificate_chain" = Ok old_cert
         /\ subscript (heap doc) tls "private_key" = Raise e)) ->
  exists w',
    run tp ap dn (boot fs fl u g um) = (Raise e, w')
    /\ files w' = fs
    /\ hist w' = [Step (SysRead tp) None fs; Step (SysRead ap) None fs].
Proof.
  intros Hres Hfl Hf0 Hdoc Hmiss.
  destruct (run_after_extraction _ _ u g um _ ap _ _ _ Hres) as (lines & Hrun).
  edestruct Hrun as (w' & Hr & Hfiles & Hh).
  { rewrite write_adguardhome_tail.
    destruct Hmiss as [Ht|[(tls & Ht & Hc)|(tls & oc & Ht & Hc & Hk)]];
      to_the_end; reflexivity. }
  exists w'. by rewrite Hfiles, Hh.
Qed.

(** X4.  When a stored field is not a string (a null, a number, a list
    or a mapping), the comparison finds it changed and the preview for
    the log raises [AttributeError]: the run ends there, after reading
    the target, with every file as it was; so also when it is the key
    that is no string and the certificate has changed. *)
Theorem non_string_field_untouched
    fs fl u g um tp ap dn cert key f0 doc tls old_cert old_key :
  fst (read_traefik tp dn (boot fs fl u g um)) = Ok (cert, key) ->
  fl 1 = None ->
  fs !! ap = Some f0 ->
  yaml_loads (content f0) = Some doc ->
  subscript (heap doc) (root doc) "tls" = Ok tls ->
  subscript (heap doc) tls "certificate_chain" = Ok old_cert ->
  subscript (heap doc) tls "private_key" = Ok old_key ->
  is_str old_cert && is_str old_key = false ->
  exists w',
    run tp ap dn (boot fs fl u g um) = (Raise AttributeError, w')
    /\ files w' = fs
    /\ hist w' = [Step (SysRead tp) None fs; Step (SysRead ap) None fs].
Proof.
  intros Hres Hfl Hf0 Hdoc Htop Hcc Hpk Hstr.
  destruct (run_after_extraction _ _ u g um _ ap _ _ _ Hres) as (lines & Hrun).
  assert (exists w'',
            write_adguardhome ap cert key
              (advance (boot fs fl u g um) [Step (SysRead tp) None fs] fs lines)
            = (Raise AttributeError, w'')
            /\ files w'' = fs
            /\ hist w'' = [Step (SysRead tp) None fs; Step (SysRead ap) None fs])
    as (w'' & Hw & Hfiles & Hh).
  { rewrite write_adguardhome_tail. unfold has_changed.
    destruct (is_str old_cert) eqn:Ec.
    - cbn [andb] in Hstr. destruct old_cert as [| | |oc|]; try discriminate.
      pose proof (not_str_changed _ key Hstr) as Hnk.
      pose proof (not_str_no_lines _ 1 Hstr) as Hlk.
      destruct (subscript_Ok _ _ _ _ Hcc) as (l & m & -> & Hl & _).
      pose proof (set_tls_ref _ _ _ _ "certificate_chain" (VStr cert) Htop Hl) as Hset.
      destruct (ne_str (VStr oc) cert) eqn:Hnc.
      + to_the_end. eexists. split; [reflexivity|done].
      + to_the_end. eexists. split; [reflexivity|done].
    - pose proof (not_str_changed _ cert Ec) as Hnc.
      pose proof (not_str_no_lines _ 1 Ec) as Hlc.
      to_the_end. eexists. split; [reflexivity|done]. }
  destruct (Hrun _ _ Hw) as (w' & Hr & Hfiles' & Hh').
  exists w'. by rewrite Hfiles', Hh', Hfiles, Hh.
Qed.

End early_ends.

(* ===================================================================== *)
(** ** Stores that are not lists of whole records *)
(* ===================================================================== *)

Section damaged_stores.
Context `{Libraries}.

(** The extraction up to the selection of the record. *)
Ltac to_the_store Hsrc Hfl Hjson Hle Hcs :=
  unfold read_traefik; msimpl; rewrite Hfl, Hsrc; msimpl; rewrite Hjson; msimpl;
  rewrite ?Hle; msimpl; rewrite ?Hcs; msimpl.

(** X8.  Traefik stores [Certificates: null] as long as it has issued
    no certificate.  On such a store the extraction raises [TypeError],
    with a selector (a null cannot be iterated) and without one (a null
    cannot be subscripted): it is not one of the two exits that report
    that no certificate was found. *)
Theorem null_certificates_raise_TypeError fs fl u g um tp dn src acme le :
  fs !! tp = Some src ->
  fl 0 = None ->
  json_loads (content src) = Some acme ->
  getitem acme "letsencrypt" = Ok le ->
  getitem le "Certificates" = Ok PNone ->
  fst (read_traefik tp dn (boot fs fl u g um)) = Raise TypeError
  /\ NotFoundError TypeError = false.
Proof.
  intros Hsrc Hfl Hjson Hle Hcs. split; [|done].
  to_the_store Hsrc Hfl Hjson Hle Hcs.
  destruct (blank dn); repeat (msimpl; rewrite ?Hle, ?Hcs); reflexivity.
Qed.

Lemma getitem_no_exit o k e : getitem o k = Raise e -> NotFoundError e = false.
Proof. unfold getitem. repeat case_match; intros [= <-]; done. Qed.

Lemma decode_no_exit o e : b64decode_utf8 o = Raise e -> NotFoundError e = false.
Proof. unfold b64decode_utf8. repeat case_match; intros [= <-]; done. Qed.

(** X9.  Without a selector, the exit that reports that [acme.json]
    holds no certificate is taken exactly when the store has a first
    element and that element is falsy (a null, an empty mapping):
    whatever error a truthy first element leads to, it is not that
    exit. *)
Theorem exit_without_selector_iff_first_falsy
    fs fl u g um tp dn src acme le first rest :
  fs !! tp = Some src ->
  fl 0 = None ->
  json_loads (content src) = Some acme ->
  getitem acme "letsencrypt" = Ok le ->
  getitem le "Certificates" = Ok (PList (first :: rest)) ->
  blank dn = true ->
  (truthy first = false ->
     fst (read_traefik tp dn (boot fs fl u g um))
     = Raise (SystemExit "Could not find any certificate in acme.json"))
  /\ (truthy first = true ->
        forall e, fst (read_traefik tp dn (boot fs fl u g um)) = Raise e ->
                  NotFoundError e = false).
Proof.
  intros Hsrc Hfl Hjson Hle Hcs Hblank. split; intros Ht.
  - to_the_store Hsrc Hfl Hjson Hle Hcs. rewrite Hblank.
    repeat (msimpl; rewrite ?Hle, ?Hcs). cbn [getitem0]. msimpl.
    rewrite Ht. reflexivity.
  - intros e. to_the_store Hsrc Hfl Hjson Hle Hcs. rewrite Hblank.
    repeat (msimpl; rewrite ?Hle, ?Hcs). cbn [getitem0]. msimpl.
    rewrite Ht. cbn [negb]. msimpl.
    destruct (getitem first "certificate") as [c|e1] eqn:Ec; msimpl;
      [|intros [= <-]; by apply (getitem_no_exit _ _ _ Ec)].
    destruct (b64decode_utf8 c) as [cert|e1] eqn:Edc; msimpl;
      [|intros [= <-]; by apply (decode_no_exit _ _ Edc)].
    destruct (getitem first "key") as [k|e1] eqn:Ek; msimpl;
      [|intros [= <-]; by apply (getitem_no_exit _ _ _ Ek)].
    destruct (b64decode_utf8 k) as [key|e1] eqn:Edk; msimpl;
      [|intros [= <-]; by apply (decode_no_exit _ _ Edk)].
    intros [=].
Qed.

(** The generator raises at the first record it cannot test, if no
    record before it has the domain looked for. *)
Lemma next_certificate_raises pre d post dn e :
  Forall (fun x => exists r, record_view x = Some r /\ domain r <> dn) pre ->
  (getitem d "domain" = Raise e
   \/ exists dom, getitem d "domain" = Ok dom /\ getitem dom "main" = Raise e) ->
  next_certificate (pre ++ d :: post) dn = Raise e.
Proof.
  intros Hpre Hd. induction Hpre as [|x pre (r & Hx & Hne) _ IH].
  - cbn [app next_certificate].
    destruct Hd as [->|(dom & -> & ->)]; reflexivity.
  - destruct (record_view_fields _ _ Hx) as (dm & Hdom & Hm & _).
    cbn [app next_certificate]. rewrite Hdom, Hm. cbn [eq_str].
    apply String.eqb_neq in Hne. by rewrite Hne.
Qed.

(** X10.  With a selector, a record that has no [domain], or whose
    [domain] has no [main], ends the search with the error of that
    subscript when no record before it has the domain looked for: the
    records after it are not looked at, so a record of that domain
    further down the store is not found. *)
Theorem record_without_domain_ends_search
    fs fl u g um tp dn src acme le pre d post e :
  fs !! tp = Some src ->
  fl 0 = None ->
  json_loads (content src) = Some acme ->
  getitem acme "letsencrypt" = Ok le ->
  getitem le "Certificates" = Ok (PList (pre ++ d :: post)) ->
  blank dn = false ->
  Forall (fun x => exists r, record_view x = Some r /\ domain r <> dn) pre ->
  (getitem d "domain" = Raise e
   \/ exists dom, getitem d "domain" = Ok dom /\ getitem dom "main" = Raise e) ->
  fst (read_traefik tp dn (boot fs fl u g um)) = Raise e.
Proof.
  intros Hsrc Hfl Hjson Hle Hcs Hblank Hpre Hd.
  to_the_store Hsrc Hfl Hjson Hle Hcs. rewrite Hblank.
  repeat (msimpl; rewrite ?Hle, ?Hcs). cbn [iterate]. msimpl.
  by rewrite (next_certificate_raises _ _ _ _ _ Hpre Hd).
Qed.

End damaged_stores.

(* ===================================================================== *)
(** ** The backup and the permissions, on their own *)
(* ===================================================================== *)

Section helpers_alone.

(** X11.  [create_backup] never changes the file it copies, nor any
    file but the backup, however it ends.  When it returns, it has made
    four system calls and the backup holds the content and the mode of
    the target; its owner is the owner of the backup that was there
    before, or the process when there was none.  When there is no
    target it raises and creates nothing. *)
Theorem create_backup_copies_and_keeps (ap : string) (w : world) :
  (forall p, p <> backup_path ap ->
     files (snd (create_backup ap w)) !! p = files w !! p)
  /\ files (snd (create_backup ap w)) !! ap = files w !! ap
  /\ (fst (create_backup ap w) = Ok tt ->
        exists f0 b,
          files w !! ap = Some f0
          /\ files (snd (create_backup ap w)) !! backup_path ap = Some b
          /\ content b = content f0
          /\ mode b = mode f0
          /\ (uid b, gid b) = match files w !! backup_path ap with
                              | Some old => (uid old, gid old)
                              | None => (euid w, egid w)
                              end
          /\ length (hist (snd (create_backup ap w))) = length (hist w) + 4)
  /\ (files w !! ap = None ->
        files (snd (create_backup ap w)) = files w
        /\ exists e, fst (create_backup ap w) = Raise e).
Proof.
  assert (forall p, p <> backup_path ap ->
            files (snd (create_backup ap w)) !! p = files w !! p) as Hframe.
  { intros p Hp. destruct w as [fs0 fl0 u0 g0 um0 h0 lg0].
    unfold create_backup. msimpl. rewrite eqb_backup_path.
    repeat exec_step; cbn [fst snd files]; by rewrite ?lookup_insert_ne. }
  split; [exact Hframe|]. split; [apply Hframe, not_eq_sym, backup_path_neq|].
  destruct w as [fs0 fl0 u0 g0 um0 h0 lg0]. split.
  - unfold create_backup. msimpl. rewrite eqb_backup_path.
    repeat exec_step; cbn [fst snd files hist]; intros [=].
    all: eexists _, _; lookups; (split; [reflexivity|]); (split; [reflexivity|]).
    all: rewrite ?length_app; cbn [length]; repeat split; try done; lia.
  - intros Hnone. cbn [files] in Hnone.
    unfold create_backup. msimpl. rewrite eqb_backup_path. msimpl.
    rewrite Hnone. destruct (fl0 (length h0)); msimpl; eauto.
Qed.

(** X15.  [fix_permissions] changes neither the content of its file
    nor any other file, however it ends.  When it returns, the file has
    mode 0o644 and belongs to user 0 and group 0, and doing it once
    more changes nothing. *)
Theorem fix_permissions_keeps_content (ap : string) (w : world) :
  (forall p, p <> ap -> files (snd (fix_permissions ap w)) !! p = files w !! p)
  /\ content_at (files (snd (fix_permissions ap w))) ap = content_at (files w) ap
  /\ (fst (fix_permissions ap w) = Ok tt ->
        (exists f,
           files (snd (fix_permissions ap w)) !! ap = Some f
           /\ mode f = mode_0o644 /\ uid f = 0%N /\ gid f = 0%N)
        /\ forall w2,
             files w2 = files (snd (fix_permissions ap w)) ->
             faults w2 (length (hist w2)) = None ->
             faults w2 (S (length (hist w2))) = None ->
             fst (fix_permissions ap w2) = Ok tt
             /\ files (snd (fix_permissions ap w2)) = files w2)
  /\ (files w !! ap = None ->
        files (snd (fix_permissions ap w)) = files w
        /\ exists e, fst (fix_permissions ap w) = Raise e).
Proof.
  destruct w as [fs0 fl0 u0 g0 um0 h0 lg0]. split; [|split; [|split]].
  - intros p Hp. unfold fix_permissions. msimpl.
    repeat exec_step; cbn [fst snd files]; by rewrite ?lookup_insert_ne.
  - unfold fix_permissions, content_at. msimpl.
    repeat exec_step; cbn [fst snd files]; lookups; try done.
    all: repeat match goal with H : _ !! _ = _ |- _ => rewrite H end; done.
  - unfold fix_permissions at 1 2. msimpl.
    destruct (fl0 (length h0)); msimpl; [intros [=]|].
    destruct (fs0 !! ap) as [f0|] eqn:Hf0; msimpl; [|intros [=]].
    rewrite length_app. cbn [length]. rewrite Nat.add_1_r.
    destruct (fl0 (S (length h0))); msimpl; [intros [=]|].
    rewrite lookup_insert_eq. msimpl. intros _. split.
    { eexists. rewrite lookup_insert_eq. split; [reflexivity|]. done. }
    intros [fs2 fl2 u2 g2 um2 h2 lg2]. cbn [files faults hist]. intros -> Hfl1 Hfl2.
    unfold fix_permissions. msimpl. rewrite Hfl1. msimpl.
    rewrite lookup_insert_eq. msimpl. rewrite length_app. cbn [length].
    rewrite Nat.add_1_r, Hfl2. msimpl. rewrite lookup_insert_eq. msimpl.
    split; [done|]. by rewrite !insert_insert_eq.
  - cbn [files]. intros Hnone. unfold fix_permissions. msimpl.
    rewrite Hnone. destruct (fl0 (length h0)); msimpl; eauto.
Qed.

End helpers_alone.

(* ===================================================================== *)
(** ** The calls of a run, in order *)
(* ===================================================================== *)

Section calls_in_order.
Context `{Libraries}.

(** A commit that returns has made its eight calls, none refused. *)
Lemma commit_calls ap doc w w' f0 :
  files w !! ap = Some f0 ->
  commit ap doc w = (Ok tt, w') ->
  exists T,
    hist w' = hist w ++ T
    /\ call <$> T =
         [SysRead ap; SysCreate (backup_path ap);
          SysWrite (backup_path ap) (content f0);
          SysCopystat ap (backup_path ap);
          SysCreate ap; SysWrite ap (yaml_dumps doc);
          SysChmod ap mode_0o644; SysChown ap 0 0]
    /\ Forall (fun st => failure st = None) T.
Proof.
  destruct w as [fs0 fl0 u0 g0 um0 h0 lg0]. cbn [files hist]. intros Hf.
  unfold commit. repeat exec_step; msimpl; lookups.
  all: intros [= <-]; cbn [hist]; rewrite <- ?app_assoc; cbn [app].
  all: eexists; (split; [reflexivity|]); split; [reflexivity|].
  all: by repeat constructor.
Qed.

(** X17.  A run that returns has made either exactly the two reads,
    of the source and of the target, or exactly ten calls in this
    order: the two reads, the four calls of the backup (read the
    target, create the backup, write the old content into it, copy the
    mode), the creation and the write of the target, [chmod] and
    [chown]; and none of them was refused. *)
Theorem returning_run_calls_in_order fs fl u g um tp ap dn w' :
  run tp ap dn (boot fs fl u g um) = (Ok tt, w') ->
  (call <$> hist w' = [SysRead tp; SysRead ap]
   \/ exists old data,
        content_at fs ap = Some old
        /\ call <$> hist w' =
             [SysRead tp; SysRead ap;
              SysRead ap; SysCreate (backup_path ap);
              SysWrite (backup_path ap) old;
              SysCopystat ap (backup_path ap);
              SysCreate ap; SysWrite ap data;
              SysChmod ap mode_0o644; SysChown ap 0 0])
  /\ Forall (fun st => failure st = None) (hist w').
Proof.
  intros Hrun. apply run_shape in Hrun as
    [(Hfiles & _ & Hok)
    |(cert & key & f0 & doc & l & m & oc & ok & w1 & w'' & _ & Hf0 & _ & _ & _ & _ & _ & _
      & Hfs1 & Hh1 & _ & _ & _ & _ & Hc & _ & Hh)].
  - destruct (Hok eq_refl) as (cert & key & f0 & doc & l & m & _ & -> & _).
    split; [by left|]. by repeat constructor.
  - rewrite <- Hfs1 in Hf0. destruct (commit_calls _ _ _ _ _ Hf0 Hc) as (T & HT & Hcalls & Hnone).
    rewrite Hh, HT, Hh1. split.
    + right. exists (content f0). eexists. split.
      { unfold content_at. rewrite <- Hfs1, Hf0. reflexivity. }
      rewrite fmap_app, Hcalls. reflexivity.
    + apply Forall_app. split; [by repeat constructor|done].
Qed.

(** X16.  When the target cannot be read (there is no such file) or
    does not parse as YAML, the run ends with the error of the read or
    of the parser after the two reads: nothing is created in place of
    the missing file, and every file is as it was. *)
Theorem unreadable_target_changes_nothing fs fl u g um tp ap dn cert key :
  fst (read_traefik tp dn (boot fs fl u g um)) = Ok (cert, key) ->
  fl 1 = None ->
  (fs !! ap = None ->
     exists w',
       run tp ap dn (boot fs fl u g um) = (Raise FileNotFoundError, w')
       /\ files w' = fs
       /\ hist w' = [Step (SysRead tp) None fs;
                     Step (SysRead ap) (Some FileNotFoundError) fs])
  /\ (forall f0,
        fs !! ap = Some f0 ->
        yaml_loads (content f0) = None ->
        exists w',
          run tp ap dn (boot fs fl u g um) = (Raise YAMLError, w')
          /\ files w' = fs
          /\ hist w' = [Step (SysRead tp) None fs; Step (SysRead ap) None fs]).
Proof.
  intros Hres Hfl.
  destruct (run_after_extraction _ _ u g um _ ap _ _ _ Hres) as (lines & Hrun).
  split.
  - intros Hnone.
    edestruct Hrun as (w' & Hr & Hfiles & Hh).
    { unfold write_adguardhome. msimpl. rewrite Hfl, Hnone. msimpl. reflexivity. }
    exists w'. by rewrite Hfiles, Hh.
  - intros f0 Hf0 Hdoc.
    edestruct Hrun as (w' & Hr & Hfiles & Hh).
    { unfold write_adguardhome. msimpl. rewrite Hfl, Hf0. msimpl. rewrite Hdoc.
      msimpl. reflexivity. }
    exists w'. by rewrite Hfiles, Hh.
Qed.

End calls_in_order.

(* ===================================================================== *)
(** ** The last line of the log *)
(* ===================================================================== *)

Section last_line.
Context `{Libraries}.

Lemma never_logs_silent {A} s (m : M A) :
  (forall w, log (snd (m w)) = log w) -> never_logs s m.
Proof.
  intros Hm w. exists []. rewrite Hm, app_nil_r. split; [done|]. apply not_elem_of_nil.
Qed.

Lemma never_logs_bind {A B} s (m : M A) (k : A -> M B) :
  never_logs s m -> (forall a, never_logs s (k a)) -> never_logs s (bind m k).
Proof.
  intros Hm Hk w. unfold bind. destruct (Hm w) as (L1 & HL1 & H1).
  destruct (m w) as [[a|e] w1]; cbn [fst snd] in *.
  - destruct (Hk a w1) as (L2 & HL2 & H2). exists (L1 ++ L2).
    rewrite HL2, HL1, app_assoc. split; [done|]. by intros [|]%elem_of_app.
  - by exists L1.
Qed.

Lemma never_logs_info s msg : msg <> s -> never_logs s (info msg).
Proof.
  intros Hne w. exists [msg]. split; [done|]. by intros ->%list_elem_of_singleton.
Qed.

Lemma append_not_Done (c : ascii) (a b : string) :
  c <> "D"%char -> String c a +:+ b <> "Done".
Proof. intros Hc. rewrite append_cons. intros [= ->]. done. Qed.

Ltac silent :=
  apply never_logs_silent; intros [fs0 fl0 u0 g0 um0 h0 lg0]; msimpl;
  repeat case_match; reflexivity.

Ltac quiet :=
  repeat first
    [ apply never_logs_bind; [|intros ?; cbv beta zeta]
    | apply never_logs_info; first [ discriminate | by apply append_not_Done ]
    | match goal with
      | |- never_logs _ (if ?b then _ else _) => destruct b
      | |- never_logs _ (match ?x with _ => _ end) => destruct x
      end
    | silent ].

(** The run up to its last statement. *)
Lemma run_before_Done tp ap dn :
  never_logs "Done"
    (info "Initializing..." ;;
     configure_yaml ;;
     credential <- read_traefik tp dn ;;
     write_adguardhome ap (fst credential) (snd credential)).
Proof.
  unfold read_traefik, write_adguardhome, has_changed, create_backup, copy2,
    yaml_dump, fix_permissions, json_load, yaml_load, configure_yaml.
  cbv beta zeta. quiet.
Qed.

Lemma run_ends_with_Done tp ap dn w :
  run tp ap dn w =
    ((info "Initializing..." ;;
      configure_yaml ;;
      credential <- read_traefik tp dn ;;
      write_adguardhome ap (fst credential) (snd credential)) ;;
     info "Done") w.
Proof.
  unfold run. msimpl.
  destruct (read_traefik _ _ _) as [[c|e] w1]; [|done].
  by destruct (write_adguardhome _ _ _ _) as [[[]|e] w2].
Qed.

(** X18.  [Done] is logged exactly when the run returns, and then as
    the last line of the log: a run that ends with an error, whichever,
    never logs it. *)
Theorem Done_is_logged_iff_run_returns fs fl u g um tp ap dn r w' :
  run tp ap dn (boot fs fl u g um) = (r, w') ->
  ("Done" ∈ log w' <-> r = Ok tt)
  /\ (r = Ok tt -> last (log w') = Some "Done").
Proof.
  rewrite run_ends_with_Done.
  destruct (run_before_Done tp ap dn (boot fs fl u g um)) as (L & HL & HD).
  unfold bind at 1.
  destruct ((info "Initializing..." ;; _) (boot fs fl u g um)) as [[[]|e] w1];
    cbn [fst snd boot log app] in HL.
  - unfold info. intros [= <- <-]. cbn [log]. rewrite HL.
    split; [split; [done|]|]; intros _.
    + apply elem_of_app. right. by apply list_elem_of_singleton.
    + by rewrite last_snoc.
  - intros [= <- <-]. rewrite HL. split; [|done]. split; [done|intros [=]].
Qed.

End last_line.

(* ===================================================================== *)
(** ** Further examples *)
(* ===================================================================== *)

Lemma outcome_pair {A} (m : M A) (w : world) : m w = (fst (m w), snd (m w)).
Proof. by destruct (m w). Defined.

Section further_examples.
Import fixture.

Lemma has_changed_logs_second_lines_witness :
  let old := "BEGIN A" +:+ String LF ("OLD" +:+ String LF "END") in
  let new := "BEGIN B" +:+ String LF ("NEW" +:+ String LF "END") in
  let w := boot (disk acme_one old_yaml) no_faults 0 0 18 in
  log (snd (has_changed (VStr old) new "Certificate chain" w))
    = ["Checking Certificate chain"; "Certificate chain has changed";
       "Old: OLD..."; "New: NEW..."]
  /\ log (snd (has_changed (VStr "BEGIN A") "BEGIN B" "Certificate chain" w))
     = ["Checking Certificate chain"; "Certificate chain has changed";
        "Old: ..."; "New: ..."].
Proof.
  intros old new w.
  destruct (has_changed_logs_second_lines
              "BEGIN A" "OLD" "END" "BEGIN B" "NEW" "END" "Certificate chain" w
              eq_refl eq_refl eq_refl eq_refl ltac:(vm_compute; discriminate))
    as [Hfull Hone].
  split; [exact Hfull|]. apply Hone. discriminate.
Defined.

Lemma str_presenter_style_witness :
  let pem := "BEGIN" +:+ String LF "END" in
  tag (str_presenter pem) = "tag:yaml.org,2002:str"
  /\ value (str_presenter pem) = pem
  /\ (style (str_presenter pem) = None \/ style (str_presenter pem) = Some "|")
  /\ style (str_presenter "CERTA") = None
  /\ style (str_presenter ("CERTA" +:+ String LF EmptyString)) = None
  /\ style (str_presenter ("BEGIN" +:+ String LF "END")) = Some "|".
Proof.
  intros pem. apply (str_presenter_style "CERTA" "END" "BEGIN" pem).
  - reflexivity.
  - discriminate.
Defined.

Lemma failed_extraction_changes_nothing_witness :
  exists w' e0,
    run tp ap "c.example" (boot (disk acme_one old_yaml) no_faults 0 0 18)
    = (Raise (SystemExit "Could not find any certificate for domain c.example"), w')
    /\ exit_code (fst (run tp ap "c.example" (boot (disk acme_one old_yaml) no_faults 0 0 18)))
       = 1
    /\ files w' = disk acme_one old_yaml
    /\ hist w' = [Step (SysRead tp) e0 (disk acme_one old_yaml)].
Proof.
  apply (failed_extraction_changes_nothing (disk acme_one old_yaml) no_faults 0 0 18
           tp ap "c.example").
  vm_compute. reflexivity.
Defined.

Lemma failed_call_ends_run_witness :
  let r := fst (scenario acme_one old_yaml "" (refuse 7 (OSError 28) 10)) in
  let w' := snd (scenario acme_one old_yaml "" (refuse 7 (OSError 28) 10)) in
  failure (step_at w' 7) = Some (OSError 28)
  /\ r = Raise (OSError 28) /\ exit_code r = 1 /\ 8 = length (hist w').
Proof.
  intros r w'.
  assert (hist w' !! 7 = Some (step_at w' 7)) as Hi by (vm_compute; reflexivity).
  assert (failure (step_at w' 7) = Some (OSError 28)) as Hf by (vm_compute; reflexivity).
  split; [exact Hf|].
  exact (failed_call_ends_run _ _ _ _ _ _ _ _ _ _ _ _ _
           (outcome_pair (run tp ap "") _) Hi Hf).
Defined.

Lemma run_touches_target_and_backup_only_witness :
  let fs := disk acme_one old_yaml in
  let w' := snd (scenario acme_one old_yaml "" no_faults) in
  files w' !! ap <> fs !! ap
  /\ files w' !! tp = fs !! tp
  /\ forall s, s ∈ moments fs w' -> s !! tp = fs !! tp.
Proof.
  intros fs w'. split; [vm_compute; discriminate|].
  apply (run_touches_target_and_backup_only fs no_faults 0 0 18 tp ap ""
           (fst (scenario acme_one old_yaml "" no_faults)) w' tp
           (outcome_pair (run tp ap "") (boot fs no_faults 0 0 18))).
  - discriminate.
  - vm_compute. discriminate.
Defined.

Lemma returning_run_calls_in_order_witness :
  let w' := snd (scenario acme_one old_yaml "" no_faults) in
  (call <$> hist w' = [SysRead tp; SysRead ap]
   \/ exists old data,
        content_at (disk acme_one old_yaml) ap = Some old
        /\ call <$> hist w' =
             [SysRead tp; SysRead ap;
              SysRead ap; SysCreate (backup_path ap);
              SysWrite (backup_path ap) old;
              SysCopystat ap (backup_path ap);
              SysCreate ap; SysWrite ap data;
              SysChmod ap mode_0o644; SysChown ap 0 0])
  /\ Forall (fun st => failure st = None) (hist w').
Proof.
  intros w'.
  apply (returning_run_calls_in_order (disk acme_one old_yaml) no_faults 0 0 18 tp ap "").
  vm_compute. reflexivity.
Defined.

Lemma unreadable_target_changes_nothing_witness :
  let bare : gmap string file := {[ tp := source_file acme_one ]} in
  let torn := disk acme_one "tls: [" in
  (exists w',
      run tp ap "" (boot bare no_faults 0 0 18) = (Raise FileNotFoundError, w')
      /\ files w' = bare
      /\ hist w' = [Step (SysRead tp) None bare;
                    Step (SysRead ap) (Some FileNotFoundError) bare])
  /\ (exists w',
        run tp ap "" (boot torn no_faults 0 0 18) = (Raise YAMLError, w')
        /\ files w' = torn
        /\ hist w' = [Step (SysRead tp) None torn; Step (SysRead ap) None torn]).
Proof.
  intros bare torn. split.
  - apply (proj1 (@unreadable_target_changes_nothing libraries bare no_faults 0%N 0%N 18%N tp ap ""
                    "CERTA" "KEYA" ltac:(vm_compute; reflexivity) eq_refl)).
    vm_compute. reflexivity.
  - apply (proj2 (@unreadable_target_changes_nothing libraries torn no_faults 0%N 0%N 18%N tp ap ""
                    "CERTA" "KEYA" ltac:(vm_compute; reflexivity) eq_refl)
             (target_file "tls: [")).
    + vm_compute. reflexivity.
    + vm_compute. reflexivity.
Defined.

Lemma Done_is_logged_iff_run_returns_witness :
  let r := fst (scenario acme_one old_yaml "" (refuse 8 PermissionError 0)) in
  let w' := snd (scenario acme_one old_yaml "" (refuse 8 PermissionError 0)) in
  r = Raise PermissionError
  /\ ("Done" ∈ log w' <-> r = Ok tt)
  /\ (r = Ok tt -> last (log w') = Some "Done").
Proof.
  intros r w'. split; [vm_compute; reflexivity|].
  exact (Done_is_logged_iff_run_returns _ _ _ _ _ _ _ _ _ _
           (outcome_pair (run tp ap "") _)).
Defined.

End further_examples.

Section damaged_examples.
Import damaged.

Lemma non_string_field_untouched_witness :
  let fs := fixture.disk fixture.acme_one yaml_null_chain in
  exists w',
    run fixture.tp fixture.ap "" (boot fs fixture.no_faults 0 0 18)
    = (Raise AttributeError, w')
    /\ files w' = fs
    /\ hist w' = [Step (SysRead fixture.tp) None fs; Step (SysRead fixture.ap) None fs].
Proof.
  intros fs.
  apply (non_string_field_untouched fs fixture.no_faults 0 0 18 fixture.tp fixture.ap ""
           "CERTA" "KEYA" (fixture.target_file yaml_null_chain)
           null_chain (VRef 1) VNone (VStr "OLDKEY")).
  all: vm_compute; reflexivity.
Defined.

Lemma target_without_fields_untouched_witness :
  let fs := fixture.disk fixture.acme_one yaml_no_tls in
  exists w',
    run fixture.tp fixture.ap "" (boot fs fixture.no_faults 0 0 18)
    = (Raise (KeyError (PStr "tls")), w')
    /\ files w' = fs
    /\ hist w' = [Step (SysRead fixture.tp) None fs; Step (SysRead fixture.ap) None fs].
Proof.
  intros fs.
  apply (target_without_fields_untouched fs fixture.no_faults 0 0 18 fixture.tp
           fixture.ap "" "CERTA" "KEYA" (fixture.target_file yaml_no_tls)
           no_tls).
  - vm_compute. reflexivity.
  - reflexivity.
  - vm_compute. reflexivity.
  - vm_compute. reflexivity.
  - left. vm_compute. reflexivity.
Defined.

Lemma null_certificates_raise_TypeError_witness :
  let fs := fixture.disk acme_null fixture.old_yaml in
  (fst (read_traefik fixture.tp "" (boot fs fixture.no_faults 0 0 18)) = Raise TypeError
   /\ NotFoundError TypeError = false)
  /\ (fst (read_traefik fixture.tp "a.example" (boot fs fixture.no_faults 0 0 18))
      = Raise TypeError
      /\ NotFoundError TypeError = false).
Proof.
  intros fs. split.
  - apply (null_certificates_raise_TypeError fs fixture.no_faults 0 0 18 fixture.tp ""
             (fixture.source_file acme_null) (acme_of PNone)
             (PDict {[ "Certificates" := PNone ]})).
    all: vm_compute; reflexivity.
  - apply (null_certificates_raise_TypeError fs fixture.no_faults 0 0 18 fixture.tp
             "a.example" (fixture.source_file acme_null) (acme_of PNone)
             (PDict {[ "Certificates" := PNone ]})).
    all: vm_compute; reflexivity.
Defined.

Lemma exit_without_selector_iff_first_falsy_witness :
  let fs := fixture.disk acme_hollow fixture.old_yaml in
  truthy (PDict ∅) = false
  /\ fst (read_traefik fixture.tp "" (boot fs fixture.no_faults 0 0 18))
     = Raise (SystemExit "Could not find any certificate in acme.json").
Proof.
  intros fs. split; [reflexivity|].
  apply (proj1 (@exit_without_selector_iff_first_falsy libraries fs fixture.no_faults 0%N 0%N 18%N
                  fixture.tp "" (fixture.source_file acme_hollow)
                  (acme_of (PList [PDict ∅; fixture.stored fixture.a_record]))
                  (PDict {[ "Certificates" :=
                              PList [PDict ∅; fixture.stored fixture.a_record] ]})
                  (PDict ∅) [fixture.stored fixture.a_record]
                  ltac:(vm_compute; reflexivity) eq_refl
                  ltac:(vm_compute; reflexivity) ltac:(vm_compute; reflexivity)
                  ltac:(vm_compute; reflexivity) eq_refl)).
  reflexivity.
Defined.

Lemma record_without_domain_ends_search_witness :
  let fs := fixture.disk acme_nameless fixture.old_yaml in
  record_view (fixture.stored fixture.b_record) = Some fixture.b_record
  /\ fst (read_traefik fixture.tp "b.example" (boot fs fixture.no_faults 0 0 18))
     = Raise (KeyError (PStr "domain")).
Proof.
  intros fs. split; [vm_compute; reflexivity|].
  apply (record_without_domain_ends_search fs fixture.no_faults 0 0 18 fixture.tp
           "b.example" (fixture.source_file acme_nameless)
           (acme_of (PList [fixture.stored fixture.a_record; nameless;
                            fixture.stored fixture.b_record]))
           (PDict {[ "Certificates" :=
                       PList [fixture.stored fixture.a_record; nameless;
                              fixture.stored fixture.b_record] ]})
           [fixture.stored fixture.a_record] nameless [fixture.stored fixture.b_record]).
  - vm_compute. reflexivity.
  - reflexivity.
  - vm_compute. reflexivity.
  - vm_compute. reflexivity.
  - vm_compute. reflexivity.
  - reflexivity.
  - constructor; [|constructor]. exists fixture.a_record.
    split; [vm_compute; reflexivity|discriminate].
  - left. vm_compute. reflexivity.
Defined.

End damaged_examples.
